(** * Website Content QA Bot: a shallow embedding of [web-craler.ipynb]

    The notebook wires four collaborators (a recursive URL loader, a text
    splitter, an embedding/vector store and an LLM) into two Gradio
    callbacks, [ingest_fn] and [chat_fn], that work on a per-session
    [state] dict.  This development embeds the callbacks and the helper
    functions of cells 4-7, with the collaborators kept as parameters, and
    states the properties of the specification over them. *)

From Stdlib Require Import Ascii String ZArith Lia.
From stdpp Require Import base option list gmap strings pretty.

Local Open Scope Z_scope.
Local Open Scope stdpp_scope.

(** ** Python strings

    A Python [str] is modelled as a Rocq [string] holding its UTF-8
    encoding. *)
Module PyStr.

Definition LF : string := String (ascii_of_nat 10) "".

Definition of_bytes (bs : list nat) : string :=
  foldr (λ b s, String (ascii_of_nat b) s) "" bs.

(** The characters for which [str.isspace] holds, as UTF-8 sequences:
    U+0009..U+000D, U+001C..U+0020, U+0085, U+00A0, U+1680,
    U+2000..U+200A, U+2028, U+2029, U+202F, U+205F, U+3000. *)
Definition whitespace : list string :=
  (of_bytes <$> [[9%nat]; [10%nat]; [11%nat]; [12%nat]; [13%nat];
                 [28%nat]; [29%nat]; [30%nat]; [31%nat]; [32%nat];
                 [194; 133]%nat; [194; 160]%nat; [225; 154; 128]%nat])
  ++ ((λ b, of_bytes [226; 128; b]%nat) <$> seq 128 11)
  ++ (of_bytes <$> [[226; 128; 168]%nat; [226; 128; 169]%nat;
                    [226; 128; 175]%nat; [226; 129; 159]%nat;
                    [227; 128; 128]%nat]).

Fixpoint drop (n : nat) (s : string) : string :=
  match n, s with
  | S n', String _ s' => drop n' s'
  | _, _ => s
  end.

(** [s.startswith(p)] *)
Definition startswith (s p : string) : bool := String.prefix p s.

(** The length of the whitespace character [s] starts with, if any. *)
Definition leading_space (s : string) : option nat :=
  String.length <$> head (filter (λ ws, startswith s ws = true) whitespace).

Fixpoint lstrip_fuel (fuel : nat) (s : string) : string :=
  match fuel with
  | O => s
  | S fuel' =>
      match leading_space s with
      | Some n => lstrip_fuel fuel' (drop n s)
      | None => s
      end
  end.

Definition lstrip (s : string) : string := lstrip_fuel (String.length s) s.

(** Trailing whitespace is found on the reversed string, against the
    reversed encodings. *)
Definition trailing_space (r : string) : option nat :=
  String.length <$>
    head (filter (λ ws, startswith r (String.rev ws) = true) whitespace).

Fixpoint rstrip_fuel (fuel : nat) (r : string) : string :=
  match fuel with
  | O => r
  | S fuel' =>
      match trailing_space r with
      | Some n => rstrip_fuel fuel' (drop n r)
      | None => r
      end
  end.

Definition rstrip (s : string) : string :=
  String.rev (rstrip_fuel (String.length s) (String.rev s)).

(** [s.strip()] *)
Definition strip (s : string) : string := rstrip (lstrip s).

(** [s.partition(marker)[2]], when [marker] occurs in [s]. *)
Fixpoint find_after (marker s : string) : option string :=
  if startswith s marker then Some (drop (String.length marker) s)
  else match s with
       | String _ s' => find_after marker s'
       | EmptyString => None
       end.

(** [s.partition(marker)[0]], when [marker] occurs in [s]. *)
Fixpoint find_before (marker s : string) : option string :=
  if startswith s marker then Some ""
  else match s with
       | String c s' => String c <$> find_before marker s'
       | EmptyString => None
       end.

(** [sep.join(parts)] *)
Fixpoint join (sep : string) (parts : list string) : string :=
  match parts with
  | [] => ""
  | [p] => p
  | p :: rest => p +:+ sep +:+ join sep rest
  end.

End PyStr.

(** ** Exceptions and results

    An exception is known to the callbacks through [type(e).__name__] and
    [str(e)] only.  The values of this type stand for instances of
    [Exception], the class the handlers of the notebook catch. *)
Record Exn := mkExn { exn_type : string; exn_msg : string }.

Inductive py (A : Type) : Type :=
| Return (a : A)
| Raise (e : Exn).
Arguments Return {A} a.
Arguments Raise {A} e.

(** ** Cell 3 and cell 4: models, splitter parameters, prompt *)

Definition LLM_MODEL : string := "mistral:7b".
Definition EMBED_MODEL : string := "nomic-embed-text".

Record SplitterConfig := mkSplitter { chunk_size : nat; chunk_overlap : nat }.

(** [SPLITTER = RecursiveCharacterTextSplitter(chunk_size=512, chunk_overlap=64)] *)
Definition SPLITTER : SplitterConfig :=
  {| chunk_size := 512; chunk_overlap := 64 |}.

Module Prompt.
Import PyStr.

Definition FALLBACK : string :=
  "I don't know based on the provided website content.".

Definition INSTRUCTION : string :=
  "Use ONLY the context below to answer the question. "
  +:+ "If the answer is not in the context, reply exactly: ".

(** The three literal pieces of the template of [SAFE_PROMPT], around
    the placeholders [{context}] and [{question}]. *)
Definition before_context : string :=
  INSTRUCTION +:+ "'" +:+ FALLBACK +:+ "'" +:+ LF +:+ LF
  +:+ "Context:" +:+ LF.
Definition before_question : string := LF +:+ LF +:+ "Question: ".
Definition after_question : string := LF +:+ "Answer:".

(** [SAFE_PROMPT.format(context=..., question=...)] *)
Definition format (context question : string) : string :=
  before_context +:+ context +:+ before_question +:+ question
  +:+ after_question.

(** [s] occurs in [t]. *)
Definition occurs_in (s t : string) : Prop :=
  ∃ pre post, t = pre +:+ s +:+ post.

End Prompt.


(** ** Documents and chunks *)

(** A LangChain [Document]: the text of a page (or of a chunk of it) and
    its metadata mapping, which holds at least [source]. *)
Record Document := mkDoc {
  page_content : string;
  metadata : gmap string string
}.

Global Instance Document_eq_dec : EqDecision Document.
Proof. solve_decision. Defined.

(** ** The chunker *)
Module Chunker.

Section Windows.
Context {A : Type}.

(** Modelled from the spec: the window algorithm of the Chunker, which
    the notebook delegates to the [RecursiveCharacterTextSplitter]
    class of the LangChain library; that class is not part of the
    repository.  Windows of length [size] advance by [size - overlap]
    over the text; the window that reaches the end of the text is the
    last one and may be shorter.  [fuel] bounds the number of windows;
    the length of the text is always enough. *)
Fixpoint windows_fuel (fuel size overlap : nat) (t : list A)
  : list (list A) :=
  match fuel with
  | O => []
  | S fuel' =>
      if decide (length t ≤ size)%nat then [t]
      else take size t
             :: windows_fuel fuel' size overlap (drop (size - overlap) t)
  end.

(** An empty text has no chunk. *)
Definition windows (size overlap : nat) (t : list A) : list (list A) :=
  match t with
  | [] => []
  | _ :: _ => windows_fuel (length t) size overlap t
  end.

(** The non-overlapping portions of a sequence of chunks: the first
    chunk whole, every later chunk without its first [overlap] units. *)
Definition stitch (overlap : nat) (chunks : list (list A)) : list A :=
  match chunks with
  | [] => []
  | c :: rest => c ++ concat (drop overlap <$> rest)
  end.
End Windows.

(** Modelled from the spec: [split] on the text of one document, the
    place of [SPLITTER.split_text(text)]; the units of text are
    characters. *)
Definition split_text (cfg : SplitterConfig) (text : string) : list string :=
  string_of_list_ascii
    <$> windows (chunk_size cfg) (chunk_overlap cfg)
                (list_ascii_of_string text).

(** Modelled from the spec: [split(documents, chunkSize, overlap)], the
    place of [SPLITTER.split_documents(docs)].  Every chunk keeps the
    metadata of the document it was cut from; no chunk crosses a
    document. *)
Definition split_documents (cfg : SplitterConfig) (docs : list Document)
  : list Document :=
  d ← docs; (λ t, mkDoc t (metadata d)) <$> split_text cfg (page_content d).

End Chunker.

(** ** Collaborators

    The libraries and services the notebook calls.  Each is a parameter of
    the embedding; a call that may raise returns a [py] result. *)

(** The keyword arguments of [RecursiveUrlLoader(...)] that carry data;
    the [extractor] is always [bs4_extract]. *)
Record LoaderArgs := mkLoaderArgs {
  la_url : string;
  la_max_depth : Z;
  la_timeout : Z
}.

Record Collaborators := {
  (** embedding vectors *)
  Emb : Type;
  (** [RecursiveUrlLoader(url=, max_depth=, extractor=bs4_extract, timeout=).load()] *)
  loader_load : LoaderArgs → py (list Document);
  (** [RecursiveCharacterTextSplitter(...).split_documents(docs)] *)
  splitter_split : SplitterConfig → list Document → list Document;
  (** [OllamaEmbeddings(model=).embed_documents(texts)] *)
  embed_documents : string → list string → py (list Emb);
  (** the retriever's search, by search type and query: the positions of
      the stored entries it selects, best first *)
  retriever_search : string → string → list (Document * Emb) → py (list nat);
  (** [Ollama(model=).invoke(prompt)] *)
  llm_generate : string → string → py string
}.

(** ** Session state, vector store and world *)

(** One conversation turn: [(question, answer)]. *)
Definition Turn : Type := string * string.

(** What [make_qa_chain] assembles: the retriever over the vector store
    (a Chroma collection, known by its name), its search parameters, and
    the model of the LLM; the prompt is [SAFE_PROMPT]. *)
Record QAChain := mkChain {
  qa_collection : string;
  qa_search_type : string;
  qa_k : nat;
  qa_llm : string
}.

Global Instance QAChain_eq_dec : EqDecision QAChain.
Proof. solve_decision. Defined.

(** The [state] dict of a Gradio session.  It only ever holds the keys
    ["id"], ["qa_chain"] and ["history"]; a key that is absent is [None].
    ["history"] refers to a Python list object, by its location. *)
Record State := mkState {
  st_id : option string;
  st_qa_chain : option QAChain;
  st_history : option nat
}.

Definition empty_state : State := mkState None None None.

(** [ThreadPoolExecutor(max_workers=4)] *)
Record Executor := mkExecutor { max_workers : nat }.
Definition EXECUTOR : Executor := {| max_workers := 4 |}.

(** [gr.Slider(label="Crawl depth", value=2, minimum=1, maximum=3, step=1)] *)
Record Slider := mkSlider {
  sl_value : Z; sl_minimum : Z; sl_maximum : Z; sl_step : Z
}.
Definition depth_slider : Slider :=
  {| sl_value := 2; sl_minimum := 1; sl_maximum := 3; sl_step := 1 |}.

(** The values a slider can deliver to a callback. *)
Definition slider_admits (sl : Slider) (v : Z) : Prop :=
  sl_minimum sl ≤ v ≤ sl_maximum sl ∧ ((v - sl_minimum sl) mod sl_step sl = 0).

(** The default of the [depth] parameter of [crawl_website]. *)
Definition crawl_website_default_depth : Z := 2.

Definition PENDING : string := "⏳ …thinking…".
Definition CRAWL_FIRST : string := "⚠️ Crawl a website first.".
Definition WARN : string := "⚠️ ".

(** [f"⚠️ {type(e).__name__}: {e}"] *)
Definition error_text (e : Exn) : string :=
  WARN +:+ exn_type e +:+ ": " +:+ exn_msg e.

(** [str(uuid.uuid4())]: the [n]-th identifier drawn in the process.  Only
    the uniqueness of UUIDs is modelled. *)
Definition uuid4_str (n : N) : string := pretty n.

(** [f"session-{sid}"] *)
Definition collection_name (sid : string) : string := "session-" +:+ sid.

(** What a Chroma collection raises when it is handed an empty batch,
    and a batch that has not one embedding per text.  Both are
    [ValueError]s; the wording of the messages differs between versions
    of the library, and nothing depends on it. *)
Definition EMPTY_BATCH : Exn :=
  mkExn "ValueError" "Expected IDs to be a non-empty list, got 0 IDs".

Definition UNEQUAL_BATCH : Exn :=
  mkExn "ValueError" "Unequal lengths for fields: ids, embeddings".

Section Core.
Context (E : Collaborators).
Import PyStr.

(** A Chroma collection: the (chunk, embedding) pairs it retains, in
    insertion order. *)
Definition Collection : Type := list (Document * Emb E).

(** The process.  [chroma] is the in-memory Chroma client
    ([persist_directory=None]), holding collections by name; [heap]
    holds the Python list objects used as histories; [sessions] holds
    the [state] dict of every Gradio session ([gr.State({})]: a session
    that has not run a callback yet has the empty dict); [uuids] counts
    the UUIDs drawn.  [jobs] and [prompts] record, for the properties
    below, the qa-chain invocations submitted to [EXECUTOR] and the
    prompts sent to the LLM. *)
Record World := mkWorld {
  chroma : gmap string Collection;
  heap : gmap nat (list Turn);
  sessions : gmap nat State;
  uuids : N;
  jobs : list (QAChain * string);
  prompts : list string
}.

Definition init_world : World := mkWorld ∅ ∅ ∅ 0%N [] [].

Definition get_state (w : World) (s : nat) : State :=
  default empty_state (sessions w !! s).

Definition set_state (s : nat) (st : State) (w : World) : World :=
  mkWorld (chroma w) (heap w) (<[s := st]> (sessions w)) (uuids w)
          (jobs w) (prompts w).

Definition set_chroma (c : gmap string Collection) (w : World) : World :=
  mkWorld c (heap w) (sessions w) (uuids w) (jobs w) (prompts w).

Definition set_heap (h : gmap nat (list Turn)) (w : World) : World :=
  mkWorld (chroma w) h (sessions w) (uuids w) (jobs w) (prompts w).

(** The contents of the list object at [l]. *)
Definition contents (w : World) (l : nat) : list Turn :=
  default [] (heap w !! l).

(** A new list object [[]]. *)
Definition new_list (w : World) : nat * World :=
  let l := fresh (dom (heap w)) in (l, set_heap (<[l := []]> (heap w)) w).

(** The history of session [s], as the presentation layer reads it. *)
Definition history (w : World) (s : nat) : list Turn :=
  match st_history (get_state w s) with
  | Some l => contents w l
  | None => []
  end.

(** *** Cell 5: crawl, index, chain *)

(** [d.metadata["source"] = d.metadata.get("source", root_url)] *)
Definition set_source (root_url : string) (d : Document) : Document :=
  mkDoc (page_content d)
        (<["source" := default root_url (metadata d !! "source")]>
           (metadata d)).

Definition crawl_website (root_url : string) (depth : Z)
  : py (list Document) :=
  match loader_load E (mkLoaderArgs root_url depth 10) with
  | Raise e =>
      Raise (mkExn "RuntimeError" ("RecursiveUrlLoader failed: " +:+ exn_msg e))
  | Return docs => Return (set_source root_url <$> docs)
  end.

(** [add_texts], by which [from_documents] fills the collection: the
    texts are embedded, then the batch is handed to the collection.  The
    collection refuses an empty batch with a [ValueError], so chunks are
    added only when there is at least one.  It takes one embedding per
    text, which is what [embed_documents] is to return; a batch with
    another number of embeddings, which an embedder that keeps to its
    interface never hands over, is refused as well. *)
Definition add_texts (chunks : list Document) (coll : Collection)
  : py Collection :=
  match embed_documents E EMBED_MODEL (page_content <$> chunks) with
  | Raise e => Raise e
  | Return embs =>
      if decide (chunks = []) then Raise EMPTY_BATCH
      else if decide (length embs = length chunks) then
        Return (coll ++ zip chunks embs)
      else Raise UNEQUAL_BATCH
  end.

(** [Chroma.from_documents(chunks, embedding=EMBEDDER,
    collection_name=name, persist_directory=None)]: a vector store over
    the collection [name] of the in-memory client.  The client creates
    the collection when it has none of that name, and the embedded
    chunks are added to it; an exception of [add_texts] leaves
    [from_documents] after the collection was created.  The store is
    known by the name of its collection. *)
Definition Chroma_from_documents (chunks : list Document) (name : string)
    (client : gmap string Collection) : gmap string Collection * py string :=
  let coll := default [] (client !! name) in
  match add_texts chunks coll with
  | Raise e => (<[name := coll]> client, Raise e)
  | Return coll' => (<[name := coll']> client, Return name)
  end.

Definition build_vectorstore (docs : list Document) (sid : string)
    (client : gmap string Collection) : gmap string Collection * py string :=
  let chunks := splitter_split E SPLITTER docs in
  Chroma_from_documents chunks (collection_name sid) client.

Definition make_qa_chain (vstore : string) : QAChain :=
  {| qa_collection := vstore;
     qa_search_type := "mmr";
     qa_k := 4;
     qa_llm := LLM_MODEL |}.

(** [retriever.invoke(query)]: at most [k] entries of the collection, in
    the order the search ranks them. *)
Definition retrieve (chain : QAChain) (query : string)
    (client : gmap string Collection) : py (list Document) :=
  let coll := default [] (client !! qa_collection chain) in
  match retriever_search E (qa_search_type chain) query coll with
  | Raise e => Raise e
  | Return idxs =>
      Return (take (qa_k chain) (omap (λ i, fst <$> coll !! i) idxs))
  end.

(** The dict a [RetrievalQA] chain returns
    ([return_source_documents=True]). *)
Record QAResult := mkResult {
  result : string;
  source_documents : list Document
}.

(** The prompt of the "stuff" chain: the retrieved chunks, joined by a
    blank line, fill [{context}]. *)
Definition build_prompt (docs : list Document) (question : string) : string :=
  Prompt.format (join (LF +:+ LF) (page_content <$> docs)) question.

(** [chain.invoke({"query": query})], over the collections of the client:
    the prompts it sends to the LLM, and its result. *)
Definition qa_run (chain : QAChain) (query : string)
    (client : gmap string Collection) : list string * py QAResult :=
  match retrieve chain query client with
  | Raise e => ([], Raise e)
  | Return docs =>
      let prompt := build_prompt docs query in
      match llm_generate E (qa_llm chain) prompt with
      | Raise e => ([prompt], Raise e)
      | Return text => ([prompt], Return (mkResult text docs))
      end
  end.

Definition qa_invoke (chain : QAChain) (query : string) (w : World)
  : World * py QAResult :=
  let '(sent, res) := qa_run chain query (chroma w) in
  (mkWorld (chroma w) (heap w) (sessions w) (uuids w) (jobs w)
           (prompts w ++ sent), res).

(** The text that resolves a turn: [res["result"]], or the text of the
    handler [except Exception as e]. *)
Definition answer_text (res : py QAResult) : string :=
  match res with
  | Return r => result r
  | Raise e => error_text e
  end.

(** *** Cell 6: the Gradio callbacks *)

(** The URL [ingest_fn] crawls, from the stripped text of the URL box. *)
Definition with_scheme (url : string) : string :=
  if startswith url "http://" || startswith url "https://" then url
  else "https://" +:+ url.

(** [sid = state.setdefault("id", str(uuid.uuid4()))].  The default is
    evaluated before the call, so a UUID is drawn whether or not the key
    is there. *)
Definition setdefault_id (s : nat) (w : World) : string * World :=
  let st := get_state w s in
  let sid := default (uuid4_str (uuids w)) (st_id st) in
  let st1 := mkState (Some sid) (st_qa_chain st) (st_history st) in
  (sid, mkWorld (chroma w) (heap w) (<[s := st1]> (sessions w))
                (uuids w + 1)%N (jobs w) (prompts w)).

(** [ingest_fn(state, url, depth)] on the state of session [s].  The
    callback returns [state] itself, so the result is the new world and
    the status string, or the exception that leaves the callback. *)
Definition ingest_fn (s : nat) (url : string) (depth : Z) (w : World)
  : World * py string :=
  let url := strip url in
  if decide (url = "") then (w, Return "⚠️ Please enter a website URL.")
  else
    let url := with_scheme url in
    let '(sid, w1) := setdefault_id s w in
    match crawl_website url depth with
    | Raise e =>
        (w1, Return ("⚠️ Crawl failed: " +:+ exn_type e +:+ ": " +:+ exn_msg e))
    | Return docs =>
        if decide (docs = []) then
          (w1, Return "⚠️ Could not retrieve any pages.")
        else
          match build_vectorstore docs sid (chroma w1) with
          | (client, Raise e) => (set_chroma client w1, Raise e)
          | (client, Return vstore) =>
              let w2 := set_chroma client w1 in
              let '(l, w3) := new_list w2 in
              let st3 := mkState (Some sid) (Some (make_qa_chain vstore))
                                 (Some l) in
              (set_state s st3 w3,
               Return ("✅ Indexed " +:+ pretty (length docs)
                       +:+ " page(s) from " +:+ url +:+ ". Ask away!"))
          end
    end.

(** [clear_chat(state)] *)
Definition clear_chat (s : nat) (w : World) : World :=
  let st := get_state w s in
  let '(l, w1) := new_list w in
  set_state s (mkState (st_id st) (st_qa_chain st) (Some l)) w1.

(** [hist.append(turn)] *)
Definition list_append (l : nat) (turn : Turn) (w : World) : World :=
  set_heap (<[l := contents w l ++ [turn]]> (heap w)) w.

(** [chat_fn] is an asynchronous generator.  A call of it is a task that
    runs on the event loop between its suspension points: the two
    [yield]s and the [await] of the executor job. *)
Inductive Task : Type :=
| Start (s : nat) (user_msg : string)
    (** called, not yet running *)
| Pending (s : nat) (user_msg : string) (hist : nat)
    (** suspended at the [yield] that follows the pending turn *)
| Running (user_msg : string) (hist : nat) (chain : QAChain)
    (** suspended at the [await]; the job is with the executor *)
| Resumed (user_msg : string) (hist : nat) (answer : string)
    (** the job is done; the task is ready to resume *)
| Finished
| Crashed (e : Exn).

(** One uninterrupted run of a task, from one suspension point to the
    next.  The third component is what the task yields, if it does: the
    contents of [hist] at that moment. *)
Definition task_step (t : Task) (w : World)
  : World * Task * option (list Turn) :=
  match t with
  | Start s msg =>
      let user_msg := strip msg in
      let st := get_state w s in
      (* hist = state.get("history", []) *)
      let '(hist, w1) :=
        match st_history st with
        | Some l => (l, w)
        | None => new_list w
        end in
      if decide (user_msg = "") then
        (w1, Finished, Some (contents w1 hist))
      else
        match st_qa_chain st with
        | None =>
            let w2 := list_append hist (user_msg, CRAWL_FIRST) w1 in
            (w2, Finished, Some (contents w2 hist))
        | Some _ =>
            let w2 := list_append hist (user_msg, PENDING) w1 in
            (w2, Pending s user_msg hist, Some (contents w2 hist))
        end
  | Pending s user_msg hist =>
      (* state["qa_chain"].invoke is looked up when the task resumes *)
      match st_qa_chain (get_state w s) with
      | None =>
          (w, Resumed user_msg hist (error_text (mkExn "KeyError" "'qa_chain'")),
           None)
      | Some chain =>
          (mkWorld (chroma w) (heap w) (sessions w) (uuids w)
                   (jobs w ++ [(chain, user_msg)]) (prompts w),
           Running user_msg hist chain, None)
      end
  | Running user_msg hist chain =>
      let '(w1, res) := qa_invoke chain user_msg w in
      (w1, Resumed user_msg hist (answer_text res), None)
  | Resumed user_msg hist answer =>
      (* hist[-1] = (user_msg, answer) *)
      let h := contents w hist in
      if decide (h = []) then
        (w, Crashed (mkExn "IndexError" "list assignment index out of range"),
         None)
      else
        let h' := <[(length h - 1)%nat := (user_msg, answer)]> h in
        let w1 := set_heap (<[hist := h']> (heap w)) w in
        (w1, Finished, Some h')
  | Finished => (w, Finished, None)
  | Crashed e => (w, Crashed e, None)
  end.

(** The event loop with its tasks; [outputs] lists what the requesters
    have been shown so far, by task, oldest first. *)
Record Config := mkConfig {
  world : World;
  tasks : list Task;
  outputs : list (nat * list Turn)
}.

(** The event loop runs task [i] up to its next suspension point. *)
Definition step (c : Config) (i : nat) : Config :=
  match tasks c !! i with
  | None => c
  | Some t =>
      let '(w, t', out) := task_step t (world c) in
      mkConfig w (<[i := t']> (tasks c))
               (outputs c ++ (pair i <$> option_list out))
  end.

(** A schedule names the task to run at each turn of the loop. *)
Definition run (sched : list nat) (c : Config) : Config :=
  foldl step c sched.

(** What requester [i] has been shown, oldest first. *)
Definition shown (c : Config) (i : nat) : list (list Turn) :=
  snd <$> filter (λ o, fst o = i) (outputs c).

(** One question asked and awaited to its end, with nothing else
    running: the generator is driven until it is exhausted. *)
Definition chat_fn (s : nat) (user_msg : string) (w : World) : Config :=
  run [0; 0; 0; 0]%nat (mkConfig w [Start s user_msg] []).

(** Two questions in flight at once. *)
Definition chat_fn2 (s1 : nat) (msg1 : string) (s2 : nat) (msg2 : string)
    (w : World) : Config :=
  mkConfig w [Start s1 msg1; Start s2 msg2] [].

End Core.

Arguments mkWorld {E}.
Arguments init_world {E}.
Arguments chroma {E}.
Arguments heap {E}.
Arguments sessions {E}.
Arguments uuids {E}.
Arguments jobs {E}.
Arguments prompts {E}.
Arguments get_state {E}.
Arguments contents {E}.
Arguments history {E}.
Arguments world {E}.
Arguments tasks {E}.
Arguments outputs {E}.
Arguments shown {E}.
Arguments mkConfig {E}.

(** ** Worlds the callbacks can produce *)
Section Reachable.
Context (E : Collaborators).

(** What the presentation layer can do: run a callback of a session,
    submit a question, let the event loop run a task. *)
Inductive reachable : Config E → Prop :=
| reach_init :
    reachable (mkConfig init_world [] [])
| reach_ingest c s url depth :
    reachable c →
    reachable (mkConfig (ingest_fn E s url depth (world c)).1
                        (tasks c) (outputs c))
| reach_clear c s :
    reachable c →
    reachable (mkConfig (clear_chat E s (world c)) (tasks c) (outputs c))
| reach_ask c s user_msg :
    reachable c →
    reachable (mkConfig (world c) (tasks c ++ [Start s user_msg]) (outputs c))
| reach_step c i :
    reachable c →
    reachable (step E c i).

(** The sessions of a world are well formed: every identifier was drawn
    from [uuid4], no two sessions share an identifier or a history
    list, and the chain of a session is the one [make_qa_chain] builds
    over the collection named after the session. *)
Record wf_world (w : World E) : Prop := {
  wf_uuid : ∀ s st sid,
    sessions w !! s = Some st → st_id st = Some sid →
    ∃ n, (n < uuids w)%N ∧ sid = uuid4_str n;
  wf_id_inj : ∀ s s' st st' sid,
    sessions w !! s = Some st → sessions w !! s' = Some st' →
    st_id st = Some sid → st_id st' = Some sid → s = s';
  wf_chain : ∀ s st chain,
    sessions w !! s = Some st → st_qa_chain st = Some chain →
    ∃ sid, st_id st = Some sid
           ∧ chain = make_qa_chain (collection_name sid)
           ∧ is_Some (st_history st);
  wf_hist_dom : ∀ s st l,
    sessions w !! s = Some st → st_history st = Some l →
    l ∈ dom (heap w);
  wf_hist_inj : ∀ s s' st st' l,
    sessions w !! s = Some st → sessions w !! s' = Some st' →
    st_history st = Some l → st_history st' = Some l → s = s'
}.

(** How often the schedule runs task [i]. *)
Definition turns_of (sched : list nat) (i : nat) : nat :=
  length (filter (λ j, j = i) sched).

(** A schedule that lets task [i] run to its end: [chat_fn] has four
    stretches of code between suspension points. *)
Definition completes (sched : list nat) (i : nat) : Prop :=
  (4 ≤ turns_of sched i)%nat.

End Reachable.

Arguments reachable {E}.
Arguments wf_world {E}.

(** ** A stub generation collaborator, and a small web *)
Module Stub.
Import PyStr.

(** The sentence a prompt tells the model to reply with: the text
    quoted after "reply exactly: ". *)
Definition quoted_reply (prompt : string) : option string :=
  find_after "reply exactly: '" prompt ≫= find_before ("'" +:+ LF).

(** A model that follows the instruction of the prompt.  [finds] is the
    answer it reads off the prompt's context, if the context has one;
    without one it echoes the sentence the prompt dictates. *)
Definition obedient_llm (finds : string → option string)
    (model prompt : string) : py string :=
  match finds prompt with
  | Some a => Return a
  | None =>
      match quoted_reply prompt with
      | Some sentence => Return sentence
      | None => Raise (mkExn "ValueError" "no instruction in prompt")
      end
  end.

(** The question a prompt carries. *)
Definition question_of (prompt : string) : string :=
  default "" (find_after "Question: " prompt ≫= find_before (LF +:+ "Answer:")).

(** A model that answers every prompt. *)
Definition chatty_llm (model prompt : string) : py string :=
  Return ("re: " +:+ question_of prompt).

(** A model whose server is down. *)
Definition dead_llm (model prompt : string) : py string :=
  Raise (mkExn "ConnectionError" "ollama is not running").

Definition page (url text : string) : Document :=
  mkDoc text {["source" := url]}.

Definition web (args : LoaderArgs) : py (list Document) :=
  if decide (la_url args = "https://a.example") then
    Return [page "https://a.example" "alpha"]
  else if decide (la_url args = "https://b.example") then
    Return [page "https://b.example" "beta"]
  else if decide (la_url args = "https://empty.example") then
    Return []
  else Raise (mkExn "ConnectionError" "unreachable").

(** Collaborators over the small web: the window chunker, an embedding
    that measures the text, a search that ranks entries in insertion
    order, and the given model. *)
Definition env (llm : string → string → py string) : Collaborators :=
  {| Emb := nat;
     loader_load := web;
     splitter_split := Chunker.split_documents;
     embed_documents := λ _ texts, Return (String.length <$> texts);
     retriever_search := λ _ _ coll, Return (seq 0 (length coll));
     llm_generate := llm |}.

(** [E] with another model. *)
Definition with_llm (E : Collaborators) (llm : string → string → py string)
  : Collaborators :=
  {| Emb := Emb E;
     loader_load := loader_load E;
     splitter_split := splitter_split E;
     embed_documents := embed_documents E;
     retriever_search := retriever_search E;
     llm_generate := llm |}.

(** [E] with another loader. *)
Definition with_loader (E : Collaborators)
    (load : LoaderArgs → py (list Document)) : Collaborators :=
  {| Emb := Emb E;
     loader_load := load;
     splitter_split := splitter_split E;
     embed_documents := embed_documents E;
     retriever_search := retriever_search E;
     llm_generate := llm_generate E |}.

(** A network on which every request fails. *)
Definition offline (url : string) : py string :=
  Raise (mkExn "ConnectionError" "unreachable").

(** [RecursiveUrlLoader(url, max_depth, extractor, timeout).load()] the
    way [crawl_website] sets the loader up: [continue_on_failure] is not
    passed, and the default of the library is [True], so a page whose
    request raises is logged and skipped, the root page as any other.
    [fetch] is the request for one page; of the crawl only the root page
    is modelled. *)
Definition skipping_loader (fetch : string → py string) (args : LoaderArgs)
  : py (list Document) :=
  match fetch (la_url args) with
  | Return text => Return [page (la_url args) text]
  | Raise _ => Return []
  end.

(** A loader that refuses a URL without a scheme, as [requests] does, and
    otherwise loads from [web]. *)
Definition strict_web (args : LoaderArgs) : py (list Document) :=
  if startswith (la_url args) "http://" || startswith (la_url args) "https://"
  then web args
  else Raise (mkExn "MissingSchema" "Invalid URL: No scheme supplied").

(** A site whose only page has no text. *)
Definition blank_site (args : LoaderArgs) : py (list Document) :=
  Return [page (la_url args) ""].

End Stub.

(** The world [w], seen by the callbacks of [E] with another loader:
    the loader is no part of the world. *)
Definition with_loader_world {E : Collaborators}
    (load : LoaderArgs → py (list Document)) (w : World E)
  : World (Stub.with_loader E load) :=
  mkWorld (E := Stub.with_loader E load) (chroma w) (heap w) (sessions w)
          (uuids w) (jobs w) (prompts w).

(** ** The course of one question

    A call of [chat_fn] for the question [raw] on session [s], whose
    stripped text is [m], on a session that has a chain and whose history
    list [l] holds [h] when the call starts.  After [p] stretches of code
    the task, the list and what the requester has been shown are as
    follows; [a] is the text that resolves the turn. *)
Definition ask_task (s : nat) (raw m : string) (l : nat) (chain : QAChain)
    (a : string) (p : nat) : Task :=
  match p with
  | 0%nat => Start s raw
  | 1%nat => Pending s m l
  | 2%nat => Running m l chain
  | 3%nat => Resumed m l a
  | _ => Finished
  end.

Definition ask_hist (h : list Turn) (m a : string) (p : nat) : list Turn :=
  match p with
  | 0%nat => h
  | 1%nat | 2%nat | 3%nat => h ++ [(m, PENDING)]
  | _ => h ++ [(m, a)]
  end.

Definition ask_shown (h : list Turn) (m a : string) (p : nat)
  : list (list Turn) :=
  match p with
  | 0%nat => []
  | 1%nat | 2%nat | 3%nat => [h ++ [(m, PENDING)]]
  | _ => [h ++ [(m, PENDING)]; h ++ [(m, a)]]
  end.

(** The part of the world [w0] that the tasks of a run leave alone. *)
Definition same_sessions {E} (w0 : World E) (c : Config E) : Prop :=
  sessions (world c) = sessions w0 ∧ chroma (world c) = chroma w0.

(** Task [i] of [c] is the question [raw] on session [s] of [w0], [p]
    stretches of code into its course. *)
Definition on_track {E} (w0 : World E) (s : nat) (raw : string)
    (chain : QAChain) (l : nat) (c : Config E) (i p : nat) : Prop :=
  let m := PyStr.strip raw in
  let h := contents w0 l in
  let a := answer_text (qa_run E chain m (chroma w0)).2 in
  tasks c !! i = Some (ask_task s raw m l chain a p)
  ∧ contents (world c) l = ask_hist h m a p
  ∧ shown c i = ask_shown h m a p.

(** An ingest succeeded when it does not raise and reports
    "✅ Indexed ...". *)
Definition indexed (r : py string) : bool :=
  match r with
  | Return status => PyStr.startswith status "✅"
  | Raise _ => false
  end.

(** ** Cell 3: waiting for the Ollama server *)

(** One [requests.get("http://localhost:11434")]: a response, with its
    [.ok], or an exception. *)
Inductive Probe : Type :=
| Responds (ok : bool)
| Unreachable.

Global Instance Probe_eq_dec : EqDecision Probe.
Proof. solve_decision. Defined.

(** The loop [for _ in range(20): try: if requests.get(...).ok: break;
    except: time.sleep(1); else: raise RuntimeError(...)], from its
    attempt [i] on, with [n] attempts left.  [probe j] is what attempt
    [j] meets.  The result is how the loop ends, the number of requests
    made and the number of one-second sleeps. *)
Fixpoint wait_loop (probe : nat → Probe) (i n sleeps : nat)
  : py unit * nat * nat :=
  match n with
  | O => (Raise (mkExn "RuntimeError" "❌ Ollama failed to start."), i, sleeps)
  | S n' =>
      match probe i with
      | Responds true => (Return tt, S i, sleeps)
      | Responds false => wait_loop probe (S i) n' sleeps
      | Unreachable => wait_loop probe (S i) n' (S sleeps)
      end
  end.

Definition wait_for_ollama (probe : nat → Probe) : py unit * nat * nat :=
  wait_loop probe 0 20 0.

(** The attempts before attempt [i] that met an exception. *)
Definition failures_before (probe : nat → Probe) (i : nat) : nat :=
  length (filter (λ j, probe j = Unreachable) (seq 0 i)).

(** ** Runs of callbacks *)

(** The questions [msgs] asked on session [s] one after the other, each
    awaited to its end. *)
Definition ask_all (E : Collaborators) (s : nat) (msgs : list string)
    (w : World E) : World E :=
  foldl (λ w msg, world (chat_fn E s msg w)) w msgs.

(** [clear_chat] runs while the tasks of [c] are suspended. *)
Definition clear_during {E} (s : nat) (c : Config E) : Config E :=
  mkConfig (clear_chat E s (world c)) (tasks c) (outputs c).

(** [ingest_fn] runs while the tasks of [c] are suspended. *)
Definition ingest_during {E} (s : nat) (url : string) (depth : Z)
    (c : Config E) : Config E :=
  mkConfig (ingest_fn E s url depth (world c)).1 (tasks c) (outputs c).

(** A suspended task can go on: the list it holds is not empty, and the
    session of a task that is about to submit its job has a chain. *)
Definition task_ok {E} (w : World E) (t : Task) : Prop :=
  match t with
  | Start _ _ | Finished => True
  | Pending s _ l => is_Some (st_qa_chain (get_state w s)) ∧ contents w l ≠ []
  | Running _ l _ | Resumed _ l _ => contents w l ≠ []
  | Crashed _ => False
  end.

(** The collections of the vector store and the sessions: every
    collection is named after a UUID that was drawn, and the collection
    of a session that has an identifier but no chain yet is absent or
    empty. *)
Record wf_chroma {E} (w : World E) : Prop := {
  wf_names : ∀ name,
    is_Some (chroma w !! name) →
    ∃ n, (n < uuids w)%N ∧ name = collection_name (uuid4_str n);
  wf_unindexed : ∀ s st sid,
    sessions w !! s = Some st → st_id st = Some sid →
    st_qa_chain st = None →
    default [] (chroma w !! collection_name sid) = []
}.

(** [E] with an embedding service that is down. *)
Definition without_embedder (E : Collaborators) : Collaborators :=
  {| Emb := Emb E;
     loader_load := loader_load E;
     splitter_split := splitter_split E;
     embed_documents := λ _ _, Raise (mkExn "ConnectionError" "embedding service is down");
     retriever_search := retriever_search E;
     llm_generate := llm_generate E |}.

(** ** The updates a call of [chat_fn] shows

    [chat_fn] has two [yield]s on the path of a question that is
    answered and one [yield] on each path that returns early.  A task
    still has at most [yields_left] of them before it, and has passed at
    least [yields_made] of them. *)
Definition yields_left (t : Task) : nat :=
  match t with
  | Start _ _ => 2
  | Pending _ _ _ | Running _ _ _ | Resumed _ _ _ => 1
  | Finished | Crashed _ => 0
  end.

Definition yields_made (t : Task) : nat :=
  match t with
  | Start _ _ => 0
  | Pending _ _ _ | Running _ _ _ | Resumed _ _ _ | Finished | Crashed _ => 1
  end.

(** * Properties *)

(** ** The chunker *)
Module ChunkerFacts.
Import Chunker.

Section Windows.
Context {A : Type} (size overlap : nat).
Hypothesis Hparams : (overlap < size)%nat.
Implicit Types t c : list A.

Local Abbreviation stride := (size - overlap)%nat.

Lemma drop_stride_nonempty t :
  (size < length t)%nat → drop stride t ≠ [].
Proof using Hparams.
  intros Hgt Hnil. apply (f_equal length) in Hnil.
  rewrite length_drop in Hnil. simpl in Hnil. lia.
Qed.

Lemma windows_fuel_irrel fuel1 fuel2 t :
  t ≠ [] → (length t ≤ fuel1)%nat → (length t ≤ fuel2)%nat →
  windows_fuel fuel1 size overlap t = windows_fuel fuel2 size overlap t.
Proof using Hparams.
  revert fuel2 t. induction fuel1 as [|fuel1 IH]; intros fuel2 t Hne H1 H2.
  { destruct t; simpl in *; [done | lia]. }
  destruct fuel2 as [|fuel2].
  { destruct t; simpl in *; [done | lia]. }
  cbn [windows_fuel].
  destruct (decide (length t ≤ size)%nat) as [Hle|Hgt]; [done|].
  f_equal. apply IH.
  - apply drop_stride_nonempty. lia.
  - rewrite length_drop. lia.
  - rewrite length_drop. lia.
Qed.

(** More fuel than the length of the text changes nothing. *)
Lemma windows_fuel_enough fuel t :
  t ≠ [] → (length t ≤ fuel)%nat →
  windows_fuel fuel size overlap t = windows size overlap t.
Proof using Hparams.
  intros Hne Hlen. destruct t as [|a t]; [done|].
  cbn [windows]. by apply windows_fuel_irrel.
Qed.

Lemma windows_nil : windows size overlap (@nil A) = [].
Proof. done. Qed.

Lemma windows_short t :
  t ≠ [] → (length t ≤ size)%nat → windows size overlap t = [t].
Proof.
  intros Hne Hle. destruct t as [|a t]; [done|].
  cbn [windows length windows_fuel]. by rewrite decide_True.
Qed.

Lemma windows_long t :
  (size < length t)%nat →
  windows size overlap t
  = take size t :: windows size overlap (drop stride t).
Proof using Hparams.
  intros Hgt.
  destruct t as [|a t]; [simpl in Hgt; lia|].
  cbn [windows length windows_fuel].
  rewrite decide_False by (cbn [length] in *; lia).
  f_equal. apply windows_fuel_enough.
  - apply drop_stride_nonempty. cbn [length] in *. lia.
  - rewrite length_drop. cbn [length]. lia.
Qed.

(** Induction on texts that follows the chunker. *)
Lemma windows_ind (P : list A → Prop) :
  P [] →
  (∀ t, t ≠ [] → (length t ≤ size)%nat → P t) →
  (∀ t, (size < length t)%nat → P (drop stride t) → P t) →
  ∀ t, P t.
Proof using Hparams.
  intros Hnil Hshort Hlong t.
  induction (Nat.lt_wf_0_projected length t) as [t _ IH].
  destruct (decide (length t ≤ size)%nat) as [Hle|Hgt].
  - destruct t; [done|]. by apply Hshort.
  - apply Hlong; [lia|]. apply IH. rewrite length_drop. lia.
Qed.

(** The [i]-th chunk is the window of [size] units at offset
    [i * stride]. *)
Lemma windows_lookup t i c :
  windows size overlap t !! i = Some c →
  c = take size (drop (i * stride) t).
Proof using Hparams.
  revert i. induction t as [|t Hne Hle|t Hgt IH] using windows_ind;
    intros i Hi.
  - by rewrite windows_nil in Hi.
  - rewrite windows_short in Hi by done.
    destruct i as [|i]; [|by destruct i].
    simplify_eq/=. by rewrite take_ge.
  - rewrite windows_long in Hi by done.
    destruct i as [|i]; simplify_eq/=; try done.
    rewrite (IH _ Hi), drop_drop. do 2 f_equal; lia.
Qed.

(** A chunk that has a successor lies more than [size] units before the
    end of the text. *)
Lemma windows_lookup_succ t i c :
  windows size overlap t !! S i = Some c →
  (size < length (drop (i * stride) t))%nat.
Proof using Hparams.
  revert i. induction t as [|t Hne Hle|t Hgt IH] using windows_ind;
    intros i Hi.
  - by rewrite windows_nil in Hi.
  - rewrite windows_short in Hi by done. by destruct i.
  - rewrite windows_long in Hi by done. cbn in Hi.
    destruct i as [|i]; [by rewrite drop_0|].
    apply IH in Hi. rewrite drop_drop in Hi.
    by replace (S i * stride)%nat with (stride + i * stride)%nat by lia.
Qed.

Lemma windows_nonempty_chunks t i c :
  windows size overlap t !! i = Some c → c ≠ [].
Proof using Hparams.
  revert i. induction t as [|t Hne Hle|t Hgt IH] using windows_ind;
    intros i Hi.
  - by rewrite windows_nil in Hi.
  - rewrite windows_short in Hi by done.
    destruct i as [|i]; [|by destruct i]. by simplify_eq/=.
  - rewrite windows_long in Hi by done.
    destruct i as [|i]; simplify_eq/=; [|by eapply IH].
    intros Hnil. apply (f_equal length) in Hnil.
    rewrite length_take in Hnil. simpl in Hnil. lia.
Qed.

(** The non-overlapping portions put together give the text back. *)
Lemma stitch_windows t : stitch overlap (windows size overlap t) = t.
Proof using Hparams.
  induction t as [|t Hne Hle|t Hgt IH] using windows_ind.
  - done.
  - rewrite windows_short by done. simpl. by rewrite app_nil_r.
  - rewrite windows_long by done. cbn [stitch].
    rewrite <-(take_drop size t) at 3. f_equal.
    assert (overlap < length (drop stride t))%nat as Hrest
      by (rewrite length_drop; lia).
    destruct (windows size overlap (drop stride t)) as [|c rest] eqn:Hws.
    { simpl in IH. rewrite <-IH in Hrest. simpl in Hrest. lia. }
    assert (overlap ≤ length c)%nat as Hc.
    { pose proof (windows_lookup (drop stride t) 0 c) as Hl.
      rewrite Hws in Hl. specialize (Hl eq_refl). rewrite drop_0 in Hl.
      subst c. rewrite length_take. lia. }
    cbn [stitch] in IH. cbn [fmap list_fmap concat].
    rewrite <-drop_app_le by done. fold (fmap (M:=list) (drop (A:=A) overlap)).
    rewrite IH, drop_drop. f_equal. lia.
Qed.

(** A chunk that has a successor is a full window, and its last
    [overlap] units are the first [overlap] units of the successor. *)
Lemma windows_overlap t i c1 c2 :
  windows size overlap t !! i = Some c1 →
  windows size overlap t !! S i = Some c2 →
  length c1 = size
  ∧ drop stride c1 = take overlap c2
  ∧ length (take overlap c2) = overlap.
Proof using Hparams.
  intros H1 H2.
  pose proof (windows_lookup_succ _ _ _ H2) as Hlen.
  apply windows_lookup in H1 as ->. apply windows_lookup in H2 as ->.
  rewrite length_drop in Hlen.
  split_and!.
  - rewrite length_take, length_drop. lia.
  - rewrite take_take, Nat.min_l by lia.
    replace (S i * stride)%nat with (i * stride + stride)%nat by lia.
    rewrite <-drop_drop.
    rewrite (take_drop_commute (drop (i * stride) t) overlap stride).
    by replace (stride + overlap)%nat with size by lia.
  - rewrite take_take, Nat.min_l by lia.
    rewrite length_take, length_drop. lia.
Qed.

End Windows.

Lemma chars_of_split_text cfg text :
  list_ascii_of_string <$> split_text cfg text
  = windows (chunk_size cfg) (chunk_overlap cfg) (list_ascii_of_string text).
Proof.
  unfold split_text. rewrite <-list_fmap_compose.
  rewrite <-(list_fmap_id (windows _ _ _)) at 2.
  apply list_fmap_ext. intros _ c _. simpl.
  apply list_ascii_of_string_of_list_ascii.
Qed.

End ChunkerFacts.

(** C5.  For every document and every configuration with
    [0 ≤ overlap < chunkSize], measured in characters: the [i]-th chunk
    is the window of [chunkSize] characters at offset
    [i * (chunkSize - overlap)], it is full unless it is the last chunk,
    which may be shorter; two consecutive chunks share exactly [overlap]
    characters; and the first chunk followed by the later chunks without
    their first [overlap] characters is the text of the document.  The
    chunker is the window algorithm of the specification. *)
Theorem chunking_windows_overlap_reconstruct (cfg : SplitterConfig) (d : Document) :
  (0 ≤ chunk_overlap cfg < chunk_size cfg)%nat →
  let size := chunk_size cfg in
  let overlap := chunk_overlap cfg in
  let text := list_ascii_of_string (page_content d) in
  let chunks := list_ascii_of_string <$> Chunker.split_text cfg (page_content d) in
  (∀ i c, chunks !! i = Some c →
     c = take size (drop (i * (size - overlap)) text)
     ∧ (0 < length c ≤ size)%nat
     ∧ ((S i < length chunks)%nat → length c = size))
  ∧ (∀ i c1 c2, chunks !! i = Some c1 → chunks !! S i = Some c2 →
       drop (size - overlap) c1 = take overlap c2
       ∧ length (take overlap c2) = overlap)
  ∧ string_of_list_ascii (Chunker.stitch overlap chunks) = page_content d
  ∧ Chunker.split_documents cfg [d]
    = (λ t, mkDoc t (metadata d)) <$> Chunker.split_text cfg (page_content d).
Proof.
  intros [_ Hparams] size overlap text chunks.
  assert (chunks = Chunker.windows size overlap text) as Hchunks
    by apply ChunkerFacts.chars_of_split_text.
  split_and!.
  - intros i c Hi. rewrite Hchunks in Hi |- *.
    pose proof (ChunkerFacts.windows_lookup _ _ Hparams _ _ _ Hi) as Hc.
    pose proof (ChunkerFacts.windows_nonempty_chunks _ _ Hparams _ _ _ Hi) as Hne.
    split; [done | split].
    + split; [destruct c; [done | simpl; lia]|].
      rewrite Hc, length_take. lia.
    + intros Hlast. apply lookup_lt_is_Some_2 in Hlast as [c2 H2].
      by destruct (ChunkerFacts.windows_overlap _ _ Hparams _ _ _ _ Hi H2).
  - intros i c1 c2 H1 H2. rewrite Hchunks in H1, H2.
    by destruct (ChunkerFacts.windows_overlap _ _ Hparams _ _ _ _ H1 H2) as (_ & ? & ?).
  - rewrite Hchunks, ChunkerFacts.stitch_windows by done.
    apply string_of_list_ascii_of_string.
  - unfold Chunker.split_documents. simpl. by rewrite app_nil_r.
Qed.

Lemma chunking_windows_overlap_reconstruct_witness :
  (0 ≤ chunk_overlap SPLITTER < chunk_size SPLITTER)%nat
  ∧ string_of_list_ascii
      (Chunker.stitch (chunk_overlap SPLITTER)
         (list_ascii_of_string
            <$> Chunker.split_text SPLITTER
                  (page_content (Stub.page "https://a.example" "alpha"))))
    = "alpha".
Proof.
  split; [simpl; lia|].
  pose proof (chunking_windows_overlap_reconstruct SPLITTER
                (Stub.page "https://a.example" "alpha")) as H.
  destruct H as (_ & _ & H & _); [simpl; lia|]. exact H.
Defined.

(** ** Strings and the prompt *)
Module StringFacts.
Import PyStr Prompt.

Lemma app_nil_r s : s +:+ "" = s.
Proof.
  induction s as [|a s IH]; [done|].
  change (String a (s +:+ "") = String a s). by f_equal.
Qed.

Lemma app_assoc s1 s2 s3 : (s1 +:+ s2) +:+ s3 = s1 +:+ s2 +:+ s3.
Proof.
  induction s1 as [|a s1 IH]; [done|].
  change (String a ((s1 +:+ s2) +:+ s3) = String a (s1 +:+ s2 +:+ s3)).
  by f_equal.
Qed.

Lemma occurs_in_refl s : occurs_in s s.
Proof. exists "", "". change ("" +:+ s +:+ "") with (s +:+ ""). by rewrite app_nil_r. Qed.

Lemma occurs_in_app_l s t u : occurs_in s t → occurs_in s (u +:+ t).
Proof.
  intros (pre & post & ->). exists (u +:+ pre), post.
  by rewrite app_assoc.
Qed.

Lemma occurs_in_app_r s t u : occurs_in s t → occurs_in s (t +:+ u).
Proof.
  intros (pre & post & ->). exists pre, (post +:+ u).
  by rewrite !app_assoc.
Qed.

Lemma occurs_in_trans s t u : occurs_in s t → occurs_in t u → occurs_in s u.
Proof.
  intros Hst (pre & post & ->).
  by apply occurs_in_app_l, occurs_in_app_r.
Qed.

(** Every part occurs in the joined text. *)
Lemma join_occurs sep parts p : p ∈ parts → occurs_in p (join sep parts).
Proof.
  induction parts as [|p0 rest IH]; intros Hin; [by apply elem_of_nil in Hin|].
  apply elem_of_cons in Hin as [->|Hin].
  - destruct rest as [|p1 rest]; [apply occurs_in_refl|].
    change (join sep (p0 :: p1 :: rest))
      with (p0 +:+ sep +:+ join sep (p1 :: rest)).
    apply occurs_in_app_r, occurs_in_refl.
  - destruct rest as [|p1 rest]; [by apply elem_of_nil in Hin|].
    change (join sep (p0 :: p1 :: rest))
      with (p0 +:+ sep +:+ join sep (p1 :: rest)).
    by apply occurs_in_app_l, occurs_in_app_l, IH.
Qed.

Lemma context_occurs context question : occurs_in context (format context question).
Proof. unfold format. apply occurs_in_app_l, occurs_in_app_r, occurs_in_refl. Qed.

Lemma question_occurs context question :
  occurs_in question (format context question).
Proof.
  unfold format.
  apply occurs_in_app_l, occurs_in_app_l, occurs_in_app_l, occurs_in_app_r,
    occurs_in_refl.
Qed.

(** Whatever the context and the question, the prompt opens with the
    instruction and the quoted fallback sentence. *)
Lemma format_opening context question :
  startswith (format context question)
    ("Use ONLY the context below to answer the question. "
     +:+ "If the answer is not in the context, reply exactly: "
     +:+ "'I don't know based on the provided website content.'") = true.
Proof. reflexivity. Qed.

Lemma quoted_reply_format context question :
  Stub.quoted_reply (format context question) = Some FALLBACK.
Proof. reflexivity. Qed.

End StringFacts.

(** C7.  Whenever the retriever hands chunks to the chain, exactly one
    prompt goes to the generation collaborator.  It carries every
    retrieved chunk in its context and the literal question, and it opens
    with the instruction to use only that context and to reply exactly
    "I don't know based on the provided website content." otherwise.
    With a collaborator that follows the instruction and finds no answer
    in the context, the answer is exactly that sentence. *)
Theorem prompt_grounds_answer_with_fallback (E : Collaborators)
    (chain : QAChain) (question : string)
    (client : gmap string (Collection E)) (docs : list Document) :
  retrieve E chain question client = Return docs →
  let context := PyStr.join (PyStr.LF +:+ PyStr.LF) (page_content <$> docs) in
  let prompt := Prompt.format context question in
  (qa_run E chain question client).1 = [prompt]
  ∧ (∀ d, d ∈ docs → Prompt.occurs_in (page_content d) prompt)
  ∧ Prompt.occurs_in ("Context:" +:+ PyStr.LF +:+ context) prompt
  ∧ Prompt.occurs_in ("Question: " +:+ question) prompt
  ∧ PyStr.startswith prompt
      ("Use ONLY the context below to answer the question. "
       +:+ "If the answer is not in the context, reply exactly: "
       +:+ "'I don't know based on the provided website content.'") = true
  ∧ (∀ finds, finds prompt = None →
       ∃ r, qa_run (Stub.with_llm E (Stub.obedient_llm finds)) chain question
                   client = ([prompt], Return r)
            ∧ result r = "I don't know based on the provided website content."
            ∧ source_documents r = docs).
Proof.
  intros Hret context prompt. split_and!.
  - unfold qa_run. rewrite Hret. fold context. unfold build_prompt.
    fold context prompt. by destruct (llm_generate E (qa_llm chain) prompt).
  - intros d Hd. eapply StringFacts.occurs_in_trans;
      [|apply StringFacts.context_occurs].
    apply StringFacts.join_occurs. by apply list_elem_of_fmap_2.
  - unfold prompt, Prompt.format.
    exists (Prompt.INSTRUCTION +:+ "'" +:+ Prompt.FALLBACK +:+ "'"
            +:+ PyStr.LF +:+ PyStr.LF),
           (Prompt.before_question +:+ question +:+ Prompt.after_question).
    reflexivity.
  - unfold prompt, Prompt.format.
    do 2 apply StringFacts.occurs_in_app_l.
    exists (PyStr.LF +:+ PyStr.LF), Prompt.after_question. reflexivity.
  - apply StringFacts.format_opening.
  - intros finds Hfinds.
    exists (mkResult Prompt.FALLBACK docs). split_and!; [|reflexivity..].
    unfold qa_run.
    change (retrieve (Stub.with_llm E (Stub.obedient_llm finds)) chain question client)
      with (retrieve E chain question client).
    rewrite Hret. unfold build_prompt. fold context prompt.
    cbn [llm_generate Stub.with_llm]. unfold Stub.obedient_llm.
    rewrite Hfinds. unfold prompt at 1.
    rewrite StringFacts.quoted_reply_format. reflexivity.
Qed.

Lemma prompt_grounds_answer_with_fallback_witness :
  let E := Stub.env (Stub.obedient_llm (λ _, None)) in
  let client : gmap string (Collection E) :=
    {[ "session-0" := [(Stub.page "https://a.example" "alpha", 5%nat)] ]} in
  retrieve E (make_qa_chain "session-0") "What is beta?" client
  = Return [Stub.page "https://a.example" "alpha"]
  ∧ answer_text (qa_run E (make_qa_chain "session-0") "What is beta?" client).2
    = "I don't know based on the provided website content.".
Proof.
  intros E client.
  assert (retrieve E (make_qa_chain "session-0") "What is beta?" client
          = Return [Stub.page "https://a.example" "alpha"]) as Hret
    by (vm_compute; reflexivity).
  split; [exact Hret|].
  destruct (prompt_grounds_answer_with_fallback E _ _ _ _ Hret)
    as (_ & _ & _ & _ & _ & Hstub).
  destruct (Hstub (λ _, None) eq_refl) as (r & Hrun & Hres & _).
  change (Stub.with_llm E (Stub.obedient_llm (λ _, None))) with E in Hrun.
  rewrite Hrun. exact Hres.
Defined.

(** ** Configuration *)

Lemma retrieve_at_most_k (E : Collaborators) chain query
    (client : gmap string (Collection E)) docs :
  retrieve E chain query client = Return docs →
  (length docs ≤ qa_k chain)%nat.
Proof.
  unfold retrieve.
  destruct (retriever_search E _ _ _) as [idxs|e]; [|done].
  intros [= <-]. rewrite length_take. lia.
Qed.

(** C9.  The values the core is configured with.  The splitter cuts with
    [chunk_size] 512 and [chunk_overlap] 64, and the index is built from
    its chunks; every chain searches by "mmr" with [k] 4 and so hands at
    most 4 chunks to the prompt; the executor has 4 workers; the crawl
    depth defaults to 2 and the depth slider delivers no more than 3; the
    loader is called with the depth of the request and a timeout of 10,
    and with nothing else of the loader does the crawl depend. *)
Theorem configuration_values :
  chunk_size SPLITTER = 512%nat
  ∧ chunk_overlap SPLITTER = 64%nat
  ∧ (∀ E docs sid client,
       build_vectorstore E docs sid client
       = Chroma_from_documents E
           (splitter_split E (mkSplitter 512 64) docs) (collection_name sid) client)
  ∧ (∀ vstore, qa_search_type (make_qa_chain vstore) = "mmr"
               ∧ qa_k (make_qa_chain vstore) = 4%nat)
  ∧ (∀ E vstore query (client : gmap string (Collection E)) docs,
       retrieve E (make_qa_chain vstore) query client = Return docs →
       (length docs ≤ 4)%nat)
  ∧ max_workers EXECUTOR = 4%nat
  ∧ crawl_website_default_depth = 2
  ∧ sl_value depth_slider = 2
  ∧ sl_maximum depth_slider = 3
  ∧ (∀ depth, slider_admits depth_slider depth ↔ depth = 1 ∨ depth = 2 ∨ depth = 3)
  ∧ (∀ E1 E2 url depth,
       slider_admits depth_slider depth →
       (∀ args, la_timeout args = 10 → la_max_depth args ≤ 3 →
                loader_load E1 args = loader_load E2 args) →
       crawl_website E1 url depth = crawl_website E2 url depth).
Proof.
  split_and!; try done.
  - intros E vstore query client docs Hret.
    by apply retrieve_at_most_k in Hret.
  - intros depth. unfold slider_admits. simpl. rewrite Z.mod_1_r. lia.
  - intros E1 E2 url depth [Hrange _] Hload. simpl in Hrange.
    unfold crawl_website. rewrite (Hload (mkLoaderArgs url depth 10)); done || (simpl; lia).
Qed.

Lemma configuration_values_witness :
  slider_admits depth_slider (sl_value depth_slider)
  ∧ crawl_website (Stub.env Stub.chatty_llm) "https://a.example" 2
    = crawl_website (Stub.env Stub.dead_llm) "https://a.example" 2.
Proof.
  assert (slider_admits depth_slider (sl_value depth_slider)) as Hadm
    by (unfold slider_admits; simpl; rewrite Z.mod_1_r; lia).
  split; [exact Hadm|].
  destruct configuration_values as (_ & _ & _ & _ & _ & _ & _ & _ & _ & _ & H).
  apply (H (Stub.env Stub.chatty_llm) (Stub.env Stub.dead_llm)
           "https://a.example" 2 Hadm).
  intros args _ _. reflexivity.
Defined.

(** ** Sessions *)
Section SessionFacts.
Context (E : Collaborators).
Implicit Types (w : World E) (s : nat) (st : State) (c : Config E).

Lemma uuid4_str_inj n m : uuid4_str n = uuid4_str m → n = m.
Proof. apply (inj pretty). Qed.

Lemma collection_name_inj sid sid' :
  collection_name sid = collection_name sid' → sid = sid'.
Proof. unfold collection_name. apply (inj (String.append _)). Qed.

Lemma get_state_lookup w s st : sessions w !! s = Some st → get_state w s = st.
Proof. unfold get_state. by intros ->. Qed.

Lemma get_state_set_state_eq w s st : get_state (set_state E s st w) s = st.
Proof. unfold get_state, set_state. simpl. by rewrite lookup_insert_eq. Qed.

Lemma get_state_set_state_ne w s s' st :
  s ≠ s' → get_state (set_state E s st w) s' = get_state w s'.
Proof. intros. unfold get_state, set_state. simpl. by rewrite lookup_insert_ne. Qed.

Lemma contents_list_append w l turn :
  contents (list_append E l turn w) l = contents w l ++ [turn].
Proof.
  unfold list_append, set_heap, contents at 1. cbn [heap].
  by rewrite lookup_insert_eq.
Qed.

Lemma new_list_fresh w : (new_list E w).1 ∉ dom (heap w).
Proof. unfold new_list. simpl. apply is_fresh. Qed.

Lemma new_list_contents w : contents (new_list E w).2 (new_list E w).1 = [].
Proof. unfold contents, new_list. simpl. by rewrite lookup_insert_eq. Qed.

(** What a world keeps through a change that touches neither the session
    dicts nor the UUID supply, and frees no list. *)
Lemma wf_world_frame w w' :
  sessions w' = sessions w → uuids w' = uuids w →
  dom (heap w) ⊆ dom (heap w') →
  wf_world w → wf_world w'.
Proof.
  intros Hs Hu Hd [H1 H2 H3 H4 H5].
  split; rewrite ?Hs, ?Hu; eauto.
Qed.

(** The first effect of [ingest_fn] on the world: [state.setdefault("id",
    str(uuid.uuid4()))]. *)
Lemma wf_world_setdefault_id w s :
  wf_world w → wf_world (setdefault_id E s w).2.
Proof.
  intros [H1 H2 H3 H4 H5]. unfold setdefault_id.
  set (st := get_state w s).
  set (sid := default (uuid4_str (uuids w)) (st_id st)). cbn [snd].
  assert (∃ n, (n < uuids w + 1)%N ∧ sid = uuid4_str n) as Hsid.
  { unfold sid, st, get_state.
    destruct (sessions w !! s) as [st0|] eqn:Hs; simpl;
      [destruct (st_id st0) as [i|] eqn:Hi; simpl|].
    - destruct (H1 _ _ _ Hs Hi) as (n & ? & ?). exists n. split; [lia|done].
    - exists (uuids w). split; [lia|done].
    - exists (uuids w). split; [lia|done]. }
  assert (∀ s' st' , s' ≠ s → sessions w !! s' = Some st' →
                     st_id st' = Some sid → False) as Hother.
  { intros s' st' Hne Hs' Hi'. unfold sid, st, get_state in Hi'.
    destruct (sessions w !! s) as [st0|] eqn:Hs; simpl in Hi';
      [destruct (st_id st0) as [i|] eqn:Hi; simpl in Hi'|].
    - apply Hne. eapply H2; eauto.
    - destruct (H1 _ _ _ Hs' Hi') as (n & Hn & Heq).
      apply uuid4_str_inj in Heq. lia.
    - destruct (H1 _ _ _ Hs' Hi') as (n & Hn & Heq).
      apply uuid4_str_inj in Heq. lia. }
  split; simpl.
  - intros s' st' sid' Hs' Hi'.
    destruct (decide (s' = s)) as [->|Hne].
    + rewrite lookup_insert_eq in Hs'. simplify_eq/=. done.
    + rewrite lookup_insert_ne in Hs' by done.
      destruct (H1 _ _ _ Hs' Hi') as (n & ? & ?). exists n. split; [lia|done].
  - intros s1 s2 st1 st2 sid' Hs1 Hs2 Hi1 Hi2.
    destruct (decide (s1 = s)) as [->|Hne1], (decide (s2 = s)) as [->|Hne2];
      [done|..].
    + rewrite lookup_insert_eq in Hs1. rewrite lookup_insert_ne in Hs2 by done.
      simplify_eq/=. by destruct (Hother _ _ Hne2 Hs2 Hi2).
    + rewrite lookup_insert_eq in Hs2. rewrite lookup_insert_ne in Hs1 by done.
      simplify_eq/=. by destruct (Hother _ _ Hne1 Hs1 Hi1).
    + rewrite lookup_insert_ne in Hs1, Hs2 by done. eauto.
  - intros s' st' chain Hs' Hc.
    destruct (decide (s' = s)) as [->|Hne].
    + rewrite lookup_insert_eq in Hs'. simplify_eq/=.
      unfold sid, st, get_state in *.
      destruct (sessions w !! s) as [st0|] eqn:Hs; simpl in *; [|done].
      destruct (H3 _ _ _ Hs Hc) as (i & Hi & ? & ?).
      exists i. by rewrite Hi.
    + rewrite lookup_insert_ne in Hs' by done. eauto.
  - intros s' st' l Hs' Hl.
    destruct (decide (s' = s)) as [->|Hne].
    + rewrite lookup_insert_eq in Hs'. simplify_eq/=.
      unfold st, get_state in *.
      destruct (sessions w !! s) as [st0|] eqn:Hs; simpl in *; [eauto|done].
    + rewrite lookup_insert_ne in Hs' by done. eauto.
  - assert (∀ l, st_history st = Some l → ∃ st0,
               sessions w !! s = Some st0 ∧ st_history st0 = Some l) as Hown.
    { intros l Hl. unfold st, get_state in Hl.
      destruct (sessions w !! s) as [st0|] eqn:Hs; simpl in *; [eauto|done]. }
    intros s1 s2 st1 st2 l Hs1 Hs2 Hl1 Hl2.
    destruct (decide (s1 = s)) as [->|Hne1], (decide (s2 = s)) as [->|Hne2];
      [done|..].
    + rewrite lookup_insert_eq in Hs1. rewrite lookup_insert_ne in Hs2 by done.
      simplify_eq/=. destruct (Hown _ Hl1) as (st0 & ? & ?). eauto.
    + rewrite lookup_insert_eq in Hs2. rewrite lookup_insert_ne in Hs1 by done.
      simplify_eq/=. destruct (Hown _ Hl2) as (st0 & ? & ?). eauto.
    + rewrite lookup_insert_ne in Hs1, Hs2 by done. eauto.
Qed.

(** The session gets a new, empty history list (and perhaps a chain over
    its own collection). *)
Lemma wf_world_new_history w s st' :
  wf_world w →
  st_id st' = st_id (get_state w s) →
  (∀ chain, st_qa_chain st' = Some chain →
     ∃ sid, st_id st' = Some sid ∧ chain = make_qa_chain (collection_name sid)) →
  st_history st' = Some (new_list E w).1 →
  wf_world (set_state E s st' (new_list E w).2).
Proof.
  intros [H1 H2 H3 H4 H5] Hid Hchain Hhist.
  pose proof (new_list_fresh w) as Hfresh.
  assert (∀ i, st_id st' = Some i → ∃ st0,
             sessions w !! s = Some st0 ∧ st_id st0 = Some i) as Hown.
  { intros i Hi. rewrite Hid in Hi. unfold get_state in Hi.
    destruct (sessions w !! s) as [st0|] eqn:Hs; simpl in *; [eauto|done]. }
  split; simpl.
  - intros s' st0 sid Hs' Hi.
    destruct (decide (s' = s)) as [->|Hne].
    + rewrite lookup_insert_eq in Hs'. simplify_eq/=.
      destruct (Hown _ Hi) as (st9 & ? & ?). eauto.
    + rewrite lookup_insert_ne in Hs' by done. eauto.
  - intros s1 s2 st1 st2 sid Hs1 Hs2 Hi1 Hi2.
    destruct (decide (s1 = s)) as [->|Hne1], (decide (s2 = s)) as [->|Hne2];
      [done|..].
    + rewrite lookup_insert_eq in Hs1. rewrite lookup_insert_ne in Hs2 by done.
      simplify_eq/=. destruct (Hown _ Hi1) as (st0 & ? & ?). eauto.
    + rewrite lookup_insert_eq in Hs2. rewrite lookup_insert_ne in Hs1 by done.
      simplify_eq/=. destruct (Hown _ Hi2) as (st0 & ? & ?). eauto.
    + rewrite lookup_insert_ne in Hs1, Hs2 by done. eauto.
  - intros s' st0 chain Hs' Hc.
    destruct (decide (s' = s)) as [->|Hne].
    + rewrite lookup_insert_eq in Hs'. simplify_eq/=.
      destruct (Hchain _ Hc) as (sid & ? & ?). exists sid.
      split_and!; [done..|]. rewrite Hhist. eauto.
    + rewrite lookup_insert_ne in Hs' by done. eauto.
  - intros s' st0 l Hs' Hl. rewrite dom_insert_L.
    destruct (decide (s' = s)) as [->|Hne].
    + rewrite lookup_insert_eq in Hs'. simplify_eq/=. set_solver.
    + rewrite lookup_insert_ne in Hs' by done.
      apply elem_of_union_r. eauto.
  - assert (∀ s0 st0, sessions w !! s0 = Some st0 →
              st_history st0 = Some (new_list E w).1 → False) as Hnew.
    { intros s0 st0 Hs0 Hl0. apply Hfresh. eauto. }
    intros s1 s2 st1 st2 l Hs1 Hs2 Hl1 Hl2.
    destruct (decide (s1 = s)) as [->|Hne1], (decide (s2 = s)) as [->|Hne2];
      [done|..].
    + rewrite lookup_insert_eq in Hs1. rewrite lookup_insert_ne in Hs2 by done.
      simplify_eq/=. by destruct (Hnew _ _ Hs2 Hl2).
    + rewrite lookup_insert_eq in Hs2. rewrite lookup_insert_ne in Hs1 by done.
      simplify_eq/=. by destruct (Hnew _ _ Hs1 Hl1).
    + rewrite lookup_insert_ne in Hs1, Hs2 by done. eauto.
Qed.

(** *** The outcomes of [ingest_fn] *)

Lemma ingest_fn_blank w s url depth :
  PyStr.strip url = "" →
  ingest_fn E s url depth w = (w, Return "⚠️ Please enter a website URL.").
Proof. intros Hurl. unfold ingest_fn. by rewrite decide_True. Qed.

Lemma ingest_fn_crawl_failed w s url depth e :
  PyStr.strip url ≠ "" →
  loader_load E (mkLoaderArgs (with_scheme (PyStr.strip url)) depth 10) = Raise e →
  ingest_fn E s url depth w
  = ((setdefault_id E s w).2,
     Return ("⚠️ Crawl failed: RuntimeError: RecursiveUrlLoader failed: "
             +:+ exn_msg e)).
Proof.
  intros Hurl Hload. unfold ingest_fn. rewrite decide_False by done.
  unfold crawl_website. rewrite Hload. reflexivity.
Qed.

Lemma ingest_fn_no_pages w s url depth :
  PyStr.strip url ≠ "" →
  loader_load E (mkLoaderArgs (with_scheme (PyStr.strip url)) depth 10) = Return [] →
  ingest_fn E s url depth w
  = ((setdefault_id E s w).2, Return "⚠️ Could not retrieve any pages.").
Proof.
  intros Hurl Hload. unfold ingest_fn. rewrite decide_False by done.
  unfold crawl_website. rewrite Hload. reflexivity.
Qed.

Lemma add_texts_embed_failed chunks coll e :
  embed_documents E EMBED_MODEL (page_content <$> chunks) = Raise e →
  add_texts E chunks coll = Raise e.
Proof. intros He. unfold add_texts. by rewrite He. Qed.

Lemma add_texts_empty coll embs :
  embed_documents E EMBED_MODEL (page_content <$> []) = Return embs →
  add_texts E [] coll = Raise EMPTY_BATCH.
Proof. intros He. unfold add_texts. by rewrite He. Qed.

Lemma add_texts_added chunks coll embs :
  embed_documents E EMBED_MODEL (page_content <$> chunks) = Return embs →
  chunks ≠ [] → length embs = length chunks →
  add_texts E chunks coll = Return (coll ++ zip chunks embs).
Proof.
  intros He Hne Hlen. unfold add_texts. rewrite He.
  by rewrite decide_False, decide_True.
Qed.

(** [add_texts] returns only when the embedding returned, for at least
    one chunk. *)
Lemma add_texts_Return chunks coll coll' :
  add_texts E chunks coll = Return coll' →
  ∃ embs, embed_documents E EMBED_MODEL (page_content <$> chunks) = Return embs
          ∧ chunks ≠ [] ∧ length embs = length chunks
          ∧ coll' = coll ++ zip chunks embs.
Proof.
  unfold add_texts.
  destruct (embed_documents E EMBED_MODEL _) as [embs|e]; [|done].
  repeat case_decide; intros [= <-]. by exists embs.
Qed.

Lemma ingest_fn_store_failed w s url depth docs e :
  PyStr.strip url ≠ "" →
  let target := with_scheme (PyStr.strip url) in
  let chunks := splitter_split E SPLITTER (set_source target <$> docs) in
  let name := collection_name (setdefault_id E s w).1 in
  loader_load E (mkLoaderArgs target depth 10) = Return docs →
  docs ≠ [] →
  add_texts E chunks (default [] (chroma w !! name)) = Raise e →
  ingest_fn E s url depth w
  = (set_chroma E (<[name := default [] (chroma w !! name)]> (chroma w))
                (setdefault_id E s w).2,
     Raise e).
Proof.
  intros Hurl target chunks name Hload Hdocs Hadd.
  unfold ingest_fn. rewrite decide_False by done.
  unfold crawl_website. fold target. rewrite Hload. cbn [setdefault_id].
  rewrite decide_False by (by destruct docs).
  unfold build_vectorstore, Chroma_from_documents. fold chunks.
  cbn [chroma]. unfold name, setdefault_id in Hadd. cbn [fst] in Hadd.
  unfold Collection in *. rewrite Hadd. reflexivity.
Qed.

Lemma ingest_fn_embed_failed w s url depth docs e :
  PyStr.strip url ≠ "" →
  let target := with_scheme (PyStr.strip url) in
  let chunks := splitter_split E SPLITTER (set_source target <$> docs) in
  let name := collection_name (setdefault_id E s w).1 in
  loader_load E (mkLoaderArgs target depth 10) = Return docs →
  docs ≠ [] →
  embed_documents E EMBED_MODEL (page_content <$> chunks) = Raise e →
  ingest_fn E s url depth w
  = (set_chroma E (<[name := default [] (chroma w !! name)]> (chroma w))
                (setdefault_id E s w).2,
     Raise e).
Proof.
  intros Hurl target chunks name Hload Hdocs Hembed.
  apply (ingest_fn_store_failed w s url depth docs e); [done..|].
  by apply add_texts_embed_failed.
Qed.

Lemma ingest_fn_indexed w s url depth docs embs :
  PyStr.strip url ≠ "" →
  let target := with_scheme (PyStr.strip url) in
  let chunks := splitter_split E SPLITTER (set_source target <$> docs) in
  let sid := (setdefault_id E s w).1 in
  let name := collection_name sid in
  let w2 := set_chroma E (<[name := default [] (chroma w !! name)
                                     ++ zip chunks embs]> (chroma w))
                       (setdefault_id E s w).2 in
  loader_load E (mkLoaderArgs target depth 10) = Return docs →
  docs ≠ [] →
  embed_documents E EMBED_MODEL (page_content <$> chunks) = Return embs →
  chunks ≠ [] →
  length embs = length chunks →
  ingest_fn E s url depth w
  = (set_state E s (mkState (Some sid) (Some (make_qa_chain name))
                            (Some (new_list E w2).1))
               (new_list E w2).2,
     Return ("✅ Indexed " +:+ pretty (length docs) +:+ " page(s) from "
             +:+ target +:+ ". Ask away!")).
Proof.
  intros Hurl target chunks sid name w2 Hload Hdocs Hembed Hchunks Hlen.
  unfold ingest_fn. rewrite decide_False by done.
  unfold crawl_website. fold target. rewrite Hload. cbn [setdefault_id].
  rewrite decide_False by (by destruct docs).
  unfold build_vectorstore, Chroma_from_documents. fold chunks.
  cbn [chroma]. unfold Collection in *.
  rewrite (add_texts_added _ _ _ Hembed Hchunks Hlen).
  rewrite length_fmap. reflexivity.
Qed.

(** Every ingest ends in one of the five ways above. *)
Lemma ingest_fn_cases w s url depth :
  let target := with_scheme (PyStr.strip url) in
  PyStr.strip url = ""
  ∨ (PyStr.strip url ≠ "" ∧
     ((∃ e, loader_load E (mkLoaderArgs target depth 10) = Raise e)
      ∨ loader_load E (mkLoaderArgs target depth 10) = Return []
      ∨ ∃ docs, loader_load E (mkLoaderArgs target depth 10) = Return docs
                ∧ docs ≠ []
                ∧ ((∃ e, add_texts E
                           (splitter_split E SPLITTER (set_source target <$> docs))
                           (default [] (chroma w !! collection_name
                                                      (setdefault_id E s w).1))
                         = Raise e)
                   ∨ (∃ embs, embed_documents E EMBED_MODEL
                           (page_content <$> splitter_split E SPLITTER
                              (set_source target <$> docs)) = Return embs
                        ∧ splitter_split E SPLITTER (set_source target <$> docs) ≠ []
                        ∧ length embs
                          = length (splitter_split E SPLITTER
                                      (set_source target <$> docs)))))).
Proof.
  intros target.
  destruct (decide (PyStr.strip url = "")) as [|Hurl]; [by left|right].
  split; [done|].
  destruct (loader_load E (mkLoaderArgs target depth 10)) as [docs|e] eqn:Hload;
    [|left; eauto].
  right. destruct docs as [|d docs]; [by left|right].
  exists (d :: docs). split_and!; [done..|].
  destruct (add_texts E _ _) as [coll'|e] eqn:Hadd; [right|left; eauto].
  apply add_texts_Return in Hadd as (embs & He & Hne & Hlen & _). eauto.
Qed.

Lemma setdefault_id_state w s :
  get_state (setdefault_id E s w).2 s
  = mkState (Some (setdefault_id E s w).1) (st_qa_chain (get_state w s))
            (st_history (get_state w s)).
Proof. unfold setdefault_id, get_state. simpl. by rewrite lookup_insert_eq. Qed.

Lemma setdefault_id_other w s s' :
  s ≠ s' → sessions (setdefault_id E s w).2 !! s' = sessions w !! s'.
Proof. intros. unfold setdefault_id. simpl. by rewrite lookup_insert_ne. Qed.

Lemma wf_world_ingest_fn w s url depth :
  wf_world w → wf_world (ingest_fn E s url depth w).1.
Proof.
  intros Hwf.
  pose proof (wf_world_setdefault_id w s Hwf) as Hwf1.
  destruct (ingest_fn_cases w s url depth)
    as [Hurl|(Hurl & [[e Hload]|[Hload|(docs & Hload & Hdocs & [[e He]|(embs & He & Hchunks & Hlen)])]])].
  - by rewrite ingest_fn_blank.
  - by erewrite ingest_fn_crawl_failed.
  - by rewrite ingest_fn_no_pages.
  - erewrite ingest_fn_store_failed by done. cbn [fst].
    by eapply wf_world_frame; [..|exact Hwf1].
  - erewrite ingest_fn_indexed by done. cbn [fst].
    apply wf_world_new_history.
    + by eapply wf_world_frame; [..|exact Hwf1].
    + cbn [st_id]. unfold get_state, set_chroma. cbn [sessions].
      fold (get_state (setdefault_id E s w).2 s).
      by rewrite setdefault_id_state.
    + cbn. intros chain [= <-]. eauto.
    + done.
Qed.

Lemma wf_world_clear_chat w s : wf_world w → wf_world (clear_chat E s w).
Proof.
  intros Hwf. unfold clear_chat.
  change (let '(l, w1) := new_list E w in
          set_state E s (mkState (st_id (get_state w s))
                           (st_qa_chain (get_state w s)) (Some l)) w1)
    with (set_state E s (mkState (st_id (get_state w s))
                           (st_qa_chain (get_state w s))
                           (Some (new_list E w).1)) (new_list E w).2).
  apply wf_world_new_history; [done..| |done].
  cbn. intros chain Hc.
  destruct (sessions w !! s) as [st|] eqn:Hs.
  - rewrite (get_state_lookup _ _ _ Hs) in Hc |- *.
    destruct (wf_chain _ _ Hwf _ _ _ Hs Hc) as (sid & ? & ? & _). eauto.
  - unfold get_state in Hc. by rewrite Hs in Hc.
Qed.

(** *** Tasks *)

(** A task never touches a session dict, the vector store or the UUID
    supply, and frees no list. *)
Lemma task_step_frame t w w' t' out :
  task_step E t w = (w', t', out) →
  sessions w' = sessions w ∧ chroma w' = chroma w ∧ uuids w' = uuids w
  ∧ dom (heap w) ⊆ dom (heap w').
Proof.
  destruct t as [s msg|s msg hist|msg hist chain|msg hist answer| |e];
    unfold task_step, qa_invoke, list_append, new_list, set_heap;
    intros Hstep; repeat case_match; simplify_eq/=;
    split_and!; try done; rewrite ?dom_insert_L; set_solver.
Qed.

Lemma wf_world_step c i : wf_world (world c) → wf_world (world (step E c i)).
Proof.
  intros Hwf. unfold step.
  destruct (tasks c !! i) as [t|]; [|done].
  destruct (task_step E t (world c)) as [[w' t'] out] eqn:Hstep.
  apply task_step_frame in Hstep as (? & ? & ? & ?).
  by eapply wf_world_frame.
Qed.

Lemma wf_world_init : wf_world (@init_world E).
Proof. by split. Qed.

(** Every world the callbacks can produce is well formed. *)
Lemma reachable_wf c : reachable c → wf_world (world c).
Proof.
  induction 1; cbn [world].
  - apply wf_world_init.
  - by apply wf_world_ingest_fn.
  - by apply wf_world_clear_chat.
  - done.
  - by apply wf_world_step.
Qed.

End SessionFacts.

(** ** Questions *)
Section AskFacts.
Context (E : Collaborators) (w0 : World E).
Implicit Types (c : Config E) (w : World E) (i p : nat).

Lemma shown_app c i w ts outs :
  shown (mkConfig w ts (outputs c ++ outs)) i
  = shown c i ++ (snd <$> filter (λ o, o.1 = i) outs).
Proof. unfold shown. cbn [outputs]. by rewrite filter_app, fmap_app. Qed.

Lemma shown_own (i : nat) (out : option (list Turn)) :
  snd <$> filter (λ o, o.1 = i) (pair i <$> option_list out) = option_list out.
Proof.
  destruct out as [x|]; [|done].
  change (pair i <$> option_list (Some x)) with [(i, x)].
  by rewrite filter_cons_True.
Qed.

Lemma shown_other (i j : nat) (out : option (list Turn)) :
  i ≠ j → snd <$> filter (λ o, o.1 = i) (pair j <$> option_list out) = [].
Proof.
  intros Hne. destruct out as [x|]; [|done].
  change (pair j <$> option_list (Some x)) with [(j, x)].
  by rewrite filter_cons_False by (cbn; congruence).
Qed.

Lemma set_last_snoc (h : list Turn) (x y : Turn) :
  <[(length (h ++ [x]) - 1)%nat := y]> (h ++ [x]) = h ++ [y].
Proof.
  rewrite length_app. cbn [length].
  replace (length h + 1 - 1)%nat with (length h + 0)%nat by lia.
  by rewrite insert_app_r.
Qed.

Section OneAsk.
Context (s : nat) (raw : string) (chain : QAChain) (l : nat).
Hypothesis Hchain : st_qa_chain (get_state w0 s) = Some chain.
Hypothesis Hhist : st_history (get_state w0 s) = Some l.
Hypothesis Hraw : PyStr.strip raw ≠ "".

Local Abbreviation m := (PyStr.strip raw).
Local Abbreviation h := (contents w0 l).
Local Abbreviation a := (answer_text (qa_run E chain m (chroma w0)).2).
Local Abbreviation task := (ask_task s raw m l chain a).
Local Abbreviation hist := (ask_hist h m a).
Local Abbreviation seen := (ask_shown h m a).

Local Abbreviation same_sessions := (same_sessions w0).
Local Abbreviation on_track := (on_track w0 s raw chain l).

(** One more stretch of the question: it writes to its own history list
    only, and shows its requester the list. *)
Lemma task_step_on_track w p :
  sessions w = sessions w0 → chroma w = chroma w0 →
  contents w l = hist p →
  ∃ w' out,
    task_step E (task p) w = (w', task (min 4 (S p)), out)
    ∧ sessions w' = sessions w ∧ chroma w' = chroma w
    ∧ contents w' l = hist (min 4 (S p))
    ∧ (∀ l', l' ≠ l → heap w' !! l' = heap w !! l')
    ∧ seen (min 4 (S p)) = seen p ++ option_list out.
Proof using Hchain Hhist Hraw.
  intros Hs Hc Hl.
  assert (get_state w s = get_state w0 s) as Hst
    by (unfold get_state; by rewrite Hs).
  destruct p as [|[|[|[|p]]]]; cbn [ask_task ask_hist ask_shown min] in *.
  - (* called: the pending turn is appended and shown *)
    eexists _, _. split.
    { cbn [task_step]. rewrite Hst, Hhist, Hchain.
      rewrite decide_False by done. reflexivity. }
    unfold list_append, set_heap, contents. cbn [heap sessions chroma].
    rewrite lookup_insert_eq. fold (contents w l). rewrite Hl.
    split_and!; try done.
    intros l' Hne. by rewrite lookup_insert_ne.
  - (* resumed after the first yield: the job is submitted *)
    eexists _, _. split.
    { cbn [task_step]. rewrite Hst, Hchain. reflexivity. }
    by split_and!.
  - (* the job runs on a worker *)
    destruct (qa_run E chain m (chroma w0)) as [sent res] eqn:Hrun.
    eexists _, _. split.
    { cbn [task_step]. unfold qa_invoke. rewrite Hc, Hrun. reflexivity. }
    by split_and!.
  - (* resumed after the await: the turn is resolved and shown *)
    eexists _, _. split.
    { cbn [task_step]. rewrite Hl.
      rewrite decide_False by (by destruct (contents w0 l)).
      rewrite set_last_snoc. reflexivity. }
    unfold set_heap, contents. cbn [heap sessions chroma].
    rewrite lookup_insert_eq.
    split_and!; try done.
    intros l' Hne. by rewrite lookup_insert_ne.
  - (* exhausted *)
    eexists _, _. split; [reflexivity|].
    split_and!; done.
Qed.

Lemma step_own c i p :
  same_sessions c → on_track c i p →
  same_sessions (step E c i) ∧ on_track (step E c i) i (min 4 (S p))
  ∧ length (tasks (step E c i)) = length (tasks c)
  ∧ (∀ l', l' ≠ l → heap (world (step E c i)) !! l' = heap (world c) !! l')
  ∧ (∀ j, j ≠ i → tasks (step E c i) !! j = tasks c !! j
                  ∧ shown (step E c i) j = shown c j).
Proof using Hchain Hhist Hraw.
  intros [Hs Hc] (Ht & Hl & Hseen).
  destruct (task_step_on_track (world c) p Hs Hc Hl)
    as (w' & out & Hstep & Hs' & Hc' & Hl' & Hframe & Hout).
  unfold step. rewrite Ht, Hstep.
  split_and!.
  - unfold same_sessions. cbn [world]. by rewrite Hs', Hc'.
  - unfold on_track. cbn [world tasks]. split_and!.
    + apply list_lookup_insert_eq. by eapply lookup_lt_Some.
    + done.
    + by rewrite shown_app, shown_own, Hseen.
  - cbn [tasks]. by rewrite length_insert.
  - done.
  - intros j Hne. cbn [tasks]. split.
    + by rewrite list_lookup_insert_ne.
    + rewrite shown_app, shown_other by done. by rewrite app_nil_r.
Qed.

(** The same stretch of code, whatever the list holds by then: the first
    stretch appends the pending turn, the last one overwrites the last
    entry of the list, whoever put it there. *)
Lemma step_ask c i p cur :
  same_sessions c →
  tasks c !! i = Some (task p) →
  contents (world c) l = cur →
  (p = 3%nat → cur ≠ []) →
  let cur' := match p with
              | 0%nat => cur ++ [(m, PENDING)]
              | 3%nat => <[(length cur - 1)%nat := (m, a)]> cur
              | _ => cur
              end in
  let out := match p with
             | 0%nat | 3%nat => [cur']
             | _ => []
             end in
  same_sessions (step E c i)
  ∧ tasks (step E c i) = <[i := task (min 4 (S p))]> (tasks c)
  ∧ contents (world (step E c i)) l = cur'
  ∧ shown (step E c i) i = shown c i ++ out
  ∧ (∀ j, j ≠ i → shown (step E c i) j = shown c j).
Proof using Hchain Hhist Hraw.
  intros [Hs Hc] Ht Hl Hne cur' out.
  assert (get_state (world c) s = get_state w0 s) as Hst
    by (unfold get_state; by rewrite Hs).
  assert (∃ w' o,
    task_step E (task p) (world c) = (w', task (min 4 (S p)), o)
    ∧ sessions w' = sessions (world c) ∧ chroma w' = chroma (world c)
    ∧ contents w' l = cur' ∧ option_list o = out)
    as (w' & o & Hstep & Hs' & Hc' & Hl' & Ho).
  { subst cur' out.
    destruct p as [|[|[|[|p]]]]; cbn [ask_task min task_step].
    - rewrite Hst, Hhist, Hchain. rewrite decide_False by done.
      eexists _, _. split; [reflexivity|].
      rewrite contents_list_append, Hl. by split_and!.
    - rewrite Hst, Hchain. eexists _, _. split; [reflexivity|]. by split_and!.
    - unfold qa_invoke. rewrite Hc.
      destruct (qa_run E chain m (chroma w0)) as [sent res] eqn:Hrun.
      eexists _, _. split; [reflexivity|]. by split_and!.
    - rewrite Hl. rewrite decide_False by auto.
      eexists _, _. split; [reflexivity|].
      unfold set_heap, contents. cbn [heap sessions chroma].
      rewrite lookup_insert_eq. by split_and!.
    - eexists _, _. split; [reflexivity|]. by split_and!. }
  unfold step. rewrite Ht, Hstep. cbn [world tasks]. split_and!.
  - split; cbn [world]; congruence.
  - done.
  - done.
  - by rewrite shown_app, shown_own, Ho.
  - intros j Hj. rewrite shown_app, shown_other by done. by rewrite app_nil_r.
Qed.

End OneAsk.

(** A question asked and awaited on its own. *)
Lemma chat_fn_solo s raw chain l :
  st_qa_chain (get_state w0 s) = Some chain →
  st_history (get_state w0 s) = Some l →
  PyStr.strip raw ≠ "" →
  let m := PyStr.strip raw in
  let a := answer_text (qa_run E chain m (chroma w0)).2 in
  let c := chat_fn E s raw w0 in
  tasks c = [Finished]
  ∧ shown c 0 = [history w0 s ++ [(m, PENDING)]; history w0 s ++ [(m, a)]]
  ∧ history (world c) s = history w0 s ++ [(m, a)]
  ∧ sessions (world c) = sessions w0
  ∧ chroma (world c) = chroma w0.
Proof.
  intros Hchain Hhist Hraw m a c.
  pose (c0 := mkConfig w0 [Start s raw] []).
  assert (same_sessions w0 c0) as H0 by done.
  assert (on_track w0 s raw chain l c0 0 0) as T0 by done.
  destruct (step_own s raw chain l Hchain Hhist Hraw c0 0 0 H0 T0)
    as (H1 & T1 & L1 & _).
  destruct (step_own s raw chain l Hchain Hhist Hraw _ 0 _ H1 T1)
    as (H2 & T2 & L2 & _).
  destruct (step_own s raw chain l Hchain Hhist Hraw _ 0 _ H2 T2)
    as (H3 & T3 & L3 & _).
  destruct (step_own s raw chain l Hchain Hhist Hraw _ 0 _ H3 T3)
    as (H4 & T4 & L4 & _).
  cbn [min] in *.
  assert (length (tasks c) = 1%nat) as Hlen.
  { unfold c, chat_fn, run. cbn [foldl]. fold c0. by rewrite L4, L3, L2, L1. }
  change (step E (step E (step E (step E c0 0) 0) 0) 0) with c in *.
  destruct H4 as [Hs Hc]. destruct T4 as (Ht & Hl & Hseen).
  assert (history w0 s = contents w0 l) as Hh0
    by (unfold history; by rewrite Hhist).
  assert (history (world c) s = contents (world c) l) as Hh.
  { unfold history, get_state. rewrite Hs.
    fold (get_state w0 s). by rewrite Hhist. }
  rewrite Hh, Hh0. cbn [ask_task ask_hist ask_shown] in *.
  split_and!; try done.
  destruct (tasks c) as [|t [|t' ts]]; simplify_eq/=. done.
Qed.

End AskFacts.

(** ** Ingest: failures and the history *)
Section IngestFacts.
Context (E : Collaborators).
Implicit Types (w : World E) (s : nat).

Lemma setdefault_id_keeps w s :
  let w1 := (setdefault_id E s w).2 in
  st_qa_chain (get_state w1 s) = st_qa_chain (get_state w s)
  ∧ st_history (get_state w1 s) = st_history (get_state w s)
  ∧ history w1 s = history w s
  ∧ heap w1 = heap w ∧ chroma w1 = chroma w
  ∧ (∀ i, st_id (get_state w s) = Some i → st_id (get_state w1 s) = Some i)
  ∧ (∀ s', s' ≠ s → get_state w1 s' = get_state w s').
Proof.
  intros w1. unfold history. subst w1. rewrite setdefault_id_state.
  split_and!; try done.
  - cbn [setdefault_id snd fst]. by intros i ->.
  - intros s' Hne. unfold get_state. by rewrite setdefault_id_other.
Qed.

Lemma history_set_chroma w s client :
  history (set_chroma E client w) s = history w s.
Proof. done. Qed.

Lemma status_crawl_failed_ne_no_pages msg :
  "⚠️ Crawl failed: RuntimeError: RecursiveUrlLoader failed: " +:+ msg
  ≠ "⚠️ Could not retrieve any pages.".
Proof. intros H. cbv in H. discriminate H. Qed.

End IngestFacts.

(** C4.  An ingest whose URL box is not blank.  When the loader raises,
    [ingest_fn] reports "⚠️ Crawl failed: ..." with the message of the
    failure; when the loader returns no document it reports "⚠️ Could not
    retrieve any pages.", a different status.  In both cases the chain
    and the history of the session are what they were, as are the vector
    store, every list and every other session.  The state dict of the
    session is written in one key: [state.setdefault("id", ...)] runs
    before the crawl, so the session has an identifier afterwards, the
    one it had or else a new one.  A session that had no index has none
    afterwards. *)
Theorem ingest_failure_keeps_index (E : Collaborators) (w : World E)
    (s : nat) (url : string) (depth : Z) :
  PyStr.strip url ≠ "" →
  let outcome := loader_load E (mkLoaderArgs (with_scheme (PyStr.strip url)) depth 10) in
  let w' := (ingest_fn E s url depth w).1 in
  let status := (ingest_fn E s url depth w).2 in
  (∀ e, outcome = Raise e →
        status = Return ("⚠️ Crawl failed: RuntimeError: RecursiveUrlLoader failed: "
                         +:+ exn_msg e))
  ∧ (outcome = Return [] → status = Return "⚠️ Could not retrieve any pages.")
  ∧ (∀ e, "⚠️ Crawl failed: RuntimeError: RecursiveUrlLoader failed: " +:+ exn_msg e
          ≠ "⚠️ Could not retrieve any pages.")
  ∧ ((∃ e, outcome = Raise e) ∨ outcome = Return [] →
     st_qa_chain (get_state w' s) = st_qa_chain (get_state w s)
     ∧ st_history (get_state w' s) = st_history (get_state w s)
     ∧ history w' s = history w s
     ∧ heap w' = heap w
     ∧ chroma w' = chroma w
     ∧ st_id (get_state w' s)
       = Some (default (uuid4_str (uuids w)) (st_id (get_state w s)))
     ∧ (∀ i, st_id (get_state w s) = Some i → st_id (get_state w' s) = Some i)
     ∧ (∀ s', s' ≠ s → get_state w' s' = get_state w s')
     ∧ (st_qa_chain (get_state w s) = None → st_qa_chain (get_state w' s) = None)).
Proof.
  intros Hurl outcome w' status. split_and!.
  - intros e He. unfold status. by erewrite ingest_fn_crawl_failed.
  - intros He. unfold status. by rewrite ingest_fn_no_pages.
  - intros e. apply status_crawl_failed_ne_no_pages.
  - intros Hfail.
    assert (w' = (setdefault_id E s w).2) as ->.
    { unfold w'. destruct Hfail as [[e He]|He].
      - by erewrite ingest_fn_crawl_failed.
      - by rewrite ingest_fn_no_pages. }
    destruct (setdefault_id_keeps E w s) as (Hq & Hh & Hhist & Hheap & Hc & Hid & Hother).
    split_and!; try done.
    + by rewrite setdefault_id_state.
    + by rewrite Hq.
Qed.

Lemma ingest_failure_keeps_index_witness :
  let E := Stub.env Stub.chatty_llm in
  PyStr.strip " nowhere.example " ≠ ""
  ∧ (ingest_fn E 0 " nowhere.example " 2 init_world).2
    = Return "⚠️ Crawl failed: RuntimeError: RecursiveUrlLoader failed: unreachable"
  ∧ st_qa_chain (get_state (ingest_fn E 0 " nowhere.example " 2 init_world).1 0)
    = None
  ∧ st_id (get_state (ingest_fn E 0 " nowhere.example " 2 init_world).1 0)
    = Some (uuid4_str 0).
Proof.
  intros E.
  assert (PyStr.strip " nowhere.example " ≠ "") as Hurl by (vm_compute; discriminate).
  destruct (ingest_failure_keeps_index E init_world 0 " nowhere.example " 2 Hurl)
    as (Hfail & _ & _ & Hkeep).
  split_and!.
  - exact Hurl.
  - apply (Hfail (mkExn "ConnectionError" "unreachable")). vm_compute. reflexivity.
  - destruct Hkeep as (_ & _ & _ & _ & _ & _ & _ & _ & Hnone).
    + left. exists (mkExn "ConnectionError" "unreachable"). vm_compute. reflexivity.
    + apply Hnone. reflexivity.
  - destruct Hkeep as (_ & _ & _ & _ & _ & Hid & _).
    + left. exists (mkExn "ConnectionError" "unreachable"). vm_compute. reflexivity.
    + exact Hid.
Defined.

(** C4, as the claim has it, fails in two places.  With the loader as
    [crawl_website] sets it up, a root page that cannot be fetched is
    skipped, not raised: the ingest of a site that is unreachable ends
    with "⚠️ Could not retrieve any pages.", the very status of a crawl
    that found no page, and no "Crawl failed" is reported.  And the
    state of the session is not left as it was: it has gained its
    ["id"]. *)
Lemma ingest_unreachable_root_counterexample :
  let E := Stub.with_loader (Stub.env Stub.chatty_llm)
             (Stub.skipping_loader Stub.offline) in
  let r := ingest_fn E 0 "nowhere.example" 2 init_world in
  Stub.offline "https://nowhere.example"
  = Raise (mkExn "ConnectionError" "unreachable")
  ∧ r.2 = Return "⚠️ Could not retrieve any pages."
  ∧ r.2 = (ingest_fn (Stub.env Stub.chatty_llm) 0 "empty.example" 2 init_world).2
  ∧ get_state (E := E) init_world 0 = mkState None None None
  ∧ get_state r.1 0 = mkState (Some (uuid4_str 0)) None None.
Proof. intros E r. split_and!; vm_compute; reflexivity. Qed.

(** C10.  An ingest that succeeds (it reports "✅ Indexed ...") leaves the
    session with an empty history, and with a chain; any other ingest,
    whether it returns a warning or raises, leaves the history of the
    session, and every list, as it was. *)
Theorem ingest_resets_history (E : Collaborators) (w : World E)
    (s : nat) (url : string) (depth : Z) :
  let w' := (ingest_fn E s url depth w).1 in
  let r := (ingest_fn E s url depth w).2 in
  if indexed r
  then history w' s = [] ∧ is_Some (st_qa_chain (get_state w' s))
  else history w' s = history w s ∧ heap w' = heap w.
Proof.
  intros w' r. subst w' r.
  destruct (setdefault_id_keeps E w s) as (_ & _ & Hhist & Hheap & _).
  destruct (ingest_fn_cases E w s url depth)
    as [Hurl|(Hurl & [[e Hload]|[Hload|(docs & Hload & Hdocs & [[e He]|(embs & He & Hchunks & Hlen)])]])].
  - by rewrite ingest_fn_blank by done.
  - by erewrite ingest_fn_crawl_failed by done.
  - by rewrite ingest_fn_no_pages by done.
  - by erewrite ingest_fn_store_failed by done.
  - erewrite ingest_fn_indexed by done. cbn [fst snd].
    change (indexed _) with true. cbn match.
    unfold history. rewrite get_state_set_state_eq. cbn [st_history st_qa_chain].
    split; [|by eauto].
    apply (new_list_contents E).
Qed.

Lemma ingest_resets_history_witness :
  let E := Stub.env Stub.chatty_llm in
  let w1 := (chat_fn E 0 "hi" (ingest_fn E 0 "a.example" 2 init_world).1) in
  let B := Stub.with_loader E Stub.blank_site in
  let wb := with_loader_world Stub.blank_site (world w1) in
  history (world w1) 0 = [("hi", "re: hi")]
  ∧ history (ingest_fn E 0 "b.example" 2 (world w1)).1 0 = []
  ∧ history (ingest_fn E 0 "nowhere.example" 2 (world w1)).1 0 = [("hi", "re: hi")]
  ∧ (ingest_fn B 0 "blank.example" 2 wb).2 = Raise EMPTY_BATCH
  ∧ history (ingest_fn B 0 "blank.example" 2 wb).1 0 = [("hi", "re: hi")].
Proof.
  intros E w1 B wb. split_and!.
  - vm_compute. reflexivity.
  - pose proof (ingest_resets_history E (world w1) 0 "b.example" 2) as H.
    assert (indexed (ingest_fn E 0 "b.example" 2 (world w1)).2 = true) as Hok
      by (vm_compute; reflexivity).
    cbv zeta in H. rewrite Hok in H. exact (proj1 H).
  - pose proof (ingest_resets_history E (world w1) 0 "nowhere.example" 2) as H.
    assert (indexed (ingest_fn E 0 "nowhere.example" 2 (world w1)).2 = false) as Hko
      by (vm_compute; reflexivity).
    cbv zeta in H. rewrite Hko in H. rewrite (proj1 H). vm_compute. reflexivity.
  - vm_compute. reflexivity.
  - pose proof (ingest_resets_history B wb 0 "blank.example" 2) as H.
    assert (indexed (ingest_fn B 0 "blank.example" 2 wb).2 = false) as Hko
      by (vm_compute; reflexivity).
    cbv zeta in H. rewrite Hko in H. rewrite (proj1 H). vm_compute. reflexivity.
Defined.

(** ** Questions without an index, and failing generations *)
Section ChatFacts.
Context (E : Collaborators).
Implicit Types (w : World E) (c : Config E) (s : nat).

Lemma task_step_no_index w s raw :
  st_qa_chain (get_state w s) = None →
  PyStr.strip raw ≠ "" →
  ∃ w', task_step E (Start s raw) w
        = (w', Finished, Some (history w s ++ [(PyStr.strip raw, CRAWL_FIRST)]))
        ∧ jobs w' = jobs w ∧ prompts w' = prompts w
        ∧ sessions w' = sessions w ∧ chroma w' = chroma w.
Proof.
  intros Hchain Hraw. cbn [task_step]. rewrite Hchain. unfold history.
  destruct (st_history (get_state w s)) as [l|].
  - rewrite decide_False by done.
    exists (list_append E l (PyStr.strip raw, CRAWL_FIRST) w).
    by rewrite contents_list_append.
  - change (new_list E w) with ((new_list E w).1, (new_list E w).2).
    cbn match. rewrite decide_False by done.
    exists (list_append E (new_list E w).1 (PyStr.strip raw, CRAWL_FIRST)
              (new_list E w).2).
    by rewrite contents_list_append, new_list_contents.
Qed.

Lemma step_finished c i :
  tasks c !! i = Some Finished →
  world (step E c i) = world c ∧ tasks (step E c i) = tasks c.
Proof.
  intros Ht. unfold step. rewrite Ht. cbn. split; [done|].
  by apply list_insert_id.
Qed.

Lemma step_absent c i : tasks c !! i = None → step E c i = c.
Proof. intros Ht. unfold step. by rewrite Ht. Qed.

(** However the generator of a question on a session without an index is
    driven, no job and no prompt is added. *)
Lemma run_no_index w s raw sched :
  st_qa_chain (get_state w s) = None →
  PyStr.strip raw ≠ "" →
  let c := run E sched (mkConfig w [Start s raw] []) in
  jobs (world c) = jobs w ∧ prompts (world c) = prompts w.
Proof.
  intros Hchain Hraw.
  cut (∀ c, jobs (world c) = jobs w ∧ prompts (world c) = prompts w
            ∧ sessions (world c) = sessions w
            ∧ (tasks c = [Start s raw] ∨ tasks c = [Finished]) →
        jobs (world (run E sched c)) = jobs w
        ∧ prompts (world (run E sched c)) = prompts w).
  { intros Hcut. apply Hcut. cbn. eauto. }
  induction sched as [|i sched IH]; intros c (Hj & Hp & Hs & Ht); [done|].
  cbn [run foldl]. apply IH.
  destruct i as [|i].
  - destruct Ht as [Ht|Ht].
    + assert (st_qa_chain (get_state (world c) s) = None) as Hchain'
        by (unfold get_state; by rewrite Hs).
      destruct (task_step_no_index (world c) s raw Hchain' Hraw)
        as (w' & Hstep & Hj' & Hp' & Hs' & _).
      unfold step. rewrite Ht. cbn [lookup list_lookup]. rewrite Hstep.
      cbn [world tasks]. rewrite Hj', Hp', Hs'. split_and!; try done.
      by right.
    + destruct (step_finished c 0) as [Hw Ht']; [by rewrite Ht|].
      rewrite Hw, Ht'. eauto.
  - rewrite step_absent; [eauto|]. by destruct Ht as [-> | ->].
Qed.

End ChatFacts.

(** C3.  A question (its text is not blank) on a session that has no
    chain: the call ends at its first [yield], the requester is shown the
    history followed by the turn that holds the "crawl a website first"
    guidance, and no qa-chain invocation is submitted and no prompt
    sent, however the generator is driven. *)
Theorem no_index_guidance (E : Collaborators) (w : World E) (s : nat)
    (user_msg : string) :
  st_qa_chain (get_state w s) = None →
  PyStr.strip user_msg ≠ "" →
  let c := chat_fn E s user_msg w in
  tasks c = [Finished]
  ∧ shown c 0 = [history w s ++ [(PyStr.strip user_msg, "⚠️ Crawl a website first.")]]
  ∧ jobs (world c) = jobs w
  ∧ prompts (world c) = prompts w
  ∧ (∀ sched,
       jobs (world (run E sched (mkConfig w [Start s user_msg] []))) = jobs w
       ∧ prompts (world (run E sched (mkConfig w [Start s user_msg] [])))
         = prompts w).
Proof.
  intros Hchain Hraw c.
  destruct (task_step_no_index E w s user_msg Hchain Hraw)
    as (w' & Hstep & Hj & Hp & _).
  assert (c = mkConfig w' [Finished]
                [(0%nat, history w s ++ [(PyStr.strip user_msg, CRAWL_FIRST)])])
    as Hc.
  { unfold c, chat_fn, run. cbn [foldl]. unfold step at 4.
    cbn [tasks lookup list_lookup world]. rewrite Hstep. reflexivity. }
  split_and!.
  - by rewrite Hc.
  - rewrite Hc. unfold shown. cbn [outputs].
    by rewrite filter_cons_True by done.
  - by rewrite Hc.
  - by rewrite Hc.
  - intros sched. by apply run_no_index.
Qed.

Lemma no_index_guidance_witness :
  let E := Stub.env Stub.chatty_llm in
  st_qa_chain (get_state (@init_world E) 7) = None
  ∧ PyStr.strip " What is this page about? " ≠ ""
  ∧ shown (chat_fn E 7 " What is this page about? " init_world) 0
    = [[("What is this page about?", "⚠️ Crawl a website first.")]].
Proof.
  intros E.
  assert (PyStr.strip " What is this page about? " ≠ "") as Hraw
    by (vm_compute; discriminate).
  split_and!; [reflexivity | exact Hraw |].
  destruct (no_index_guidance E init_world 7 " What is this page about? "
              eq_refl Hraw) as (_ & Hshown & _).
  rewrite Hshown. vm_compute. reflexivity.
Defined.

(** C8.  A question on a session with an index whose chain invocation
    raises [e], in the retriever or in the LLM.  Nothing is raised out of
    [chat_fn]: the call runs to its end, the requester is shown the
    pending turn and then the resolved turn, whose text is
    "⚠️ <type of e>: <message of e>", and that turn is the last of the
    history.  The session keeps its chain, and the next question on it is
    answered as usual. *)
Theorem generation_failure_resolves_turn (E : Collaborators) (w : World E)
    (s : nat) (user_msg : string) (chain : QAChain) (l : nat) (e : Exn) :
  st_qa_chain (get_state w s) = Some chain →
  st_history (get_state w s) = Some l →
  PyStr.strip user_msg ≠ "" →
  (qa_run E chain (PyStr.strip user_msg) (chroma w)).2 = Raise e →
  let m := PyStr.strip user_msg in
  let text := "⚠️ " +:+ exn_type e +:+ ": " +:+ exn_msg e in
  let c := chat_fn E s user_msg w in
  tasks c = [Finished]
  ∧ shown c 0 = [history w s ++ [(m, "⏳ …thinking…")]; history w s ++ [(m, text)]]
  ∧ history (world c) s = history w s ++ [(m, text)]
  ∧ st_qa_chain (get_state (world c) s) = Some chain
  ∧ (∀ next_msg, PyStr.strip next_msg ≠ "" →
       let m' := PyStr.strip next_msg in
       let a' := answer_text (qa_run E chain m' (chroma w)).2 in
       let c' := chat_fn E s next_msg (world c) in
       tasks c' = [Finished]
       ∧ shown c' 0 = [history w s ++ [(m, text); (m', "⏳ …thinking…")];
                       history w s ++ [(m, text); (m', a')]]
       ∧ history (world c') s = history w s ++ [(m, text); (m', a')]).
Proof.
  intros Hchain Hhist Hraw Hfail m text c. subst m.
  destruct (chat_fn_solo E w s user_msg chain l Hchain Hhist Hraw)
    as (Ht & Hshown & Hh & Hs & Hc).
  fold c in Ht, Hshown, Hh, Hs, Hc. rewrite Hfail in Hshown, Hh.
  change (answer_text (Raise e)) with text in Hshown, Hh.
  assert (get_state (world c) s = get_state w s) as Hst
    by (unfold get_state; by rewrite Hs).
  split_and!; try done.
  - by rewrite Hst.
  - intros next_msg Hnext m' a' c'. subst m' a'.
    destruct (chat_fn_solo E (world c) s next_msg chain l) as (Ht' & Hshown' & Hh' & _);
      [by rewrite Hst..|done|].
    fold c' in Ht', Hshown', Hh'. rewrite Hc, Hh in Hshown', Hh'.
    repeat rewrite <-app_assoc in Hshown'. repeat rewrite <-app_assoc in Hh'.
    done.
Qed.

Lemma generation_failure_resolves_turn_witness :
  let E := Stub.env Stub.dead_llm in
  let w := (ingest_fn E 0 "a.example" 2 init_world).1 in
  st_qa_chain (get_state w 0) = Some (make_qa_chain "session-0")
  ∧ st_history (get_state w 0) = Some 0%nat
  ∧ PyStr.strip "hi" ≠ ""
  ∧ history (world (chat_fn E 0 "hi" w)) 0
    = [("hi", "⚠️ ConnectionError: ollama is not running")].
Proof.
  intros E w.
  assert (st_qa_chain (get_state w 0) = Some (make_qa_chain "session-0")) as Hchain
    by (vm_compute; reflexivity).
  assert (st_history (get_state w 0) = Some 0%nat) as Hhist
    by (vm_compute; reflexivity).
  assert (PyStr.strip "hi" ≠ "") as Hraw by (vm_compute; discriminate).
  split_and!; [exact Hchain | exact Hhist | exact Hraw |].
  destruct (generation_failure_resolves_turn E w 0 "hi" _ _
              (mkExn "ConnectionError" "ollama is not running")
              Hchain Hhist Hraw) as (_ & _ & Hh & _).
  { vm_compute. reflexivity. }
  rewrite Hh. vm_compute. reflexivity.
Defined.

(** ** Two sessions *)
Section TwoAsks.
Context (E : Collaborators) (w0 : World E).
Context (s1 : nat) (raw1 : string) (chain1 : QAChain) (l1 : nat).
Context (s2 : nat) (raw2 : string) (chain2 : QAChain) (l2 : nat).
Hypothesis Hchain1 : st_qa_chain (get_state w0 s1) = Some chain1.
Hypothesis Hhist1 : st_history (get_state w0 s1) = Some l1.
Hypothesis Hraw1 : PyStr.strip raw1 ≠ "".
Hypothesis Hchain2 : st_qa_chain (get_state w0 s2) = Some chain2.
Hypothesis Hhist2 : st_history (get_state w0 s2) = Some l2.
Hypothesis Hraw2 : PyStr.strip raw2 ≠ "".
Hypothesis Hlists : l1 ≠ l2.

Local Abbreviation track1 := (on_track w0 s1 raw1 chain1 l1).
Local Abbreviation track2 := (on_track w0 s2 raw2 chain2 l2).

Lemma turns_of_cons i sched k :
  turns_of (i :: sched) k
  = ((if decide (i = k) then 1 else 0) + turns_of sched k)%nat.
Proof.
  unfold turns_of. rewrite filter_cons. by destruct (decide (i = k)).
Qed.

(** Any interleaving of the two questions: each follows its own course,
    at the pace the schedule gives it. *)
Lemma run_two sched : ∀ (c : Config E) p q,
  same_sessions w0 c → track1 c 0%nat p → track2 c 1%nat q →
  length (tasks c) = 2%nat →
  same_sessions w0 (run E sched c)
  ∧ track1 (run E sched c) 0%nat (min 4 (p + turns_of sched 0))
  ∧ track2 (run E sched c) 1%nat (min 4 (q + turns_of sched 1))
  ∧ length (tasks (run E sched c)) = 2%nat.
Proof using All.
  induction sched as [|i sched IH]; intros c p q Hs T1 T2 Hlen.
  { cbn [run foldl]. unfold turns_of. cbn [filter list_filter length].
    rewrite !Nat.add_0_r.
    assert (∀ n, on_track w0 s1 raw1 chain1 l1 c 0 n →
                 on_track w0 s1 raw1 chain1 l1 c 0 (min 4 n)) as Hcap1.
    { intros n. destruct n as [|[|[|[|[|n]]]]]; done. }
    assert (∀ n, on_track w0 s2 raw2 chain2 l2 c 1 n →
                 on_track w0 s2 raw2 chain2 l2 c 1 (min 4 n)) as Hcap2.
    { intros n. destruct n as [|[|[|[|[|n]]]]]; done. }
    split_and!; auto. }
  cbn [run foldl]. fold (run E sched (step E c i)). rewrite !turns_of_cons.
  destruct i as [|[|i]].
  - (* the first question runs *)
    destruct (step_own E w0 s1 raw1 chain1 l1 Hchain1 Hhist1 Hraw1 c 0 p Hs T1)
      as (Hs' & T1' & Hlen' & Hheap & Hrest).
    destruct (Hrest 1%nat) as [Ht2 Hsh2]; [done|].
    assert (track2 (step E c 0) 1%nat q) as T2'.
    { destruct T2 as (? & Hc2 & ?). split_and!; [congruence| |congruence].
      unfold contents in *. by rewrite Hheap. }
    destruct (IH _ _ _ Hs' T1' T2') as (? & R1 & R2 & ?); [congruence|].
    rewrite decide_True by done. rewrite decide_False by done.
    split_and!; try done.
    replace (min 4 (p + (1 + turns_of sched 0)))
      with (min 4 (min 4 (S p) + turns_of sched 0)) by lia. done.
  - (* the second question runs *)
    destruct (step_own E w0 s2 raw2 chain2 l2 Hchain2 Hhist2 Hraw2 c 1 q Hs T2)
      as (Hs' & T2' & Hlen' & Hheap & Hrest).
    destruct (Hrest 0%nat) as [Ht1 Hsh1]; [done|].
    assert (track1 (step E c 1) 0%nat p) as T1'.
    { destruct T1 as (? & Hc1 & ?). split_and!; [congruence| |congruence].
      unfold contents in *. by rewrite Hheap. }
    destruct (IH _ _ _ Hs' T1' T2') as (? & R1 & R2 & ?); [congruence|].
    rewrite decide_False by done. rewrite decide_True by done.
    split_and!; try done.
    replace (min 4 (q + (1 + turns_of sched 1)))
      with (min 4 (min 4 (S q) + turns_of sched 1)) by lia. done.
  - (* there is no third task *)
    rewrite step_absent by (apply lookup_ge_None_2; lia).
    rewrite !decide_False by done. by apply IH.
Qed.

(** Both questions asked at once and awaited: each requester is shown
    what it would be shown were its question the only one. *)
Lemma chat_fn2_isolated sched :
  completes sched 0 → completes sched 1 →
  let c := run E sched (chat_fn2 E s1 raw1 s2 raw2 w0) in
  let m1 := PyStr.strip raw1 in
  let m2 := PyStr.strip raw2 in
  let a1 := answer_text (qa_run E chain1 m1 (chroma w0)).2 in
  let a2 := answer_text (qa_run E chain2 m2 (chroma w0)).2 in
  tasks c = [Finished; Finished]
  ∧ shown c 0 = [history w0 s1 ++ [(m1, PENDING)]; history w0 s1 ++ [(m1, a1)]]
  ∧ shown c 1 = [history w0 s2 ++ [(m2, PENDING)]; history w0 s2 ++ [(m2, a2)]]
  ∧ history (world c) s1 = history w0 s1 ++ [(m1, a1)]
  ∧ history (world c) s2 = history w0 s2 ++ [(m2, a2)]
  ∧ shown c 0 = shown (chat_fn E s1 raw1 w0) 0
  ∧ shown c 1 = shown (chat_fn E s2 raw2 w0) 0
  ∧ history (world c) s1 = history (world (chat_fn E s1 raw1 w0)) s1
  ∧ history (world c) s2 = history (world (chat_fn E s2 raw2 w0)) s2.
Proof using All.
  intros Hdone1 Hdone2 c m1 m2 a1 a2. unfold completes in *.
  destruct (run_two sched (chat_fn2 E s1 raw1 s2 raw2 w0) 0 0)
    as ([Hs Hc] & (Ht1 & Hl1 & Hsh1) & (Ht2 & Hl2 & Hsh2) & Hlen); try done.
  fold c in Hs, Hc, Ht1, Hl1, Hsh1, Ht2, Hl2, Hsh2, Hlen.
  rewrite Nat.add_0_l in Ht1, Hl1, Hsh1, Ht2, Hl2, Hsh2.
  rewrite Nat.min_l in Ht1, Hl1, Hsh1, Ht2, Hl2, Hsh2 by done.
  cbn [ask_task ask_hist ask_shown] in *.
  assert (history w0 s1 = contents w0 l1) as Hh1
    by (unfold history; by rewrite Hhist1).
  assert (history w0 s2 = contents w0 l2) as Hh2
    by (unfold history; by rewrite Hhist2).
  assert (history (world c) s1 = contents (world c) l1) as Hh1'.
  { unfold history, get_state. rewrite Hs. fold (get_state w0 s1).
    by rewrite Hhist1. }
  assert (history (world c) s2 = contents (world c) l2) as Hh2'.
  { unfold history, get_state. rewrite Hs. fold (get_state w0 s2).
    by rewrite Hhist2. }
  destruct (chat_fn_solo E w0 s1 raw1 chain1 l1 Hchain1 Hhist1 Hraw1)
    as (_ & Hsolo1 & Hsoloh1 & _).
  destruct (chat_fn_solo E w0 s2 raw2 chain2 l2 Hchain2 Hhist2 Hraw2)
    as (_ & Hsolo2 & Hsoloh2 & _).
  rewrite Hsolo1, Hsolo2, Hsoloh1, Hsoloh2, Hh1', Hh2', Hh1, Hh2.
  split_and!; try done.
  destruct (tasks c) as [|t [|t' [|t'' ts]]]; simplify_eq/=. done.
Qed.

End TwoAsks.

Section IsolationFacts.
Context (E : Collaborators).
Implicit Types (w : World E) (s : nat).

(** A query returns entries of the collection of its chain only. *)
Lemma retrieve_from_collection chain query
    (client : gmap string (Collection E)) docs :
  retrieve E chain query client = Return docs →
  ∀ d, d ∈ docs → ∃ e, (d, e) ∈ default [] (client !! qa_collection chain).
Proof.
  unfold retrieve.
  destruct (retriever_search E _ _ _) as [idxs|e]; [|done].
  intros [= <-] d Hd. apply subseteq_take in Hd.
  apply list_elem_of_omap in Hd as (i & _ & Hi).
  destruct (default [] (client !! qa_collection chain) !! i) as [[d' e]|] eqn:Hl;
    simplify_eq/=.
  exists e. by eapply list_elem_of_lookup_2.
Qed.

(** A query does not read any other collection. *)
Lemma retrieve_other_collection chain query
    (client : gmap string (Collection E)) name coll :
  name ≠ qa_collection chain →
  retrieve E chain query (<[name := coll]> client) = retrieve E chain query client.
Proof. intros Hne. unfold retrieve. by rewrite lookup_insert_ne. Qed.

Lemma has_chain_lookup w s chain :
  st_qa_chain (get_state w s) = Some chain →
  ∃ st, sessions w !! s = Some st ∧ st_qa_chain st = Some chain.
Proof.
  unfold get_state. destruct (sessions w !! s) as [st|]; [eauto|done].
Qed.

(** The identifier under which a session ingests is not the identifier
    of any other session. *)
Lemma setdefault_id_not_others w s s' st sid :
  wf_world w → s' ≠ s →
  sessions w !! s = Some st → st_id st = Some sid →
  (setdefault_id E s' w).1 ≠ sid.
Proof.
  intros Hwf Hne Hs Hid. unfold setdefault_id. cbn [fst].
  destruct (st_id (get_state w s')) as [sid'|] eqn:Hid'.
  - intros Heq. apply Hne. unfold get_state in Hid'.
    destruct (sessions w !! s') as [st'|] eqn:Hs'; [|done].
    cbn in Hid', Heq. subst sid'. by eapply (wf_id_inj _ _ Hwf).
  - intros Heq. cbn in Heq.
    destruct (wf_uuid _ _ Hwf _ _ _ Hs Hid) as (n & Hn & Hsid).
    rewrite Hsid in Heq. apply uuid4_str_inj in Heq. lia.
Qed.

(** An ingest of one session leaves the collection of every other
    session as it was. *)
Lemma ingest_fn_other_collection w s s' chain url depth :
  wf_world w → s' ≠ s →
  st_qa_chain (get_state w s) = Some chain →
  chroma (ingest_fn E s' url depth w).1 !! qa_collection chain
  = chroma w !! qa_collection chain.
Proof.
  intros Hwf Hne Hchain.
  destruct (has_chain_lookup _ _ _ Hchain) as (st & Hs & Hc).
  destruct (wf_chain _ _ Hwf _ _ _ Hs Hc) as (sid & Hid & -> & _).
  pose proof (setdefault_id_not_others w s s' st sid Hwf Hne Hs Hid) as Hsid.
  assert (collection_name (setdefault_id E s' w).1 ≠ collection_name sid) as Hname
    by (intros ?%collection_name_inj; done).
  cbn [qa_collection make_qa_chain].
  destruct (ingest_fn_cases E w s' url depth)
    as [Hurl|(Hurl & [[e Hload]|[Hload|(docs & Hload & Hdocs & [[e He]|(embs & He & Hchunks & Hlen)])]])].
  - by rewrite ingest_fn_blank.
  - by erewrite ingest_fn_crawl_failed.
  - by rewrite ingest_fn_no_pages.
  - erewrite ingest_fn_store_failed by done. cbn.
    by rewrite lookup_insert_ne.
  - erewrite ingest_fn_indexed by done. cbn.
    by rewrite lookup_insert_ne.
Qed.

End IsolationFacts.

(** C1.  Two sessions of a world the callbacks can produce, each with an
    index.  Their indexes are different collections.  A query on the
    chain of the first returns entries of its own collection only; it
    returns the same whatever the collection of the second holds, and
    whatever any other session ingests.  And when a question is asked on
    each at the same time, under every schedule that lets both calls run
    to their end, each requester is shown, and each history ends up
    with, exactly what a call on its own would give: the history of its
    own session followed by its own turn, first pending, then resolved
    with the answer drawn from its own collection.  The statement is
    symmetric in the two sessions. *)
Theorem session_isolation (E : Collaborators) (c0 : Config E)
    (s1 s2 : nat) (chain1 chain2 : QAChain) :
  reachable c0 →
  s1 ≠ s2 →
  st_qa_chain (get_state (world c0) s1) = Some chain1 →
  st_qa_chain (get_state (world c0) s2) = Some chain2 →
  let w := world c0 in
  qa_collection chain1 ≠ qa_collection chain2
  ∧ (∀ query docs,
       retrieve E chain1 query (chroma w) = Return docs →
       ∀ d, d ∈ docs → ∃ e, (d, e) ∈ default [] (chroma w !! qa_collection chain1))
  ∧ (∀ query coll,
       retrieve E chain1 query (<[qa_collection chain2 := coll]> (chroma w))
       = retrieve E chain1 query (chroma w))
  ∧ (∀ s' url depth query,
       s' ≠ s1 →
       retrieve E chain1 query (chroma (ingest_fn E s' url depth w).1)
       = retrieve E chain1 query (chroma w))
  ∧ (∀ msg1 msg2 sched,
       PyStr.strip msg1 ≠ "" → PyStr.strip msg2 ≠ "" →
       completes sched 0 → completes sched 1 →
       let c := run E sched (chat_fn2 E s1 msg1 s2 msg2 w) in
       let m1 := PyStr.strip msg1 in
       let m2 := PyStr.strip msg2 in
       let a1 := answer_text (qa_run E chain1 m1 (chroma w)).2 in
       let a2 := answer_text (qa_run E chain2 m2 (chroma w)).2 in
       tasks c = [Finished; Finished]
       ∧ shown c 0 = [history w s1 ++ [(m1, "⏳ …thinking…")];
                      history w s1 ++ [(m1, a1)]]
       ∧ shown c 1 = [history w s2 ++ [(m2, "⏳ …thinking…")];
                      history w s2 ++ [(m2, a2)]]
       ∧ history (world c) s1 = history w s1 ++ [(m1, a1)]
       ∧ history (world c) s2 = history w s2 ++ [(m2, a2)]
       ∧ shown c 0 = shown (chat_fn E s1 msg1 w) 0
       ∧ shown c 1 = shown (chat_fn E s2 msg2 w) 0
       ∧ history (world c) s1 = history (world (chat_fn E s1 msg1 w)) s1
       ∧ history (world c) s2 = history (world (chat_fn E s2 msg2 w)) s2).
Proof.
  intros Hreach Hne Hchain1 Hchain2 w.
  pose proof (reachable_wf E c0 Hreach) as Hwf. fold w in Hwf, Hchain1, Hchain2.
  destruct (has_chain_lookup E _ _ _ Hchain1) as (st1 & Hs1 & Hc1).
  destruct (has_chain_lookup E _ _ _ Hchain2) as (st2 & Hs2 & Hc2).
  destruct (wf_chain _ _ Hwf _ _ _ Hs1 Hc1) as (sid1 & Hid1 & Heq1 & [l1 Hl1]).
  destruct (wf_chain _ _ Hwf _ _ _ Hs2 Hc2) as (sid2 & Hid2 & Heq2 & [l2 Hl2]).
  assert (sid1 ≠ sid2) as Hsid.
  { intros <-. apply Hne. by eapply (wf_id_inj _ _ Hwf). }
  assert (l1 ≠ l2) as Hlists.
  { intros <-. apply Hne. by eapply (wf_hist_inj _ _ Hwf). }
  assert (qa_collection chain1 ≠ qa_collection chain2) as Hnames.
  { rewrite Heq1, Heq2. cbn. by intros ?%collection_name_inj. }
  split_and!.
  - done.
  - intros query docs. apply retrieve_from_collection.
  - intros query coll. by apply retrieve_other_collection.
  - intros s' url depth query Hne'. unfold retrieve.
    pose proof (ingest_fn_other_collection E w s1 s' chain1 url depth Hwf Hne' Hchain1)
      as Hsame.
    unfold Collection in *. by rewrite Hsame.
  - intros msg1 msg2 sched Hraw1 Hraw2 Hdone1 Hdone2.
    apply (chat_fn2_isolated E w s1 msg1 chain1 l1 s2 msg2 chain2 l2);
      try done.
    + by rewrite (get_state_lookup E _ _ _ Hs1).
    + by rewrite (get_state_lookup E _ _ _ Hs2).
Qed.

Lemma session_isolation_witness :
  let E := Stub.env Stub.chatty_llm in
  let c0 : Config E :=
    mkConfig (ingest_fn E 2 "b.example" 2 (ingest_fn E 1 "a.example" 1 init_world).1).1
             [] [] in
  reachable c0
  ∧ 1%nat ≠ 2%nat
  ∧ st_qa_chain (get_state (world c0) 1) = Some (make_qa_chain "session-0")
  ∧ st_qa_chain (get_state (world c0) 2) = Some (make_qa_chain "session-1")
  ∧ PyStr.strip "what?" ≠ "" ∧ PyStr.strip "why?" ≠ ""
  ∧ completes [1; 0; 0; 1; 1; 0; 1; 0]%nat 0
  ∧ completes [1; 0; 0; 1; 1; 0; 1; 0]%nat 1
  ∧ shown (run E [1; 0; 0; 1; 1; 0; 1; 0]%nat
             (chat_fn2 E 1 "what?" 2 "why?" (world c0))) 0
    = [[("what?", "⏳ …thinking…")]; [("what?", "re: what?")]].
Proof.
  intros E c0.
  assert (reachable c0) as Hreach.
  { apply (reach_ingest E (mkConfig (ingest_fn E 1 "a.example" 1 init_world).1 [] [])
             2 "b.example" 2).
    apply (reach_ingest E (mkConfig init_world [] []) 1 "a.example" 1).
    apply reach_init. }
  assert (st_qa_chain (get_state (world c0) 1) = Some (make_qa_chain "session-0"))
    as Hchain1 by (vm_compute; reflexivity).
  assert (st_qa_chain (get_state (world c0) 2) = Some (make_qa_chain "session-1"))
    as Hchain2 by (vm_compute; reflexivity).
  assert (PyStr.strip "what?" ≠ "") as Hraw1 by (vm_compute; discriminate).
  assert (PyStr.strip "why?" ≠ "") as Hraw2 by (vm_compute; discriminate).
  assert (completes [1; 0; 0; 1; 1; 0; 1; 0]%nat 0) as Hdone1
    by (vm_compute; lia).
  assert (completes [1; 0; 0; 1; 1; 0; 1; 0]%nat 1) as Hdone2
    by (vm_compute; lia).
  do 8 (split; [done|]).
  destruct (session_isolation E c0 1 2 _ _ Hreach ltac:(done) Hchain1 Hchain2)
    as (_ & _ & _ & _ & Hrun).
  destruct (Hrun "what?" "why?" _ Hraw1 Hraw2 Hdone1 Hdone2)
    as (_ & Hshown & _).
  rewrite Hshown. vm_compute. reflexivity.
Defined.

(** ** Two questions on one session *)

(** Whatever the collaborators, the world and the two questions: when
    the second call appends its pending turn before the first resumes
    from the executor, the first call resolves the turn of the second,
    and its own turn stays pending. *)
Lemma same_session_race (E : Collaborators) (w : World E) (s : nat)
    (raw1 raw2 : string) (chain : QAChain) (l : nat) :
  st_qa_chain (get_state w s) = Some chain →
  st_history (get_state w s) = Some l →
  PyStr.strip raw1 ≠ "" → PyStr.strip raw2 ≠ "" →
  let m1 := PyStr.strip raw1 in
  let m2 := PyStr.strip raw2 in
  let a1 := answer_text (qa_run E chain m1 (chroma w)).2 in
  let a2 := answer_text (qa_run E chain m2 (chroma w)).2 in
  let c := run E [0; 1; 0; 0; 0; 1; 1; 1]%nat (chat_fn2 E s raw1 s raw2 w) in
  tasks c = [Finished; Finished]
  ∧ shown c 0 = [history w s ++ [(m1, PENDING)];
                 history w s ++ [(m1, PENDING); (m1, a1)]]
  ∧ shown c 1 = [history w s ++ [(m1, PENDING); (m2, PENDING)];
                 history w s ++ [(m1, PENDING); (m2, a2)]]
  ∧ history (world c) s = history w s ++ [(m1, PENDING); (m2, a2)].
Proof.
  intros Hchain Hhist Hraw1 Hraw2 m1 m2 a1 a2 c.
  assert (history w s = contents w l) as Hh by (unfold history; by rewrite Hhist).
  pose proof (step_ask E w s raw1 chain l Hchain Hhist Hraw1) as ask1.
  pose proof (step_ask E w s raw2 chain l Hchain Hhist Hraw2) as ask2.
  fold m1 a1 in ask1. fold m2 a2 in ask2.
  set (h := contents w l) in *.
  set (c0 := chat_fn2 E s raw1 s raw2 w).
  assert (same_sessions w c0) as Hs0 by done.
  destruct (ask1 c0 0%nat 0%nat h Hs0 eq_refl eq_refl ltac:(done))
    as (Hs1 & Ht1 & Hl1 & Hown1 & Hoth1).
  set (c1 := step E c0 0) in *.
  destruct (ask2 c1 1%nat 0%nat _ Hs1 ltac:(by rewrite Ht1) Hl1 ltac:(done))
    as (Hs2 & Ht2 & Hl2 & Hown2 & Hoth2).
  set (c2 := step E c1 1) in *. rewrite Ht1 in Ht2.
  destruct (ask1 c2 0%nat 1%nat _ Hs2 ltac:(by rewrite Ht2) Hl2 ltac:(done))
    as (Hs3 & Ht3 & Hl3 & Hown3 & Hoth3).
  set (c3 := step E c2 0) in *. rewrite Ht2 in Ht3.
  destruct (ask1 c3 0%nat 2%nat _ Hs3 ltac:(by rewrite Ht3) Hl3 ltac:(done))
    as (Hs4 & Ht4 & Hl4 & Hown4 & Hoth4).
  set (c4 := step E c3 0) in *. rewrite Ht3 in Ht4.
  destruct (ask1 c4 0%nat 3%nat _ Hs4 ltac:(by rewrite Ht4) Hl4)
    as (Hs5 & Ht5 & Hl5 & Hown5 & Hoth5).
  { intros _. by destruct (h ++ [(m1, PENDING)]). }
  set (c5 := step E c4 0) in *. rewrite Ht4 in Ht5.
  destruct (ask2 c5 1%nat 1%nat _ Hs5 ltac:(by rewrite Ht5) Hl5 ltac:(done))
    as (Hs6 & Ht6 & Hl6 & Hown6 & Hoth6).
  set (c6 := step E c5 1) in *. rewrite Ht5 in Ht6.
  destruct (ask2 c6 1%nat 2%nat _ Hs6 ltac:(by rewrite Ht6) Hl6 ltac:(done))
    as (Hs7 & Ht7 & Hl7 & Hown7 & Hoth7).
  set (c7 := step E c6 1) in *. rewrite Ht6 in Ht7.
  destruct (ask2 c7 1%nat 3%nat _ Hs7 ltac:(by rewrite Ht7) Hl7)
    as (Hs8 & Ht8 & Hl8 & Hown8 & Hoth8).
  { intros _. rewrite set_last_snoc. by destruct (h ++ [(m1, PENDING)]). }
  change (step E c7 1) with c in *. rewrite Ht7 in Ht8.
  cbn [min] in *.
  assert (∀ x y z : Turn,
            <[(length ((h ++ [x]) ++ [y]) - 1)%nat := z]> ((h ++ [x]) ++ [y])
            = h ++ [x; z]) as Hlast.
  { intros x y z. by rewrite set_last_snoc, <-app_assoc. }
  assert (∀ x y z : Turn,
            <[(length (h ++ [x; y]) - 1)%nat := z]> (h ++ [x; y])
            = h ++ [x; z]) as Hlast2.
  { intros x y z. change (h ++ [x; y]) with (h ++ [x] ++ [y]).
    rewrite app_assoc. apply Hlast. }
  rewrite Hlast in Hown5, Hl5, Hl6, Hl7, Hl8, Hown8.
  rewrite Hlast2 in Hl8, Hown8.
  split_and!.
  - by rewrite Ht8.
  - rewrite (Hoth8 0%nat), (Hoth7 0%nat), (Hoth6 0%nat) by done.
    rewrite Hown5, Hown4, Hown3, (Hoth2 0%nat), Hown1, Hh by done.
    by rewrite !app_nil_r.
  - rewrite Hown8, Hown7, Hown6, (Hoth5 1%nat), (Hoth4 1%nat), (Hoth3 1%nat) by done.
    rewrite Hown2, (Hoth1 1%nat), Hh by done.
    rewrite !app_nil_r, <-(app_assoc h). done.
  - destruct Hs8 as [Hsess _].
    unfold history, get_state. rewrite Hsess. fold (get_state w s).
    by rewrite Hhist, Hl8.
Qed.

(** C2.  Two questions, [q1] then [q2], in flight on the same session,
    with the first call resuming before the second: each call shows its
    pending turn and later resolves [hist[-1]].  When the first call
    resumes, the last turn of the list is the pending turn of [q2]; the
    first call overwrites it, and the second call overwrites it again.
    The turn of [q1] is never resolved and its answer is not in the
    history. *)
Theorem concurrent_questions_on_one_session :
  let E := Stub.env Stub.chatty_llm in
  let w := (ingest_fn E 0 "a.example" 2 init_world).1 in
  let c := run E [0; 1; 0; 0; 0; 1; 1; 1]%nat (chat_fn2 E 0 "q1" 0 "q2" w) in
  st_qa_chain (get_state w 0) = Some (make_qa_chain "session-0")
  ∧ history w 0 = []
  ∧ tasks c = [Finished; Finished]
  ∧ shown c 0 = [[("q1", "⏳ …thinking…")];
                 [("q1", "⏳ …thinking…"); ("q1", "re: q1")]]
  ∧ shown c 1 = [[("q1", "⏳ …thinking…"); ("q2", "⏳ …thinking…")];
                 [("q1", "⏳ …thinking…"); ("q2", "re: q2")]]
  ∧ history (world c) 0 = [("q1", "⏳ …thinking…"); ("q2", "re: q2")]
  ∧ history (world (chat_fn E 0 "q2" (world (chat_fn E 0 "q1" w)))) 0
    = [("q1", "re: q1"); ("q2", "re: q2")].
Proof. vm_compute. by split_and!. Qed.

(** ** Ingesting twice *)

(** The second successful ingest of a session adds its chunks to the
    collection the first one filled: the identifier of the session, and
    so the name of the collection, is the same. *)
Lemma ingest_fn_indexed_collection (E : Collaborators) (w : World E) (s : nat)
    (url : string) (depth : Z) docs embs sid :
  PyStr.strip url ≠ "" →
  let target := with_scheme (PyStr.strip url) in
  let chunks := splitter_split E SPLITTER (set_source target <$> docs) in
  let name := collection_name sid in
  st_id (get_state w s) = Some sid →
  loader_load E (mkLoaderArgs target depth 10) = Return docs →
  docs ≠ [] →
  embed_documents E EMBED_MODEL (page_content <$> chunks) = Return embs →
  chunks ≠ [] →
  length embs = length chunks →
  let w' := (ingest_fn E s url depth w).1 in
  st_qa_chain (get_state w' s) = Some (make_qa_chain name)
  ∧ st_id (get_state w' s) = Some sid
  ∧ chroma w' !! name = Some (default [] (chroma w !! name) ++ zip chunks embs).
Proof.
  intros Hurl target chunks name Hid Hload Hdocs Hembed Hchunks Hlen w'. subst w'.
  erewrite ingest_fn_indexed by done. cbn [fst].
  rewrite get_state_set_state_eq.
  assert ((setdefault_id E s w).1 = sid) as ->
    by (unfold setdefault_id; cbn [fst]; by rewrite Hid).
  split_and!; [done..|]. cbn. by rewrite lookup_insert_eq.
Qed.

(** C6.  A session ingests one site and then another.  The second ingest
    succeeds and replaces the chain of the session, but the chain reads
    the same collection, which still holds the chunk of the first site:
    a query after the second ingest retrieves it, and it is part of the
    context of the prompt. *)
Theorem reingest_keeps_old_chunks :
  let E := Stub.env Stub.chatty_llm in
  let w1 := (ingest_fn E 0 "a.example" 2 init_world).1 in
  let w2 := (ingest_fn E 0 "b.example" 2 w1).1 in
  (ingest_fn E 0 "b.example" 2 w1).2
  = Return "✅ Indexed 1 page(s) from https://b.example. Ask away!"
  ∧ st_qa_chain (get_state w1 0) = Some (make_qa_chain "session-0")
  ∧ st_qa_chain (get_state w2 0) = Some (make_qa_chain "session-0")
  ∧ retrieve E (make_qa_chain "session-0") "what is beta?" (chroma w2)
    = Return [Stub.page "https://a.example" "alpha";
              Stub.page "https://b.example" "beta"]
  ∧ prompts (world (chat_fn E 0 "what is beta?" w2))
    = [Prompt.format ("alpha" +:+ PyStr.LF +:+ PyStr.LF +:+ "beta") "what is beta?"].
Proof. vm_compute. by split_and!. Qed.

(** * Further properties of the notebook *)

(** ** The start-up loop of cell 3 *)
Section WaitFacts.
Context (probe : nat → Probe).

Local Abbreviation failed := (λ j, probe j = Unreachable).

Lemma wait_loop_found i n sleeps k :
  (k < n)%nat →
  probe (i + k)%nat = Responds true →
  (∀ j, (j < k)%nat → probe (i + j)%nat ≠ Responds true) →
  wait_loop probe i n sleeps
  = (Return tt, S (i + k), (sleeps + length (filter failed (seq i k)))%nat).
Proof.
  revert i sleeps k. induction n as [|n IH]; intros i sleeps k Hk Hok Hfirst.
  { lia. }
  destruct k as [|k].
  - rewrite Nat.add_0_r in Hok |- *. cbn [wait_loop]. rewrite Hok.
    cbn. by rewrite Nat.add_0_r.
  - pose proof (Hfirst 0%nat ltac:(lia)) as H0. rewrite Nat.add_0_r in H0.
    assert (∀ j, (j < k)%nat → probe (S i + j)%nat ≠ Responds true) as Hfirst'.
    { intros j Hj. replace (S i + j)%nat with (i + S j)%nat by lia.
      apply Hfirst. lia. }
    assert (probe (S i + k)%nat = Responds true) as Hok'
      by (by replace (S i + k)%nat with (i + S k)%nat by lia).
    cbn [wait_loop seq]. rewrite filter_cons.
    destruct (probe i) as [[|]|] eqn:Hi; [done| |].
    + rewrite decide_False by done.
      rewrite (IH (S i) sleeps k) by (done || lia).
      f_equal; [f_equal|..]; lia.
    + rewrite decide_True by done.
      rewrite (IH (S i) (S sleeps) k) by (done || lia).
      cbn [length]. f_equal; [f_equal|..]; lia.
Qed.

Lemma wait_loop_exhausted i n sleeps :
  (∀ j, (j < n)%nat → probe (i + j)%nat ≠ Responds true) →
  wait_loop probe i n sleeps
  = (Raise (mkExn "RuntimeError" "❌ Ollama failed to start."),
     (i + n)%nat, (sleeps + length (filter failed (seq i n)))%nat).
Proof.
  revert i sleeps. induction n as [|n IH]; intros i sleeps Hnone.
  { cbn. by rewrite !Nat.add_0_r. }
  pose proof (Hnone 0%nat ltac:(lia)) as H0. rewrite Nat.add_0_r in H0.
  assert (∀ j, (j < n)%nat → probe (S i + j)%nat ≠ Responds true) as Hnone'.
  { intros j Hj. replace (S i + j)%nat with (i + S j)%nat by lia.
    apply Hnone. lia. }
  cbn [wait_loop seq]. rewrite filter_cons.
  destruct (probe i) as [[|]|] eqn:Hi; [done| |].
  - rewrite decide_False by done.
    rewrite (IH (S i) sleeps) by done. f_equal; [f_equal|..]; lia.
  - rewrite decide_True by done.
    rewrite (IH (S i) (S sleeps)) by done.
    cbn [length]. f_equal; [f_equal|..]; lia.
Qed.

End WaitFacts.

(** X1.  The server answers [ok] for the first time at attempt [k], one of
    the 20 attempts: the loop ends there without raising, after [k + 1]
    requests, and it has slept one second for each earlier attempt that
    met an exception, and not at all for an earlier response that was
    not [ok]. *)
Theorem wait_for_ollama_ready (probe : nat → Probe) (k : nat) :
  (k < 20)%nat →
  probe k = Responds true →
  (∀ j, (j < k)%nat → probe j ≠ Responds true) →
  wait_for_ollama probe = (Return tt, S k, failures_before probe k).
Proof.
  intros Hk Hok Hfirst. unfold wait_for_ollama, failures_before.
  by rewrite (wait_loop_found probe 0 20 0 k).
Qed.

Lemma wait_for_ollama_ready_witness :
  let probe := λ j, if decide (j < 2)%nat then Unreachable
                    else if decide (j = 2)%nat then Responds false
                    else Responds true in
  (3 < 20)%nat ∧ probe 3%nat = Responds true
  ∧ wait_for_ollama probe = (Return tt, 4%nat, 2%nat).
Proof.
  intros probe. split; [lia|]. split; [reflexivity|].
  rewrite (wait_for_ollama_ready probe 3); [reflexivity | lia | reflexivity |].
  intros j Hj. unfold probe.
  destruct j as [|[|[|j]]]; [done..|lia].
Defined.

(** X2.  No attempt of the 20 gets an [ok] response: the loop makes
    exactly 20 requests and then raises [RuntimeError("❌ Ollama failed
    to start.")]; it has slept once for each attempt that met an
    exception, so a server that answers every request with an error
    status is given no time at all. *)
Theorem wait_for_ollama_gives_up (probe : nat → Probe) :
  (∀ j, (j < 20)%nat → probe j ≠ Responds true) →
  wait_for_ollama probe
  = (Raise (mkExn "RuntimeError" "❌ Ollama failed to start."), 20%nat,
     failures_before probe 20)
  ∧ ((∀ j, (j < 20)%nat → probe j = Responds false) →
     failures_before probe 20 = 0%nat).
Proof.
  intros Hnone. split.
  - unfold wait_for_ollama, failures_before.
    by rewrite (wait_loop_exhausted probe 0 20 0).
  - intros Hbad. unfold failures_before.
    assert (∀ n, (n ≤ 20)%nat →
              filter (λ j, probe j = Unreachable) (seq 0 n) = []) as Hnil.
    { induction n as [|n IH]; intros Hn; [done|].
      rewrite seq_S, filter_app, IH by lia.
      rewrite filter_cons_False; [done|]. cbn. rewrite Hbad by lia. done. }
    by rewrite Hnil.
Qed.

Lemma wait_for_ollama_gives_up_witness :
  (∀ j, (j < 20)%nat → (λ _ : nat, Responds false) j ≠ Responds true)
  ∧ wait_for_ollama (λ _, Responds false)
    = (Raise (mkExn "RuntimeError" "❌ Ollama failed to start."), 20%nat, 0%nat).
Proof.
  assert (∀ j, (j < 20)%nat → (λ _ : nat, Responds false) j ≠ Responds true)
    as Hnone by done.
  split; [exact Hnone|].
  destruct (wait_for_ollama_gives_up (λ _, Responds false) Hnone) as [Hrun Hz].
  rewrite Hrun, Hz; done.
Defined.

(** ** Crawling and ingesting *)

(** X3.  The documents [crawl_website] returns are the documents of the
    loader, in the same order and with the same text; each has a
    ["source"] in its metadata, the one the loader gave it or else the
    root URL, and its other metadata are untouched. *)
Theorem crawl_website_sources (E : Collaborators) (root_url : string)
    (depth : Z) (docs : list Document) :
  crawl_website E root_url depth = Return docs →
  ∃ loaded,
    loader_load E (mkLoaderArgs root_url depth 10) = Return loaded
    ∧ length docs = length loaded
    ∧ ∀ i d, docs !! i = Some d →
        ∃ d0, loaded !! i = Some d0
              ∧ page_content d = page_content d0
              ∧ metadata d !! "source"
                = Some (default root_url (metadata d0 !! "source"))
              ∧ (metadata d0 !! "source" = None →
                 metadata d !! "source" = Some root_url)
              ∧ ∀ key, key ≠ "source" → metadata d !! key = metadata d0 !! key.
Proof.
  unfold crawl_website.
  destruct (loader_load E _) as [loaded|e]; [|done].
  intros [= <-]. exists loaded. split; [done|]. split; [by rewrite length_fmap|].
  intros i d Hd. rewrite list_lookup_fmap in Hd.
  destruct (loaded !! i) as [d0|]; [|done]. simplify_eq/=.
  exists d0. split_and!; try done.
  - by rewrite lookup_insert_eq.
  - intros Hnone. by rewrite lookup_insert_eq, Hnone.
  - intros key Hkey. by rewrite lookup_insert_ne.
Qed.

Lemma crawl_website_sources_witness :
  let E := Stub.env Stub.chatty_llm in
  crawl_website E "https://a.example" 2
  = Return [Stub.page "https://a.example" "alpha"]
  ∧ ∃ loaded, loader_load E (mkLoaderArgs "https://a.example" 2 10) = Return loaded
              ∧ length [Stub.page "https://a.example" "alpha"] = length loaded.
Proof.
  intros E.
  assert (crawl_website E "https://a.example" 2
          = Return [Stub.page "https://a.example" "alpha"]) as Hcrawl
    by (vm_compute; reflexivity).
  split; [exact Hcrawl|].
  destruct (crawl_website_sources E _ _ _ Hcrawl) as (loaded & Hload & Hlen & _).
  by exists loaded.
Defined.

Lemma startswith_app p s : PyStr.startswith (p +:+ s) p = true.
Proof.
  unfold PyStr.startswith. induction p as [|a p IH]; [by destruct s|].
  change (String a p +:+ s) with (String a (p +:+ s)). cbn.
  by destruct (ascii_dec a a).
Qed.

Lemma with_scheme_scheme (url : string) :
  PyStr.startswith (with_scheme url) "http://" = true
  ∨ PyStr.startswith (with_scheme url) "https://" = true.
Proof.
  unfold with_scheme.
  destruct (PyStr.startswith url "http://") eqn:H1; [by left|].
  destruct (PyStr.startswith url "https://") eqn:H2; [by right|].
  right. apply (startswith_app "https://").
Qed.

(** X4.  [ingest_fn] consults the loader at one place only: the stripped
    text of the URL box, with "https://" put in front unless it starts
    with "http://" or "https://" already, together with the depth it was
    given and the timeout 10.  So the URL it crawls always has a scheme;
    and what a loader does anywhere else, at the text as it was typed
    for one, makes no difference: with any other loader that agrees at
    that one place the ingest leaves the same world and returns the
    same. *)
Theorem ingest_fn_crawls_with_scheme (E : Collaborators)
    (load : LoaderArgs → py (list Document)) (w : World E) (s : nat)
    (url : string) (depth : Z) :
  let target := with_scheme (PyStr.strip url) in
  load (mkLoaderArgs target depth 10)
  = loader_load E (mkLoaderArgs target depth 10) →
  (PyStr.startswith target "http://" = true
   ∨ PyStr.startswith target "https://" = true)
  ∧ ingest_fn (Stub.with_loader E load) s url depth (with_loader_world load w)
    = (with_loader_world load (ingest_fn E s url depth w).1,
       (ingest_fn E s url depth w).2).
Proof.
  intros target Hload. split; [apply with_scheme_scheme|].
  unfold ingest_fn. case_decide; [reflexivity|].
  unfold crawl_website. cbn [loader_load Stub.with_loader]. fold target.
  rewrite Hload.
  destruct (loader_load E (mkLoaderArgs target depth 10)) as [docs|e];
    [|reflexivity].
  cbn [setdefault_id]. case_decide; [reflexivity|].
  unfold build_vectorstore, Chroma_from_documents, add_texts.
  cbn [embed_documents splitter_split Stub.with_loader with_loader_world chroma].
  destruct (embed_documents E EMBED_MODEL _) as [embs|e]; [|reflexivity].
  repeat case_decide; try reflexivity; exfalso; eauto.
Qed.

Lemma ingest_fn_crawls_with_scheme_witness :
  let E := Stub.env Stub.chatty_llm in
  Stub.strict_web (mkLoaderArgs "a.example" 2 10)
  = Raise (mkExn "MissingSchema" "Invalid URL: No scheme supplied")
  ∧ Stub.strict_web (mkLoaderArgs "https://a.example" 2 10)
    = loader_load E (mkLoaderArgs "https://a.example" 2 10)
  ∧ (ingest_fn (Stub.with_loader E Stub.strict_web) 0 " a.example " 2 init_world).2
    = Return "✅ Indexed 1 page(s) from https://a.example. Ask away!".
Proof.
  intros E.
  assert (Stub.strict_web (mkLoaderArgs (with_scheme (PyStr.strip " a.example ")) 2 10)
          = loader_load E (mkLoaderArgs (with_scheme (PyStr.strip " a.example ")) 2 10))
    as Hload by (vm_compute; reflexivity).
  split; [vm_compute; reflexivity|]. split; [exact Hload|].
  destruct (ingest_fn_crawls_with_scheme E Stub.strict_web init_world 0
              " a.example " 2 Hload) as [_ Heq].
  change (with_loader_world Stub.strict_web init_world)
    with (@init_world (Stub.with_loader E Stub.strict_web)) in Heq.
  rewrite Heq. vm_compute. reflexivity.
Defined.

Section MoreIngestFacts.
Context (E : Collaborators).
Implicit Types (w : World E) (s : nat).

Lemma contents_new_list w l :
  contents (new_list E w).2 l = contents w l.
Proof.
  unfold contents, new_list. cbn [snd set_heap heap].
  destruct (decide (fresh (dom (heap w)) = l)) as [<-|Hne].
  - rewrite lookup_insert_eq.
    pose proof (is_fresh (dom (heap w))) as Hfresh.
    apply not_elem_of_dom in Hfresh. by rewrite Hfresh.
  - by rewrite lookup_insert_ne.
Qed.

Lemma ingest_fn_other_session w s s' url depth :
  s' ≠ s →
  get_state (ingest_fn E s url depth w).1 s' = get_state w s'
  ∧ history (ingest_fn E s url depth w).1 s' = history w s'.
Proof.
  intros Hne.
  assert (get_state (setdefault_id E s w).2 s' = get_state w s') as Hst
    by (unfold get_state; by rewrite setdefault_id_other).
  destruct (ingest_fn_cases E w s url depth)
    as [Hurl|(Hurl & [[e Hload]|[Hload|(docs & Hload & Hdocs & [[e He]|(embs & He & Hchunks & Hlen)])]])].
  - by rewrite ingest_fn_blank.
  - erewrite ingest_fn_crawl_failed by done. cbn [fst]. unfold history.
    by rewrite Hst.
  - rewrite ingest_fn_no_pages by done. cbn [fst]. unfold history.
    by rewrite Hst.
  - erewrite ingest_fn_store_failed by done. cbn [fst].
    rewrite history_set_chroma. unfold history.
    change (get_state (set_chroma E ?c ?x) s') with (get_state x s').
    by rewrite Hst.
  - erewrite ingest_fn_indexed by done. cbn [fst].
    set (w2 := set_chroma E _ _).
    assert (get_state (new_list E w2).2 s' = get_state w s') as Hst2
      by exact Hst.
    unfold history. rewrite get_state_set_state_ne, Hst2 by done.
    split; [done|].
    destruct (st_history (get_state w s')) as [l|]; [|done].
    change (contents (new_list E w2).2 l = contents w l).
    by rewrite contents_new_list.
Qed.

End MoreIngestFacts.

(** X5.  The embedding of the chunks fails while the index is built.
    [build_vectorstore] is called outside the [try] of [ingest_fn], so
    the exception leaves the callback: no status is returned.  The
    session keeps the chain and the history it had, it has its
    identifier, and no collection of the vector store has gained an
    entry. *)
Theorem ingest_embedding_failure_raises (E : Collaborators) (w : World E)
    (s : nat) (url : string) (depth : Z) (docs : list Document) (e : Exn) :
  PyStr.strip url ≠ "" →
  let target := with_scheme (PyStr.strip url) in
  loader_load E (mkLoaderArgs target depth 10) = Return docs →
  docs ≠ [] →
  embed_documents E EMBED_MODEL
    (page_content <$> splitter_split E SPLITTER (set_source target <$> docs))
  = Raise e →
  let w' := (ingest_fn E s url depth w).1 in
  (ingest_fn E s url depth w).2 = Raise e
  ∧ st_qa_chain (get_state w' s) = st_qa_chain (get_state w s)
  ∧ history w' s = history w s
  ∧ st_id (get_state w' s)
    = Some (default (uuid4_str (uuids w)) (st_id (get_state w s)))
  ∧ ∀ name, default [] (chroma w' !! name) = default [] (chroma w !! name).
Proof.
  intros Hurl target Hload Hdocs Hembed w'. subst w'.
  erewrite ingest_fn_embed_failed by done. cbn [fst snd].
  destruct (setdefault_id_keeps E w s) as (Hq & _ & Hh & _).
  split_and!.
  - done.
  - exact Hq.
  - by rewrite history_set_chroma.
  - change (get_state (set_chroma E ?c ?x) s) with (get_state x s).
    by rewrite setdefault_id_state.
  - intros name. cbn [chroma set_chroma].
    set (mine := collection_name (setdefault_id E s w).1).
    destruct (decide (mine = name)) as [<-|Hne].
    + by rewrite lookup_insert_eq.
    + by rewrite lookup_insert_ne.
Qed.

Lemma ingest_embedding_failure_raises_witness :
  let E := without_embedder (Stub.env Stub.chatty_llm) in
  PyStr.strip "a.example" ≠ ""
  ∧ (ingest_fn E 0 "a.example" 2 init_world).2
    = Raise (mkExn "ConnectionError" "embedding service is down")
  ∧ st_qa_chain (get_state (ingest_fn E 0 "a.example" 2 init_world).1 0) = None.
Proof.
  intros E.
  assert (PyStr.strip "a.example" ≠ "") as Hurl by (vm_compute; discriminate).
  split; [exact Hurl|].
  pose proof (ingest_embedding_failure_raises E init_world 0 "a.example" 2
                [Stub.page "https://a.example" "alpha"]
                (mkExn "ConnectionError" "embedding service is down") Hurl) as H.
  cbv zeta in H.
  destruct H as (Hr & Hq & _); [vm_compute; reflexivity | done | reflexivity |].
  split; [exact Hr|]. rewrite Hq. reflexivity.
Defined.

(** X6.  An ingest on one session changes neither the state dict nor the
    history of any other session, whatever its outcome; and with a blank
    URL box it changes nothing at all and asks for a URL. *)
Theorem ingest_touches_own_session_only (E : Collaborators) (w : World E)
    (s s' : nat) (url : string) (depth : Z) :
  s' ≠ s →
  get_state (ingest_fn E s url depth w).1 s' = get_state w s'
  ∧ history (ingest_fn E s url depth w).1 s' = history w s'
  ∧ (PyStr.strip url = "" →
     ingest_fn E s url depth w = (w, Return "⚠️ Please enter a website URL.")).
Proof.
  intros Hne.
  destruct (ingest_fn_other_session E w s s' url depth Hne) as [Hst Hh].
  split_and!; [done..|]. apply ingest_fn_blank.
Qed.

Lemma ingest_touches_own_session_only_witness :
  let E := Stub.env Stub.chatty_llm in
  let w := world (chat_fn E 1 "hi" (ingest_fn E 1 "a.example" 2 init_world).1) in
  1%nat ≠ 2%nat
  ∧ history (ingest_fn E 2 "b.example" 2 w).1 1 = [("hi", "re: hi")]
  ∧ history (ingest_fn E 1 "b.example" 2 w).1 1 = [].
Proof.
  intros E w. split; [done|]. split.
  - destruct (ingest_touches_own_session_only E w 2 1 "b.example" 2 ltac:(done))
      as (_ & Hh & _).
    rewrite Hh. vm_compute. reflexivity.
  - vm_compute. reflexivity.
Defined.

(** X7.  Once a session has an identifier, it keeps it: no ingest, no
    clearing of a chat and no stretch of a question, on this session or
    on any other, changes it.  A successful ingest of the session
    builds its chain over the collection named after that identifier,
    every time. *)
Theorem session_id_is_kept (E : Collaborators) (w : World E) (s0 : nat)
    (sid : string) :
  st_id (get_state w s0) = Some sid →
  (∀ s url depth, st_id (get_state (ingest_fn E s url depth w).1 s0) = Some sid)
  ∧ (∀ s, st_id (get_state (clear_chat E s w) s0) = Some sid)
  ∧ (∀ t, st_id (get_state (task_step E t w).1.1 s0) = Some sid)
  ∧ (∀ url depth,
       indexed (ingest_fn E s0 url depth w).2 = true →
       st_qa_chain (get_state (ingest_fn E s0 url depth w).1 s0)
       = Some (make_qa_chain ("session-" +:+ sid))).
Proof.
  intros Hid.
  assert ((setdefault_id E s0 w).1 = sid) as Hsame
    by (unfold setdefault_id; cbn [fst]; by rewrite Hid).
  assert (st_id (get_state (setdefault_id E s0 w).2 s0) = Some sid) as Hid1
    by (by rewrite setdefault_id_state, Hsame).
  split_and!.
  - intros s url depth.
    destruct (decide (s0 = s)) as [<-|Hne];
      [|by destruct (ingest_fn_other_session E w s s0 url depth Hne) as [-> _]].
    destruct (ingest_fn_cases E w s0 url depth)
      as [Hurl|(Hurl & [[e Hload]|[Hload|(docs & Hload & Hdocs & [[e He]|(embs & He & Hchunks & Hlen)])]])].
    + by rewrite ingest_fn_blank.
    + by erewrite ingest_fn_crawl_failed.
    + by rewrite ingest_fn_no_pages.
    + by erewrite ingest_fn_store_failed.
    + erewrite ingest_fn_indexed by done. cbn [fst].
      by rewrite get_state_set_state_eq, Hsame.
  - intros s. unfold clear_chat.
    change (let '(l, w1) := new_list E w in
            set_state E s (mkState (st_id (get_state w s))
                             (st_qa_chain (get_state w s)) (Some l)) w1)
      with (set_state E s (mkState (st_id (get_state w s))
                             (st_qa_chain (get_state w s))
                             (Some (new_list E w).1)) (new_list E w).2).
    destruct (decide (s = s0)) as [->|Hne].
    + by rewrite get_state_set_state_eq.
    + by rewrite get_state_set_state_ne.
  - intros t. destruct (task_step E t w) as [[w' t'] out] eqn:Hstep.
    apply task_step_frame in Hstep as (Hs & _). cbn [fst].
    unfold get_state in *. by rewrite Hs.
  - intros url depth Hok.
    destruct (ingest_fn_cases E w s0 url depth)
      as [Hurl|(Hurl & [[e Hload]|[Hload|(docs & Hload & Hdocs & [[e He]|(embs & He & Hchunks & Hlen)])]])].
    + by rewrite ingest_fn_blank in Hok.
    + by erewrite ingest_fn_crawl_failed in Hok.
    + by rewrite ingest_fn_no_pages in Hok.
    + by erewrite ingest_fn_store_failed in Hok.
    + by destruct (ingest_fn_indexed_collection E w s0 url depth docs embs sid)
        as (Hq & _).
Qed.

Lemma session_id_is_kept_witness :
  let E := Stub.env Stub.chatty_llm in
  let w := (ingest_fn E 5 "nowhere.example" 2 init_world).1 in
  st_id (get_state w 5) = Some "0"
  ∧ st_qa_chain (get_state (ingest_fn E 5 "a.example" 2 w).1 5)
    = Some (make_qa_chain "session-0").
Proof.
  intros E w.
  assert (st_id (get_state w 5) = Some "0") as Hid by (vm_compute; reflexivity).
  split; [exact Hid|].
  destruct (session_id_is_kept E w 5 "0" Hid) as (_ & _ & _ & Hchain).
  apply Hchain. vm_compute. reflexivity.
Defined.

Lemma clear_chat_keeps (E : Collaborators) (w : World E) (s : nat) :
  let w' := clear_chat E s w in
  history w' s = []
  ∧ st_id (get_state w' s) = st_id (get_state w s)
  ∧ st_qa_chain (get_state w' s) = st_qa_chain (get_state w s)
  ∧ (∀ s', s' ≠ s → get_state w' s' = get_state w s'
                    ∧ history w' s' = history w s')
  ∧ chroma w' = chroma w
  ∧ ∀ l, contents w' l = contents w l.
Proof.
  intros w'. subst w'. unfold clear_chat.
  change (let '(l, w1) := new_list E w in
          set_state E s (mkState (st_id (get_state w s))
                           (st_qa_chain (get_state w s)) (Some l)) w1)
    with (set_state E s (mkState (st_id (get_state w s))
                           (st_qa_chain (get_state w s))
                           (Some (new_list E w).1)) (new_list E w).2).
  set (st' := mkState _ _ _).
  assert (∀ l, contents (set_state E s st' (new_list E w).2) l = contents w l)
    as Hlists.
  { intros l. change (contents (new_list E w).2 l = contents w l).
    apply contents_new_list. }
  split_and!.
  - unfold history. rewrite get_state_set_state_eq. cbn [st_history st'].
    rewrite Hlists. unfold contents.
    pose proof (new_list_fresh E w) as Hfresh.
    apply not_elem_of_dom in Hfresh. by rewrite Hfresh.
  - by rewrite get_state_set_state_eq.
  - by rewrite get_state_set_state_eq.
  - intros s' Hne. unfold history.
    rewrite get_state_set_state_ne by done.
    change (get_state (new_list E w).2 s') with (get_state w s').
    split; [done|].
    destruct (st_history (get_state w s')); [apply Hlists|done].
  - done.
  - done.
Qed.

(** X8.  [clear_chat] gives the session a new, empty history list.  The
    session keeps its identifier and its chain, the other sessions and
    the vector store are as they were, and no list that existed loses
    or gains a turn: the old history list is left as it is, for
    whoever still holds it. *)
Theorem clear_chat_empties_history_only (E : Collaborators) (w : World E)
    (s : nat) :
  let w' := clear_chat E s w in
  history w' s = []
  ∧ st_id (get_state w' s) = st_id (get_state w s)
  ∧ st_qa_chain (get_state w' s) = st_qa_chain (get_state w s)
  ∧ (∀ s', s' ≠ s → get_state w' s' = get_state w s'
                    ∧ history w' s' = history w s')
  ∧ chroma w' = chroma w
  ∧ ∀ l, contents w' l = contents w l.
Proof. apply clear_chat_keeps. Qed.

(** ** Questions: edges and compositions *)
Section MoreChatFacts.
Context (E : Collaborators).
Implicit Types (w : World E) (c : Config E) (s l : nat).

(** The first stretch of a question, on any world. *)
Lemma task_step_start w s raw :
  let m := PyStr.strip raw in
  let hist := default (new_list E w).1 (st_history (get_state w s)) in
  let w1 := match st_history (get_state w s) with
            | Some _ => w
            | None => (new_list E w).2
            end in
  task_step E (Start s raw) w
  = if decide (m = "") then (w1, Finished, Some (history w s))
    else match st_qa_chain (get_state w s) with
         | None => (list_append E hist (m, CRAWL_FIRST) w1, Finished,
                    Some (history w s ++ [(m, CRAWL_FIRST)]))
         | Some _ => (list_append E hist (m, PENDING) w1, Pending s m hist,
                      Some (history w s ++ [(m, PENDING)]))
         end.
Proof.
  intros m hist w1. subst m hist w1. cbn [task_step]. unfold history.
  destruct (st_history (get_state w s)) as [l|]; cbn [default].
  - case_decide; [done|].
    destruct (st_qa_chain (get_state w s));
      by rewrite contents_list_append.
  - change (new_list E w) with ((new_list E w).1, (new_list E w).2) at 1.
    cbn match.
    case_decide; [by rewrite new_list_contents|].
    destruct (st_qa_chain (get_state w s));
      by rewrite contents_list_append, new_list_contents.
Qed.

(** A suspended question goes on, whatever has happened to the session
    in the meantime, as long as the session has a chain: it works on
    the list it took when it started. *)
Lemma step_suspended (w0 : World E) s raw chain l c i p cur :
  st_qa_chain (get_state w0 s) = Some chain →
  let m := PyStr.strip raw in
  let a := answer_text (qa_run E chain m (chroma w0)).2 in
  same_sessions w0 c →
  (1 ≤ p)%nat →
  tasks c !! i = Some (ask_task s raw m l chain a p) →
  contents (world c) l = cur →
  (p = 3%nat → cur ≠ []) →
  let cur' := match p with
              | 3%nat => <[(length cur - 1)%nat := (m, a)]> cur
              | _ => cur
              end in
  let out := match p with 3%nat => [cur'] | _ => [] end in
  same_sessions w0 (step E c i)
  ∧ tasks (step E c i) = <[i := ask_task s raw m l chain a (min 4 (S p))]> (tasks c)
  ∧ contents (world (step E c i)) l = cur'
  ∧ (∀ l', l' ≠ l → contents (world (step E c i)) l' = contents (world c) l')
  ∧ shown (step E c i) i = shown c i ++ out
  ∧ jobs (world (step E c i))
    = jobs (world c) ++ (if decide (p = 1%nat) then [(chain, m)] else [])
  ∧ prompts (world (step E c i))
    = prompts (world c)
      ++ (if decide (p = 2%nat) then (qa_run E chain m (chroma w0)).1 else []).
Proof.
  intros Hchain m a [Hs Hc] Hp Ht Hl Hne cur' out.
  assert (get_state (world c) s = get_state w0 s) as Hst
    by (unfold get_state; by rewrite Hs).
  assert (∃ w' o,
    task_step E (ask_task s raw m l chain a p) (world c)
    = (w', ask_task s raw m l chain a (min 4 (S p)), o)
    ∧ sessions w' = sessions (world c) ∧ chroma w' = chroma (world c)
    ∧ contents w' l = cur' ∧ option_list o = out
    ∧ (∀ l', l' ≠ l → contents w' l' = contents (world c) l')
    ∧ jobs w' = jobs (world c) ++ (if decide (p = 1%nat) then [(chain, m)] else [])
    ∧ prompts w' = prompts (world c)
        ++ (if decide (p = 2%nat) then (qa_run E chain m (chroma w0)).1 else []))
    as (w' & o & Hstep & Hs' & Hc' & Hl' & Ho & Hoth & Hj & Hpr).
  { subst cur' out.
    destruct p as [|[|[|[|p]]]]; [lia|..]; cbn [ask_task min task_step].
    - rewrite Hst, Hchain. eexists _, _. split; [reflexivity|].
      cbn. by rewrite app_nil_r.
    - unfold qa_invoke. rewrite Hc. subst a.
      destruct (qa_run E chain m (chroma w0)) as [sent res] eqn:Hrun.
      eexists _, _. split; [reflexivity|]. cbn. by rewrite app_nil_r.
    - rewrite Hl. rewrite decide_False by auto.
      eexists _, _. split; [reflexivity|].
      unfold set_heap, contents. cbn [heap sessions chroma jobs prompts].
      rewrite lookup_insert_eq, !app_nil_r. split_and!; try done.
      intros l' Hl'. by rewrite lookup_insert_ne.
    - eexists _, _. split; [reflexivity|]. cbn. by rewrite !app_nil_r. }
  unfold step. rewrite Ht, Hstep. cbn [world tasks]. split_and!; try done.
  - split; cbn [world]; congruence.
  - by rewrite shown_app, shown_own, Ho.
Qed.

End MoreChatFacts.

Section EdgeFacts.
Context (E : Collaborators).
Implicit Types (w : World E) (c : Config E) (s l : nat).

Lemma step_finished_id c i : tasks c !! i = Some Finished → step E c i = c.
Proof.
  intros Ht. unfold step. rewrite Ht. destruct c as [w ts outs].
  cbn in *. by rewrite list_insert_id, app_nil_r.
Qed.

(** A call that ends at its first [yield]. *)
Lemma chat_fn_ends_at_once w s raw w' out :
  task_step E (Start s raw) w = (w', Finished, out) →
  chat_fn E s raw w = mkConfig w' [Finished] (pair 0%nat <$> option_list out).
Proof.
  intros Hstep. unfold chat_fn, run. cbn [foldl].
  assert (step E (mkConfig w [Start s raw] []) 0
          = mkConfig w' [Finished] (pair 0%nat <$> option_list out)) as ->.
  { unfold step. cbn [tasks lookup list_lookup world]. by rewrite Hstep. }
  by rewrite !step_finished_id.
Qed.

Lemma shown_single w ts (x : list Turn) :
  shown (mkConfig w ts (pair 0%nat <$> option_list (Some x))) 0 = [x].
Proof.
  unfold shown. cbn [outputs].
  change (pair 0%nat <$> option_list (Some x)) with [(0%nat, x)].
  by rewrite filter_cons_True.
Qed.

Lemma history_list_append_other w s l turn :
  st_history (get_state w s) ≠ Some l →
  history (list_append E l turn w) s = history w s.
Proof.
  intros Hne. unfold history.
  change (get_state (list_append E l turn w) s) with (get_state w s).
  destruct (st_history (get_state w s)) as [l'|]; [|done].
  unfold list_append, set_heap, contents. cbn [heap].
  rewrite lookup_insert_ne; [done|congruence].
Qed.

Lemma chat_fn_blank w s raw :
  PyStr.strip raw = "" →
  ∃ w', chat_fn E s raw w = mkConfig w' [Finished] [(0%nat, history w s)]
        ∧ sessions w' = sessions w ∧ chroma w' = chroma w
        ∧ jobs w' = jobs w ∧ prompts w' = prompts w
        ∧ ∀ l, contents w' l = contents w l.
Proof.
  intros Hblank. pose proof (task_step_start E w s raw) as Hstep.
  cbv zeta in Hstep. rewrite decide_True in Hstep by done.
  rewrite (chat_fn_ends_at_once _ _ _ _ _ Hstep).
  eexists. split; [reflexivity|].
  destruct (st_history (get_state w s)); [done|].
  split_and!; try done. apply contents_new_list.
Qed.

Lemma chat_fn_no_index w s raw :
  st_qa_chain (get_state w s) = None →
  PyStr.strip raw ≠ "" →
  let turn := (PyStr.strip raw, CRAWL_FIRST) in
  ∃ w', chat_fn E s raw w
        = mkConfig w' [Finished] [(0%nat, history w s ++ [turn])]
        ∧ sessions w' = sessions w
        ∧ history w' s
          = match st_history (get_state w s) with
            | Some _ => history w s ++ [turn]
            | None => []
            end.
Proof.
  intros Hchain Hraw turn. pose proof (task_step_start E w s raw) as Hstep.
  cbv zeta in Hstep. rewrite decide_False, Hchain in Hstep by done.
  rewrite (chat_fn_ends_at_once _ _ _ _ _ Hstep).
  eexists. split; [reflexivity|]. split; [by destruct (st_history _)|].
  unfold history at 1.
  change (get_state (list_append E ?l ?t ?x) s) with (get_state x s).
  destruct (st_history (get_state w s)) as [l|] eqn:Hl; cbn [default].
  - rewrite Hl. rewrite contents_list_append. unfold history. by rewrite Hl.
  - change (get_state (new_list E w).2 s) with (get_state w s). by rewrite Hl.
Qed.

End EdgeFacts.

(** X9.  A question whose text is empty or only white space: the call
    ends at its first [yield] and shows the history as it is.  No turn
    is added, no job is submitted and no prompt sent; the session dicts
    (also the one of this session: no ["history"] key appears), the
    vector store and every list are as they were. *)
Theorem blank_question_adds_no_turn (E : Collaborators) (w : World E)
    (s : nat) (user_msg : string) :
  PyStr.strip user_msg = "" →
  let c := chat_fn E s user_msg w in
  tasks c = [Finished]
  ∧ shown c 0 = [history w s]
  ∧ history (world c) s = history w s
  ∧ sessions (world c) = sessions w
  ∧ chroma (world c) = chroma w
  ∧ jobs (world c) = jobs w
  ∧ prompts (world c) = prompts w
  ∧ ∀ l, contents (world c) l = contents w l.
Proof.
  intros Hblank c. subst c.
  destruct (chat_fn_blank E w s user_msg Hblank)
    as (w' & -> & Hs & Hc & Hj & Hp & Hl).
  cbn [world tasks]. split_and!; try done.
  unfold history, get_state. rewrite Hs.
  destruct (st_history _); [apply Hl|done].
Qed.

Lemma blank_question_adds_no_turn_witness :
  let E := Stub.env Stub.chatty_llm in
  let w := world (chat_fn E 0 "hi" (ingest_fn E 0 "a.example" 2 init_world).1) in
  PyStr.strip "   " = ""
  ∧ shown (chat_fn E 0 "   " w) 0 = [[("hi", "re: hi")]].
Proof.
  intros E w.
  assert (PyStr.strip "   " = "") as Hblank by (vm_compute; reflexivity).
  split; [exact Hblank|].
  destruct (blank_question_adds_no_turn E w 0 "   " Hblank) as (_ & Hshown & _).
  rewrite Hshown. vm_compute. reflexivity.
Defined.

(** X10.  The guidance turn of a question asked without an index is put
    on the list that [state.get("history", [])] returns.  When the state
    has no ["history"] key, that list is a new one that the state never
    gets: the turn is shown but the history of the session stays empty,
    and the next question is shown its own guidance turn alone.  When
    the state has the key (the chat was cleared before), the turn is
    added to the history. *)
Theorem guidance_turn_needs_history_key (E : Collaborators) (w : World E)
    (s : nat) (user_msg : string) :
  st_qa_chain (get_state w s) = None →
  PyStr.strip user_msg ≠ "" →
  let turn := (PyStr.strip user_msg, "⚠️ Crawl a website first.") in
  let c := chat_fn E s user_msg w in
  (st_history (get_state w s) = None →
   shown c 0 = [[turn]]
   ∧ history (world c) s = []
   ∧ st_history (get_state (world c) s) = None
   ∧ ∀ next_msg, PyStr.strip next_msg ≠ "" →
       shown (chat_fn E s next_msg (world c)) 0
       = [[(PyStr.strip next_msg, "⚠️ Crawl a website first.")]])
  ∧ (∀ l, st_history (get_state w s) = Some l →
       shown c 0 = [history w s ++ [turn]]
       ∧ history (world c) s = history w s ++ [turn]).
Proof.
  intros Hchain Hraw turn c. subst c.
  destruct (chat_fn_no_index E w s user_msg Hchain Hraw)
    as (w' & Hc & Hs & Hh).
  rewrite Hc. cbn [world].
  assert (get_state w' s = get_state w s) as Hst
    by (unfold get_state; by rewrite Hs).
  split.
  - intros Hnone. rewrite Hnone in Hh.
    assert (history w s = []) as Hempty by (unfold history; by rewrite Hnone).
    rewrite Hempty. split_and!.
    + by apply (shown_single E).
    + done.
    + by rewrite Hst.
    + intros next_msg Hnext.
      destruct (chat_fn_no_index E w' s next_msg) as (w'' & -> & _);
        [by rewrite Hst|done|].
      rewrite Hh. by apply (shown_single E).
  - intros l Hl. rewrite Hl in Hh. split; [|done].
    by apply (shown_single E).
Qed.

Lemma guidance_turn_needs_history_key_witness :
  let E := Stub.env Stub.chatty_llm in
  st_qa_chain (get_state (@init_world E) 3) = None
  ∧ PyStr.strip "one" ≠ ""
  ∧ history (world (chat_fn E 3 "one" init_world)) 3 = []
  ∧ history (world (chat_fn E 3 "one" (clear_chat E 3 init_world))) 3
    = [("one", "⚠️ Crawl a website first.")].
Proof.
  intros E.
  assert (PyStr.strip "one" ≠ "") as Hraw by (vm_compute; discriminate).
  split; [reflexivity|]. split; [exact Hraw|]. split.
  - destruct (guidance_turn_needs_history_key E init_world 3 "one" eq_refl Hraw)
      as [Hnone _].
    by destruct (Hnone eq_refl) as (_ & Hh & _).
  - destruct (guidance_turn_needs_history_key E (clear_chat E 3 init_world) 3
                "one" eq_refl Hraw) as [_ Hsome].
    destruct (Hsome 0%nat eq_refl) as (_ & Hh).
    rewrite Hh. vm_compute. reflexivity.
Defined.

Section InFlightFacts.
Context (E : Collaborators).
Implicit Types (w : World E) (c : Config E) (s l : nat).

(** No ingest changes the contents of a list. *)
Lemma ingest_fn_contents w s url depth l :
  contents (ingest_fn E s url depth w).1 l = contents w l.
Proof.
  destruct (ingest_fn_cases E w s url depth)
    as [Hurl|(Hurl & [[e Hload]|[Hload|(docs & Hload & Hdocs & [[e He]|(embs & He & Hchunks & Hlen)])]])].
  - by rewrite ingest_fn_blank.
  - by erewrite ingest_fn_crawl_failed.
  - by rewrite ingest_fn_no_pages.
  - by erewrite ingest_fn_store_failed.
  - erewrite ingest_fn_indexed by done. cbn [fst].
    set (w2 := set_chroma E _ _).
    change (contents (new_list E w2).2 l = contents w l).
    by rewrite contents_new_list.
Qed.

(** After a successful ingest the session has a chain and a new, empty
    history list. *)
Lemma ingest_fn_indexed_state w s url depth :
  indexed (ingest_fn E s url depth w).2 = true →
  ∃ chain l',
    st_qa_chain (get_state (ingest_fn E s url depth w).1 s) = Some chain
    ∧ st_history (get_state (ingest_fn E s url depth w).1 s) = Some l'
    ∧ l' ∉ dom (heap w).
Proof.
  intros Hok.
  destruct (ingest_fn_cases E w s url depth)
    as [Hurl|(Hurl & [[e Hload]|[Hload|(docs & Hload & Hdocs & [[e He]|(embs & He & Hchunks & Hlen)])]])].
  - by rewrite ingest_fn_blank in Hok.
  - by erewrite ingest_fn_crawl_failed in Hok.
  - by rewrite ingest_fn_no_pages in Hok.
  - by erewrite ingest_fn_store_failed in Hok.
  - erewrite ingest_fn_indexed by done. cbn [fst].
    rewrite get_state_set_state_eq. eexists _, _. split_and!; [done..|].
    set (w2 := set_chroma E _ _).
    apply (new_list_fresh E w2).
Qed.

(** A question that has shown its pending turn, resumed in the world
    [w']: it submits one job with the chain the session has by then,
    sends what the chain sends, overwrites the last entry of its list
    and shows the list. *)
Lemma question_resumed w' s raw chain l outs :
  st_qa_chain (get_state w' s) = Some chain →
  contents w' l ≠ [] →
  let m := PyStr.strip raw in
  let a := answer_text (qa_run E chain m (chroma w')).2 in
  let cur' := <[(length (contents w' l) - 1)%nat := (m, a)]> (contents w' l) in
  let c1 := mkConfig w' [Pending s m l] outs in
  let c := run E [0; 0; 0]%nat c1 in
  tasks c = [Finished]
  ∧ shown c 0 = shown c1 0 ++ [cur']
  ∧ contents (world c) l = cur'
  ∧ (∀ l', l' ≠ l → contents (world c) l' = contents w' l')
  ∧ sessions (world c) = sessions w'
  ∧ chroma (world c) = chroma w'
  ∧ jobs (world c) = jobs w' ++ [(chain, m)]
  ∧ prompts (world c) = prompts w' ++ (qa_run E chain m (chroma w')).1.
Proof.
  intros Hchain Hne m a cur' c1 c.
  pose proof (step_suspended E w' s raw chain l) as Hstep.
  specialize (Hstep c1 0%nat 1%nat (contents w' l) Hchain ltac:(done)
                ltac:(lia) eq_refl eq_refl ltac:(done)).
  cbv zeta in Hstep. fold m a in Hstep.
  destruct Hstep as (S1 & T1 & L1 & O1 & H1 & J1 & P1).
  set (c2 := step E c1 0) in *.
  pose proof (step_suspended E w' s raw chain l c2 0%nat 2%nat (contents w' l)
                Hchain S1 ltac:(lia) ltac:(by rewrite T1) L1 ltac:(done))
    as Hstep.
  cbv zeta in Hstep. fold m a in Hstep.
  destruct Hstep as (S2 & T2 & L2 & O2 & H2 & J2 & P2).
  set (c3 := step E c2 0) in *. rewrite T1 in T2.
  pose proof (step_suspended E w' s raw chain l c3 0%nat 3%nat (contents w' l)
                Hchain S2 ltac:(lia) ltac:(by rewrite T2) L2 ltac:(done))
    as Hstep.
  cbv zeta in Hstep. fold m a cur' in Hstep.
  destruct Hstep as (S3 & T3 & L3 & O3 & H3 & J3 & P3).
  change (step E c3 0) with c in *. rewrite T2 in T3.
  destruct S3 as [Hs Hc].
  cbn [decide_rel] in *.
  rewrite decide_True in J1 by done. rewrite decide_False in P1 by done.
  rewrite decide_False in J2 by done. rewrite decide_True in P2 by done.
  rewrite decide_False in J3 by done. rewrite decide_False in P3 by done.
  split_and!; try done.
  - by rewrite H3, H2, H1, !app_nil_r.
  - intros l' Hl'. by rewrite O3, O2, O1.
  - by rewrite J3, J2, J1, !app_nil_r.
  - by rewrite P3, P2, P1, !app_nil_r.
Qed.

(** The whole course of a question on a session with an index, with what
    it logs. *)
Lemma chat_fn_solo_log w s raw chain l :
  st_qa_chain (get_state w s) = Some chain →
  st_history (get_state w s) = Some l →
  PyStr.strip raw ≠ "" →
  let m := PyStr.strip raw in
  let a := answer_text (qa_run E chain m (chroma w)).2 in
  let c := chat_fn E s raw w in
  tasks c = [Finished]
  ∧ shown c 0 = [history w s ++ [(m, PENDING)]; history w s ++ [(m, a)]]
  ∧ history (world c) s = history w s ++ [(m, a)]
  ∧ sessions (world c) = sessions w
  ∧ chroma (world c) = chroma w
  ∧ jobs (world c) = jobs w ++ [(chain, m)]
  ∧ prompts (world c) = prompts w ++ (qa_run E chain m (chroma w)).1
  ∧ ∀ l', l' ≠ l → contents (world c) l' = contents w l'.
Proof.
  intros Hchain Hhist Hraw m a c.
  pose proof (task_step_start E w s raw) as Hstart. cbv zeta in Hstart.
  rewrite decide_False, Hchain, Hhist in Hstart by done. cbn [default] in Hstart.
  fold m in Hstart.
  set (w1 := list_append E l (m, PENDING) w) in *.
  assert (history w s = contents w l) as Hh by (unfold history; by rewrite Hhist).
  assert (contents w1 l = history w s ++ [(m, PENDING)]) as Hl1
    by (unfold w1; by rewrite contents_list_append, Hh).
  assert (c = run E [0; 0; 0]%nat
                (mkConfig w1 [Pending s m l]
                   [(0%nat, history w s ++ [(m, PENDING)])])) as Hc.
  { unfold c, chat_fn, run. cbn [foldl]. unfold step at 4.
    cbn [tasks lookup list_lookup world]. by rewrite Hstart. }
  destruct (question_resumed w1 s raw chain l
              [(0%nat, history w s ++ [(m, PENDING)])])
    as (Ht & Hsh & Hl & Hoth & Hs & Hcr & Hj & Hp).
  { done. }
  { rewrite Hl1. by destruct (history w s). }
  fold m in Ht, Hsh, Hl, Hoth, Hs, Hcr, Hj, Hp. rewrite <-Hc in *.
  change (chroma w1) with (chroma w) in *. fold a in Hsh, Hl.
  rewrite Hl1, set_last_snoc in Hsh, Hl.
  split_and!; try done.
  - unfold history, get_state. rewrite Hs.
    change (sessions w1) with (sessions w). fold (get_state w s).
    rewrite Hhist, <-Hh. exact Hl.
  - intros l' Hl'. rewrite Hoth by done. unfold w1, list_append, set_heap, contents.
    cbn [heap]. by rewrite lookup_insert_ne.
Qed.

End InFlightFacts.

Section InFlightTheorems.
Context (E : Collaborators).
Implicit Types (w : World E) (c : Config E) (s l : nat).

Lemma first_yield w s raw chain l :
  st_qa_chain (get_state w s) = Some chain →
  st_history (get_state w s) = Some l →
  PyStr.strip raw ≠ "" →
  let m := PyStr.strip raw in
  step E (mkConfig w [Start s raw] []) 0
  = mkConfig (list_append E l (m, PENDING) w) [Pending s m l]
             [(0%nat, history w s ++ [(m, PENDING)])].
Proof.
  intros Hchain Hhist Hraw m.
  pose proof (task_step_start E w s raw) as Hstart. cbv zeta in Hstart.
  rewrite decide_False, Hchain, Hhist in Hstart by done.
  unfold step. cbn [tasks lookup list_lookup world]. by rewrite Hstart.
Qed.

(** The history of the session is empty in [w'] and the question works
    on another list: it is still empty when the question is over. *)
Lemma history_stays_empty w' c s l :
  history w' s = [] → contents w' l ≠ [] →
  sessions (world c) = sessions w' →
  (∀ l', l' ≠ l → contents (world c) l' = contents w' l') →
  history (world c) s = [].
Proof.
  intros Hempty Hne Hs Hoth. unfold history, get_state in *. rewrite Hs.
  destruct (st_history (default empty_state (sessions w' !! s))) as [l'|];
    [|done].
  destruct (decide (l' = l)) as [->|Hneq]; [done|].
  by rewrite Hoth.
Qed.

End InFlightTheorems.

(** X11.  The chat is cleared while a question is waiting for its answer
    (after its pending turn was shown).  The call still resolves its
    turn, on the list it took at its start, and shows that list: the
    requester sees the old conversation with the answer.  The history
    of the session is the new, empty list: the answer is not in it. *)
Theorem clear_chat_during_question (E : Collaborators) (w : World E)
    (s : nat) (user_msg : string) (chain : QAChain) (l : nat) :
  st_qa_chain (get_state w s) = Some chain →
  st_history (get_state w s) = Some l →
  PyStr.strip user_msg ≠ "" →
  let m := PyStr.strip user_msg in
  let a := answer_text (qa_run E chain m (chroma w)).2 in
  let c1 := step E (mkConfig w [Start s user_msg] []) 0 in
  let c := run E [0; 0; 0]%nat (clear_during s c1) in
  tasks c = [Finished]
  ∧ shown c 0 = [history w s ++ [(m, "⏳ …thinking…")]; history w s ++ [(m, a)]]
  ∧ contents (world c) l = history w s ++ [(m, a)]
  ∧ history (world c) s = [].
Proof.
  intros Hchain Hhist Hraw m a c1 c. subst c c1.
  rewrite (first_yield E w s user_msg chain l) by done. fold m.
  set (w1 := list_append E l (m, PENDING) w).
  assert (history w s = contents w l) as Hh by (unfold history; by rewrite Hhist).
  assert (contents w1 l = history w s ++ [(m, PENDING)]) as Hl1
    by (unfold w1; by rewrite contents_list_append, Hh).
  destruct (clear_chat_keeps E w1 s) as (Hempty & _ & Hq & _ & Hcr & Hlists).
  unfold clear_during. cbn [world tasks outputs].
  set (w' := clear_chat E s w1) in *.
  assert (contents w' l ≠ []) as Hne.
  { rewrite Hlists, Hl1. by destruct (history w s). }
  destruct (question_resumed E w' s user_msg chain l
              [(0%nat, history w s ++ [(m, PENDING)])])
    as (Ht & Hsh & Hl & Hoth & Hs & _); [by rewrite Hq|done|].
  fold m in Ht, Hsh, Hl, Hoth, Hs.
  rewrite Hcr in Hsh, Hl. change (chroma w1) with (chroma w) in Hsh, Hl.
  fold a in Hsh, Hl. rewrite Hlists, Hl1, set_last_snoc in Hsh, Hl.
  split_and!; try done.
  by apply (history_stays_empty E w' _ s l).
Qed.

Lemma clear_chat_during_question_witness :
  let E := Stub.env Stub.chatty_llm in
  let w := (ingest_fn E 0 "a.example" 2 init_world).1 in
  let c := run E [0; 0; 0]%nat
             (clear_during 0 (step E (mkConfig w [Start 0 "hi"] []) 0)) in
  st_qa_chain (get_state w 0) = Some (make_qa_chain "session-0")
  ∧ st_history (get_state w 0) = Some 0%nat
  ∧ PyStr.strip "hi" ≠ ""
  ∧ shown c 0 = [[("hi", "⏳ …thinking…")]; [("hi", "re: hi")]]
  ∧ history (world c) 0 = [].
Proof.
  intros E w c.
  assert (st_qa_chain (get_state w 0) = Some (make_qa_chain "session-0")) as Hchain
    by (vm_compute; reflexivity).
  assert (st_history (get_state w 0) = Some 0%nat) as Hhist
    by (vm_compute; reflexivity).
  assert (PyStr.strip "hi" ≠ "") as Hraw by (vm_compute; discriminate).
  do 3 (split; [done|]).
  destruct (clear_chat_during_question E w 0 "hi" _ _ Hchain Hhist Hraw)
    as (_ & Hsh & _ & Hh).
  split; [|exact Hh]. etrans; [exact Hsh|]. vm_compute. reflexivity.
Defined.

(** X12.  A site is ingested with success while a question is waiting
    for its answer.  When the call resumes it looks up [state["qa_chain"]]
    and so runs the chain the ingest has just attached, over the vector
    store as the ingest left it.  It resolves its turn on the list it
    took at its start and shows it; the history of the session is the
    new list of the ingest, and stays empty. *)
Theorem ingest_during_question (E : Collaborators) (w : World E)
    (s : nat) (user_msg : string) (chain : QAChain) (l : nat)
    (url : string) (depth : Z) :
  st_qa_chain (get_state w s) = Some chain →
  st_history (get_state w s) = Some l →
  PyStr.strip user_msg ≠ "" →
  let m := PyStr.strip user_msg in
  let c1 := step E (mkConfig w [Start s user_msg] []) 0 in
  let w' := (ingest_fn E s url depth (world c1)).1 in
  indexed (ingest_fn E s url depth (world c1)).2 = true →
  let c := run E [0; 0; 0]%nat (ingest_during s url depth c1) in
  ∃ chain',
    st_qa_chain (get_state w' s) = Some chain'
    ∧ let a := answer_text (qa_run E chain' m (chroma w')).2 in
      tasks c = [Finished]
      ∧ shown c 0 = [history w s ++ [(m, "⏳ …thinking…")];
                     history w s ++ [(m, a)]]
      ∧ contents (world c) l = history w s ++ [(m, a)]
      ∧ history (world c) s = [].
Proof.
  intros Hchain Hhist Hraw m c1 w' Hok c. subst c w' c1.
  rewrite (first_yield E w s user_msg chain l) in * by done. fold m in Hok |- *.
  set (w1 := list_append E l (m, PENDING) w) in *.
  cbn [world] in Hok |- *.
  assert (history w s = contents w l) as Hh by (unfold history; by rewrite Hhist).
  assert (contents w1 l = history w s ++ [(m, PENDING)]) as Hl1
    by (unfold w1; by rewrite contents_list_append, Hh).
  destruct (ingest_fn_indexed_state E w1 s url depth Hok)
    as (chain' & l' & Hq & Hl' & Hfresh).
  unfold ingest_during. cbn [world tasks outputs].
  set (w' := (ingest_fn E s url depth w1).1) in *.
  assert (∀ l0, contents w' l0 = contents w1 l0) as Hlists
    by (intros l0; apply ingest_fn_contents).
  assert (contents w' l ≠ []) as Hne.
  { rewrite Hlists, Hl1. by destruct (history w s). }
  assert (history w' s = []) as Hempty.
  { unfold history. rewrite Hl', Hlists. unfold contents.
    apply not_elem_of_dom in Hfresh. by rewrite Hfresh. }
  exists chain'. split; [exact Hq|]. cbv zeta.
  set (a := answer_text (qa_run E chain' m (chroma w')).2).
  destruct (question_resumed E w' s user_msg chain' l
              [(0%nat, history w s ++ [(m, PENDING)])])
    as (Ht & Hsh & Hl & Hoth & Hs & _); [done..|].
  fold m a in Ht, Hsh, Hl, Hoth, Hs.
  rewrite Hlists, Hl1, set_last_snoc in Hsh, Hl.
  split_and!; try done.
  by apply (history_stays_empty E w' _ s l).
Qed.

Lemma ingest_during_question_witness :
  let E := Stub.env Stub.chatty_llm in
  let w := (ingest_fn E 0 "a.example" 2 init_world).1 in
  let c1 := step E (mkConfig w [Start 0 "hi"] []) 0 in
  let c := run E [0; 0; 0]%nat (ingest_during 0 "b.example" 2 c1) in
  st_qa_chain (get_state w 0) = Some (make_qa_chain "session-0")
  ∧ st_history (get_state w 0) = Some 0%nat
  ∧ PyStr.strip "hi" ≠ ""
  ∧ indexed (ingest_fn E 0 "b.example" 2 (world c1)).2 = true
  ∧ history (world c) 0 = [].
Proof.
  intros E w c1 c.
  assert (st_qa_chain (get_state w 0) = Some (make_qa_chain "session-0")) as Hchain
    by (vm_compute; reflexivity).
  assert (st_history (get_state w 0) = Some 0%nat) as Hhist
    by (vm_compute; reflexivity).
  assert (PyStr.strip "hi" ≠ "") as Hraw by (vm_compute; discriminate).
  assert (indexed (ingest_fn E 0 "b.example" 2 (world c1)).2 = true) as Hok
    by (vm_compute; reflexivity).
  do 4 (split; [done|]).
  destruct (ingest_during_question E w 0 "hi" _ _ "b.example" 2
              Hchain Hhist Hraw Hok) as (chain' & _ & _ & _ & _ & Hh).
  exact Hh.
Defined.

Section SequenceFacts.
Context (E : Collaborators).
Implicit Types (w : World E) (c : Config E) (s l : nat).

Lemma ask_all_log (w : World E) s chain l msgs : ∀ w1,
  st_qa_chain (get_state w s) = Some chain →
  st_history (get_state w s) = Some l →
  sessions w1 = sessions w → chroma w1 = chroma w →
  Forall (λ raw, PyStr.strip raw ≠ "") msgs →
  let turn := λ raw, (PyStr.strip raw,
                      answer_text (qa_run E chain (PyStr.strip raw) (chroma w)).2) in
  history (ask_all E s msgs w1) s = history w1 s ++ (turn <$> msgs)
  ∧ sessions (ask_all E s msgs w1) = sessions w
  ∧ chroma (ask_all E s msgs w1) = chroma w
  ∧ jobs (ask_all E s msgs w1)
    = jobs w1 ++ ((λ raw, (chain, PyStr.strip raw)) <$> msgs).
Proof.
  induction msgs as [|raw msgs IH]; intros w1 Hchain Hhist Hs Hc Hall turn.
  { cbn. by rewrite !app_nil_r. }
  apply Forall_cons in Hall as [Hraw Hall].
  assert (get_state w1 s = get_state w s) as Hst
    by (unfold get_state; by rewrite Hs).
  destruct (chat_fn_solo_log E w1 s raw chain l)
    as (_ & _ & Hh & Hs' & Hc' & Hj & _); [by rewrite Hst..|done|].
  cbn [ask_all foldl]. fold (ask_all E s msgs (world (chat_fn E s raw w1))).
  destruct (IH (world (chat_fn E s raw w1)) Hchain Hhist) as (Hh2 & Hs2 & Hc2 & Hj2);
    [congruence..|done|].
  rewrite Hh2, Hh, Hj2, Hj, Hc. cbn [fmap list_fmap].
  by rewrite <-!app_assoc.
Qed.

Lemma task_step_lists_grow t w w' t' out :
  task_step E t w = (w', t', out) →
  ∀ l, (length (contents w l) ≤ length (contents w' l))%nat.
Proof.
  intros Hstep l.
  destruct t as [s raw|s m l0|m l0 chain|m l0 a| |e].
  - rewrite task_step_start in Hstep.
    assert (∀ l1 turn w1, (∀ l2, contents w1 l2 = contents w l2) →
              length (contents w l) ≤ length (contents (list_append E l1 turn w1) l))%nat
      as Happ.
    { intros l1 turn w1 Hsame. destruct (decide (l1 = l)) as [->|Hne].
      - rewrite contents_list_append, Hsame, length_app. lia.
      - unfold list_append, set_heap, contents at 2. cbn [heap].
        rewrite lookup_insert_ne by done. fold (contents w1 l).
        by rewrite Hsame. }
    assert (∀ l2, contents
                    (match st_history (get_state w s) with
                     | Some _ => w
                     | None => (new_list E w).2
                     end) l2 = contents w l2) as Hsame.
    { intros l2. destruct (st_history _); [done|apply contents_new_list]. }
    case_decide; [simplify_eq; by rewrite Hsame|].
    destruct (st_qa_chain (get_state w s)); simplify_eq; by apply Happ.
  - cbn [task_step] in Hstep. destruct (st_qa_chain _); by simplify_eq.
  - cbn [task_step] in Hstep. unfold qa_invoke in Hstep.
    destruct (qa_run E chain m (chroma w)). by simplify_eq.
  - cbn [task_step] in Hstep. case_decide; simplify_eq; [done|].
    unfold set_heap, contents at 2. cbn [heap].
    destruct (decide (l0 = l)) as [->|Hne].
    + rewrite lookup_insert_eq. cbn [default from_option id].
      by rewrite length_insert.
    + by rewrite lookup_insert_ne.
  - by simplify_eq/=.
  - by simplify_eq/=.
Qed.

End SequenceFacts.

(** X13.  Questions asked on a session with an index one after the
    other, each awaited: the history grows by one turn per question, in
    the order of asking, each turn holding the stripped question and the
    text its chain invocation gave; as many jobs were submitted, in the
    same order; the session dicts and the vector store are unchanged. *)
Theorem questions_asked_in_turn (E : Collaborators) (w : World E) (s : nat)
    (chain : QAChain) (l : nat) (msgs : list string) :
  st_qa_chain (get_state w s) = Some chain →
  st_history (get_state w s) = Some l →
  Forall (λ raw, PyStr.strip raw ≠ "") msgs →
  let turn := λ raw, (PyStr.strip raw,
                      answer_text (qa_run E chain (PyStr.strip raw) (chroma w)).2) in
  let w' := ask_all E s msgs w in
  history w' s = history w s ++ (turn <$> msgs)
  ∧ length (history w' s) = (length (history w s) + length msgs)%nat
  ∧ jobs w' = jobs w ++ ((λ raw, (chain, PyStr.strip raw)) <$> msgs)
  ∧ sessions w' = sessions w
  ∧ chroma w' = chroma w.
Proof.
  intros Hchain Hhist Hall turn w'. subst w'.
  destruct (ask_all_log E w s chain l msgs w Hchain Hhist eq_refl eq_refl Hall)
    as (Hh & Hs & Hc & Hj).
  split_and!; try done.
  rewrite Hh, length_app, length_fmap. done.
Qed.

Lemma questions_asked_in_turn_witness :
  let E := Stub.env Stub.chatty_llm in
  let w := (ingest_fn E 0 "a.example" 2 init_world).1 in
  st_qa_chain (get_state w 0) = Some (make_qa_chain "session-0")
  ∧ st_history (get_state w 0) = Some 0%nat
  ∧ Forall (λ raw, PyStr.strip raw ≠ "") ["one"; " two "]
  ∧ history (ask_all E 0 ["one"; " two "] w) 0
    = [("one", "re: one"); ("two", "re: two")].
Proof.
  intros E w.
  assert (st_qa_chain (get_state w 0) = Some (make_qa_chain "session-0")) as Hchain
    by (vm_compute; reflexivity).
  assert (st_history (get_state w 0) = Some 0%nat) as Hhist
    by (vm_compute; reflexivity).
  assert (Forall (λ raw, PyStr.strip raw ≠ "") ["one"; " two "]) as Hall
    by (repeat constructor; vm_compute; discriminate).
  do 3 (split; [done|]).
  destruct (questions_asked_in_turn E w 0 _ _ _ Hchain Hhist Hall) as (Hh & _).
  etrans; [exact Hh|]. vm_compute. reflexivity.
Defined.

(** X14.  A question on a session with an index submits exactly one job
    to the executor, for the chain of the session and the stripped
    question, and the chain sends at most one prompt: none when the
    retriever raises, otherwise the prompt built from the retrieved
    chunks and the stripped question. *)
Theorem question_submits_one_job (E : Collaborators) (w : World E) (s : nat)
    (user_msg : string) (chain : QAChain) (l : nat) :
  st_qa_chain (get_state w s) = Some chain →
  st_history (get_state w s) = Some l →
  PyStr.strip user_msg ≠ "" →
  let m := PyStr.strip user_msg in
  let c := chat_fn E s user_msg w in
  jobs (world c) = jobs w ++ [(chain, m)]
  ∧ match retrieve E chain m (chroma w) with
    | Raise _ => prompts (world c) = prompts w
    | Return docs => prompts (world c) = prompts w ++ [build_prompt docs m]
    end.
Proof.
  intros Hchain Hhist Hraw m c.
  destruct (chat_fn_solo_log E w s user_msg chain l Hchain Hhist Hraw)
    as (_ & _ & _ & _ & _ & Hj & Hp & _).
  fold m c in Hj, Hp. split; [done|].
  unfold qa_run in Hp.
  destruct (retrieve E chain m (chroma w)) as [docs|e].
  - by destruct (llm_generate E (qa_llm chain) (build_prompt docs m)).
  - by rewrite app_nil_r in Hp.
Qed.

Lemma question_submits_one_job_witness :
  let E := Stub.env Stub.chatty_llm in
  let w := (ingest_fn E 0 "a.example" 2 init_world).1 in
  st_qa_chain (get_state w 0) = Some (make_qa_chain "session-0")
  ∧ st_history (get_state w 0) = Some 0%nat
  ∧ PyStr.strip " hi " ≠ ""
  ∧ jobs (world (chat_fn E 0 " hi " w)) = [(make_qa_chain "session-0", "hi")].
Proof.
  intros E w.
  assert (st_qa_chain (get_state w 0) = Some (make_qa_chain "session-0")) as Hchain
    by (vm_compute; reflexivity).
  assert (st_history (get_state w 0) = Some 0%nat) as Hhist
    by (vm_compute; reflexivity).
  assert (PyStr.strip " hi " ≠ "") as Hraw by (vm_compute; discriminate).
  do 3 (split; [done|]).
  destruct (question_submits_one_job E w 0 " hi " _ _ Hchain Hhist Hraw) as (Hj & _).
  etrans; [exact Hj|]. vm_compute. reflexivity.
Defined.

(** X15.  Whatever tasks are in flight and however the event loop
    schedules them, the questions change no session dict (identifier,
    chain, binding of the history), not the vector store and not the
    UUID supply, and no list ever gets shorter. *)
Theorem questions_keep_sessions_and_index (E : Collaborators)
    (sched : list nat) (c : Config E) :
  sessions (world (run E sched c)) = sessions (world c)
  ∧ chroma (world (run E sched c)) = chroma (world c)
  ∧ uuids (world (run E sched c)) = uuids (world c)
  ∧ ∀ l, (length (contents (world c) l)
          ≤ length (contents (world (run E sched c)) l))%nat.
Proof.
  revert c. induction sched as [|i sched IH]; intros c; [done|].
  cbn [run foldl]. fold (run E sched (step E c i)).
  destruct (IH (step E c i)) as (Hs & Hc & Hu & Hl).
  assert (sessions (world (step E c i)) = sessions (world c)
          ∧ chroma (world (step E c i)) = chroma (world c)
          ∧ uuids (world (step E c i)) = uuids (world c)
          ∧ ∀ l, (length (contents (world c) l)
                  ≤ length (contents (world (step E c i)) l))%nat)
    as (Hs1 & Hc1 & Hu1 & Hl1).
  { unfold step. destruct (tasks c !! i) as [t|]; [|done].
    destruct (task_step E t (world c)) as [[w' t'] out] eqn:Hstep.
    cbn [world].
    pose proof (task_step_lists_grow E _ _ _ _ _ Hstep) as Hgrow.
    apply task_step_frame in Hstep as (? & ? & ? & _). done. }
  split_and!; [congruence..|].
  intros l. etrans; [apply Hl1|apply Hl].
Qed.

Section NoCrashFacts.
Context (E : Collaborators).
Implicit Types (w : World E) (c : Config E) (s l : nat) (t : Task).

Lemma ingest_fn_keeps_chain w s s' url depth :
  is_Some (st_qa_chain (get_state w s')) →
  is_Some (st_qa_chain (get_state (ingest_fn E s url depth w).1 s')).
Proof.
  intros Hsome. destruct (decide (s' = s)) as [->|Hne].
  2: { by destruct (ingest_fn_other_session E w s s' url depth Hne) as [-> _]. }
  assert (is_Some (st_qa_chain (get_state (setdefault_id E s w).2 s))) as Hst
    by (by rewrite setdefault_id_state).
  destruct (ingest_fn_cases E w s url depth)
    as [Hurl|(Hurl & [[e Hload]|[Hload|(docs & Hload & Hdocs & [[e He]|(embs & He & Hchunks & Hlen)])]])].
  - by rewrite ingest_fn_blank.
  - by erewrite ingest_fn_crawl_failed.
  - by rewrite ingest_fn_no_pages.
  - by erewrite ingest_fn_store_failed.
  - erewrite ingest_fn_indexed by done. cbn [fst].
    rewrite get_state_set_state_eq. cbn. eauto.
Qed.

(** A task that can go on in [w] can go on in every world that kept the
    chains and did not empty a list. *)
Lemma task_ok_mono w w' t :
  (∀ s, is_Some (st_qa_chain (get_state w s)) →
        is_Some (st_qa_chain (get_state w' s))) →
  (∀ l, contents w l ≠ [] → contents w' l ≠ []) →
  task_ok w t → task_ok w' t.
Proof.
  intros Hchain Hlist. destruct t; cbn; try done.
  - intros [? ?]. split; [by apply Hchain|by apply Hlist].
  - apply Hlist.
  - apply Hlist.
Qed.

Lemma grows_nonempty w w' :
  (∀ l, (length (contents w l) ≤ length (contents w' l))%nat) →
  ∀ l, contents w l ≠ [] → contents w' l ≠ [].
Proof.
  intros Hgrow l Hne Hnil. specialize (Hgrow l). rewrite Hnil in Hgrow.
  destruct (contents w l); [done|]. cbn in Hgrow. lia.
Qed.

Lemma task_step_ok w w' t t' out :
  task_ok w t → task_step E t w = (w', t', out) → task_ok w' t'.
Proof.
  intros Hok Hstep.
  destruct t as [s raw|s m l0|m l0 chain|m l0 a| |e].
  - rewrite task_step_start in Hstep.
    case_decide; [by simplify_eq|].
    destruct (st_qa_chain (get_state w s)) as [chain|] eqn:Hchain;
      simplify_eq; [|done].
    cbn [task_ok]. split.
    + unfold get_state, list_append, set_heap. cbn [sessions].
      destruct (st_history _); cbn [sessions new_list snd set_heap];
        fold (get_state w s); rewrite Hchain; eauto.
    + rewrite contents_list_append. by destruct (contents _ _).
  - cbn [task_step] in Hstep. destruct Hok as [[chain Hchain] Hne].
    rewrite Hchain in Hstep. by simplify_eq.
  - cbn [task_step] in Hstep. unfold qa_invoke in Hstep.
    destruct (qa_run E chain m (chroma w)). by simplify_eq.
  - cbn [task_step] in Hstep. cbn [task_ok] in Hok.
    rewrite decide_False in Hstep by done. by simplify_eq.
  - by simplify_eq/=.
  - done.
Qed.

Lemma reachable_task_ok c :
  reachable c → ∀ i t, tasks c !! i = Some t → task_ok (world c) t.
Proof.
  induction 1 as [|c s url depth _ IH|c s _ IH|c s raw _ IH|c j _ IH];
    intros i t Ht; cbn [world tasks] in *.
  - done.
  - eapply task_ok_mono; [..|by eapply IH].
    + intros s'. apply ingest_fn_keeps_chain.
    + intros l. by rewrite ingest_fn_contents.
  - destruct (clear_chat_keeps E (world c) s) as (_ & _ & Hchain & Hother & _ & Hl).
    eapply task_ok_mono; [..|by eapply IH].
    + intros s'. destruct (decide (s' = s)) as [->|Hne]; [by rewrite Hchain|].
      by destruct (Hother s' Hne) as [-> _].
    + intros l. by rewrite Hl.
  - apply lookup_app_Some in Ht as [Ht|[_ Ht]]; [by eapply IH|].
    apply list_lookup_singleton_Some in Ht as [_ <-]. done.
  - unfold step in *. destruct (tasks c !! j) as [tj|] eqn:Hj; [|by eapply IH].
    destruct (task_step E tj (world c)) as [[w' t'] out] eqn:Hstep.
    cbn [world tasks] in *.
    destruct (decide (i = j)) as [->|Hne].
    + rewrite list_lookup_insert_eq in Ht by (by eapply lookup_lt_Some).
      simplify_eq. eapply task_step_ok; [|done]. by eapply IH.
    + rewrite list_lookup_insert_ne in Ht by done.
      eapply task_ok_mono; [..|by eapply IH].
      * intros s'. apply task_step_frame in Hstep as (Hs & _).
        unfold get_state. by rewrite Hs.
      * apply grows_nonempty. by eapply task_step_lists_grow.
Qed.

End NoCrashFacts.

(** X16.  However ingests, clears, new questions and turns of the event
    loop interleave, no call of [chat_fn] ends in an exception: a task
    that is about to look up [state["qa_chain"]] finds the key (no
    KeyError), and the list a task is about to assign [hist[-1]] in is
    not empty (no IndexError). *)
Theorem questions_never_crash (E : Collaborators) (c : Config E)
    (i : nat) (t : Task) :
  reachable c → tasks c !! i = Some t →
  task_ok (world c) t ∧ ∀ e, t ≠ Crashed e.
Proof.
  intros Hreach Ht.
  pose proof (reachable_task_ok E c Hreach i t Ht) as Hok.
  split; [done|]. intros e ->. done.
Qed.

Lemma questions_never_crash_witness :
  let E := Stub.env Stub.chatty_llm in
  let c0 := mkConfig (ingest_fn E 0 "a.example" 2 init_world).1 [] [] in
  let c := clear_during 0 (step E (mkConfig (world c0) [Start 0 "hi"] []) 0) in
  reachable c
  ∧ tasks c !! 0%nat = Some (Pending 0 "hi" 0)
  ∧ task_ok (world c) (Pending 0 "hi" 0).
Proof.
  intros E c0 c.
  assert (reachable c) as Hreach.
  { apply (reach_clear E (step E (mkConfig (world c0) [Start 0 "hi"] []) 0)).
    apply (reach_step E (mkConfig (world c0) [Start 0 "hi"] [])).
    apply (reach_ask E c0 0 "hi").
    apply (reach_ingest E (mkConfig init_world [] []) 0 "a.example" 2).
    apply reach_init. }
  assert (tasks c !! 0%nat = Some (Pending 0 "hi" 0)) as Ht
    by (vm_compute; reflexivity).
  do 2 (split; [done|]).
  exact (proj1 (questions_never_crash E c 0 _ Hreach Ht)).
Defined.

Section CollectionFacts.
Context (E : Collaborators).
Implicit Types (w : World E) (c : Config E) (s l : nat).

Lemma setdefault_id_lookup w s :
  sessions (setdefault_id E s w).2 !! s
  = Some (mkState (Some (setdefault_id E s w).1) (st_qa_chain (get_state w s))
                  (st_history (get_state w s))).
Proof. unfold setdefault_id. simpl. by rewrite lookup_insert_eq. Qed.

Lemma wf_chroma_frame w w' :
  sessions w' = sessions w → chroma w' = chroma w → uuids w' = uuids w →
  wf_chroma w → wf_chroma w'.
Proof.
  intros Hs Hc Hu [H1 H2]. split; rewrite ?Hs, ?Hc, ?Hu; eauto.
Qed.

Lemma wf_chroma_setdefault_id w s :
  wf_chroma w → wf_chroma (setdefault_id E s w).2.
Proof.
  intros [H1 H2]. split.
  - intros name Hname. unfold setdefault_id in *. cbn [snd chroma uuids] in *.
    destruct (H1 name Hname) as (n & Hn & ->). exists n. split; [lia|done].
  - intros s0 st sid Hs0 Hid Hchain.
    change (chroma (setdefault_id E s w).2) with (chroma w).
    destruct (decide (s0 = s)) as [->|Hne].
    + rewrite setdefault_id_lookup in Hs0. simplify_eq. cbn in Hchain.
      assert (default [] (chroma w !! collection_name (uuid4_str (uuids w))) = [])
        as Hfresh.
      { destruct (_ !! _) as [coll|] eqn:Hcoll; [|done].
        destruct (H1 (collection_name (uuid4_str (uuids w)))) as (n & Hn & Heq);
          [by eexists|].
        apply collection_name_inj, uuid4_str_inj in Heq. lia. }
      unfold setdefault_id, get_state in *. cbn [fst] in *.
      destruct (sessions w !! s) as [st0|] eqn:Hs; cbn in *;
        [destruct (st_id st0) as [i|] eqn:Hi; cbn in *|]; simplify_eq.
      * by eapply H2.
      * by rewrite Hfresh.
      * by rewrite Hfresh.
    + rewrite setdefault_id_other in Hs0 by done. by eapply H2.
Qed.

Lemma wf_chroma_ingest_fn w s url depth :
  wf_world w → wf_chroma w → wf_chroma (ingest_fn E s url depth w).1.
Proof.
  intros Hwf Hch.
  pose proof (wf_world_setdefault_id E w s Hwf) as Hwf1.
  pose proof (wf_chroma_setdefault_id w s Hch) as Hch1.
  pose proof (setdefault_id_lookup w s) as Hs1.
  assert (∃ n, (n < uuids (setdefault_id E s w).2)%N
               ∧ (setdefault_id E s w).1 = uuid4_str n) as Hsid
    by (by eapply (wf_uuid _ _ Hwf1)).
  assert (∀ coll name,
            is_Some (<[collection_name (setdefault_id E s w).1 := coll]>
                       (chroma w) !! name) →
            ∃ n, (n < uuids (setdefault_id E s w).2)%N
                 ∧ name = collection_name (uuid4_str n)) as Hnames.
  { intros coll name Hname.
    destruct (decide (name = collection_name (setdefault_id E s w).1)) as [->|Hne].
    - destruct Hsid as (n & Hn & ->). eauto.
    - rewrite lookup_insert_ne in Hname by done.
      by apply (wf_names _ Hch1). }
  destruct (ingest_fn_cases E w s url depth)
    as [Hurl|(Hurl & [[e Hload]|[Hload|(docs & Hload & Hdocs & [[e He]|(embs & He & Hchunks & Hlen)])]])].
  - by rewrite ingest_fn_blank.
  - by erewrite ingest_fn_crawl_failed.
  - by rewrite ingest_fn_no_pages.
  - erewrite ingest_fn_store_failed by done. cbn [fst]. split.
    + intros name. cbn [set_chroma chroma uuids]. apply Hnames.
    + intros s0 st sid Hs0 Hid Hchain. cbn [set_chroma chroma sessions] in *.
      pose proof (wf_unindexed _ Hch1 s0 st sid Hs0 Hid Hchain) as Hold.
      change (chroma (setdefault_id E s w).2) with (chroma w) in Hold.
      destruct (decide (collection_name sid
                        = collection_name (setdefault_id E s w).1)) as [Heq|Hne].
      * rewrite <-Heq, lookup_insert_eq. exact Hold.
      * by rewrite lookup_insert_ne.
  - erewrite ingest_fn_indexed by done. cbn [fst]. split.
    + intros name. cbn. apply Hnames.
    + intros s0 st sid Hs0 Hid Hchain.
      cbn [set_state new_list snd set_heap set_chroma chroma sessions] in *.
      destruct (decide (s0 = s)) as [->|Hne].
      { rewrite lookup_insert_eq in Hs0. by simplify_eq. }
      rewrite lookup_insert_ne in Hs0 by done.
      pose proof (wf_unindexed _ Hch1 s0 st sid Hs0 Hid Hchain) as Hold.
      change (chroma (setdefault_id E s w).2) with (chroma w) in Hold.
      rewrite lookup_insert_ne; [done|].
      intros Heq. apply collection_name_inj in Heq. apply Hne.
      eapply (wf_id_inj _ _ Hwf1 s0 s); [exact Hs0|exact Hs1|exact Hid|].
      cbn [st_id]. by rewrite Heq.
Qed.

Lemma wf_chroma_clear_chat w s : wf_chroma w → wf_chroma (clear_chat E s w).
Proof.
  intros [H1 H2]. split; [exact H1|].
  intros s0 st sid Hs0 Hid Hchain.
  change (chroma (clear_chat E s w)) with (chroma w).
  unfold clear_chat in Hs0. cbn [new_list set_state set_heap sessions] in Hs0.
  destruct (decide (s0 = s)) as [->|Hne].
  - rewrite lookup_insert_eq in Hs0. simplify_eq. cbn in *.
    unfold get_state in *.
    destruct (sessions w !! s) as [st0|] eqn:Hs; [|done]. by eapply H2.
  - rewrite lookup_insert_ne in Hs0 by done. by eapply H2.
Qed.

Lemma reachable_wf_chroma c : reachable c → wf_chroma (world c).
Proof.
  induction 1 as [|c s url depth Hr IH|c s _ IH|c s raw _ IH|c j _ IH];
    cbn [world].
  - split; cbn [world init_world chroma sessions].
    + intros name [x Hx]. by rewrite lookup_empty in Hx.
    + intros s st sid Hs. by rewrite lookup_empty in Hs.
  - apply wf_chroma_ingest_fn; [by apply reachable_wf|done].
  - by apply wf_chroma_clear_chat.
  - done.
  - unfold step. destruct (tasks c !! j) as [tj|]; [|done].
    destruct (task_step E tj (world c)) as [[w' t'] out] eqn:Hstep.
    cbn [world]. apply task_step_frame in Hstep as (? & ? & ? & _).
    by eapply wf_chroma_frame.
Qed.

End CollectionFacts.

(** X17.  The first ingest of a session that succeeds -- the session has
    no chain yet, whatever happened before in the process, failed
    ingests of the same session included; the crawl returns pages, the
    pages give at least one chunk and the embedder returns one vector
    per chunk -- reports "✅ Indexed ..." and leaves the collection its
    chain reads holding exactly the embedded chunks of the pages just
    crawled, in the order of the chunks. *)
Theorem first_ingest_indexes_its_pages_only (E : Collaborators) (c : Config E)
    (s : nat) (url : string) (depth : Z) (docs : list Document)
    (embs : list (Emb E)) :
  reachable c →
  st_qa_chain (get_state (world c) s) = None →
  PyStr.strip url ≠ "" →
  let target := with_scheme (PyStr.strip url) in
  let chunks := splitter_split E SPLITTER (set_source target <$> docs) in
  loader_load E (mkLoaderArgs target depth 10) = Return docs →
  docs ≠ [] →
  embed_documents E EMBED_MODEL (page_content <$> chunks) = Return embs →
  chunks ≠ [] →
  length embs = length chunks →
  let w' := (ingest_fn E s url depth (world c)).1 in
  indexed (ingest_fn E s url depth (world c)).2 = true
  ∧ ∃ chain,
      st_qa_chain (get_state w' s) = Some chain
      ∧ default [] (chroma w' !! qa_collection chain) = zip chunks embs
      ∧ length (default [] (chroma w' !! qa_collection chain)) = length chunks.
Proof.
  intros Hreach Hnone Hurl target chunks Hload Hdocs Hembed Hchunks Hlen w'.
  pose proof (wf_chroma_setdefault_id E (world c) s
                (reachable_wf_chroma E c Hreach)) as Hch1.
  pose proof (wf_unindexed _ Hch1 s _ _ (setdefault_id_lookup E (world c) s)
                eq_refl Hnone) as Hempty.
  change (chroma (setdefault_id E s (world c)).2) with (chroma (world c)) in Hempty.
  subst w'. erewrite ingest_fn_indexed by done. cbn [fst snd].
  split; [done|].
  rewrite get_state_set_state_eq. eexists. split; [reflexivity|].
  cbn [make_qa_chain qa_collection set_state new_list snd set_heap set_chroma chroma].
  rewrite lookup_insert_eq. cbn [default from_option id].
  unfold Collection in *. fold target chunks. rewrite Hempty. cbn [app].
  split; [done|]. rewrite length_zip. lia.
Qed.

Lemma first_ingest_indexes_its_pages_only_witness :
  let E := Stub.env Stub.chatty_llm in
  let c : Config E := mkConfig (ingest_fn E 0 "nowhere.example" 2 init_world).1 [] [] in
  let docs := [Stub.page "https://a.example" "alpha"] in
  reachable c
  ∧ st_qa_chain (get_state (world c) 0) = None
  ∧ st_id (get_state (world c) 0) = Some (uuid4_str 0)
  ∧ PyStr.strip " a.example " ≠ ""
  ∧ loader_load E (mkLoaderArgs "https://a.example" 2 10) = Return docs
  ∧ splitter_split E SPLITTER (set_source "https://a.example" <$> docs) = docs
  ∧ ∃ chain,
      st_qa_chain (get_state (ingest_fn E 0 " a.example " 2 (world c)).1 0)
      = Some chain
      ∧ default [] (chroma (ingest_fn E 0 " a.example " 2 (world c)).1
                    !! qa_collection chain)
        = [(Stub.page "https://a.example" "alpha", 5%nat)].
Proof.
  intros E c docs.
  assert (reachable c) as Hreach.
  { apply (reach_ingest E (mkConfig init_world [] []) 0 "nowhere.example" 2).
    apply reach_init. }
  assert (st_qa_chain (get_state (world c) 0) = None) as Hnone
    by (vm_compute; reflexivity).
  assert (PyStr.strip " a.example " ≠ "") as Hurl by (vm_compute; discriminate).
  assert (loader_load E (mkLoaderArgs (with_scheme (PyStr.strip " a.example ")) 2 10)
          = Return docs) as Hload by (vm_compute; reflexivity).
  assert (docs ≠ []) as Hdocs by done.
  assert (embed_documents E EMBED_MODEL
            (page_content <$> splitter_split E SPLITTER
               (set_source (with_scheme (PyStr.strip " a.example ")) <$> docs))
          = Return [5%nat]) as Hembed by (vm_compute; reflexivity).
  assert (splitter_split E SPLITTER
            (set_source (with_scheme (PyStr.strip " a.example ")) <$> docs) ≠ [])
    as Hchunks by (vm_compute; discriminate).
  assert (length [5%nat]
          = length (splitter_split E SPLITTER
                      (set_source (with_scheme (PyStr.strip " a.example ")) <$> docs)))
    as Hlen by (vm_compute; reflexivity).
  split; [done|]. split; [done|].
  split; [vm_compute; reflexivity|]. split; [done|].
  split; [vm_compute; reflexivity|].
  split; [vm_compute; reflexivity|].
  pose proof (first_ingest_indexes_its_pages_only E c 0 " a.example " 2 docs [5%nat]
                Hreach Hnone Hurl Hload Hdocs Hembed Hchunks Hlen) as H.
  cbv zeta in H. destruct H as (_ & chain & Hchain & Hcoll & _).
  exists chain. split; [exact Hchain|].
  etrans; [exact Hcoll|]. vm_compute. reflexivity.
Defined.

Section YieldFacts.
Context (E : Collaborators).
Implicit Types (w : World E) (c : Config E) (i : nat) (t : Task).

Lemma task_step_yields t w w' t' out :
  task_step E t w = (w', t', out) →
  (length (option_list out) + yields_left t' ≤ yields_left t)%nat
  ∧ (yields_made t' ≤ yields_made t + length (option_list out))%nat.
Proof.
  intros Hstep.
  destruct t as [s raw|s m l0|m l0 chain|m l0 a| |e].
  - rewrite task_step_start in Hstep.
    case_decide; [by simplify_eq; cbn; lia|].
    destruct (st_qa_chain (get_state w s)); simplify_eq; cbn; lia.
  - cbn [task_step] in Hstep.
    destruct (st_qa_chain _); simplify_eq; cbn; lia.
  - cbn [task_step] in Hstep. unfold qa_invoke in Hstep.
    destruct (qa_run E chain m (chroma w)). simplify_eq. cbn. lia.
  - cbn [task_step] in Hstep. case_decide; simplify_eq; cbn; lia.
  - simplify_eq/=. lia.
  - simplify_eq/=. lia.
Qed.

Lemma reachable_yields c :
  reachable c →
  ∀ i, match tasks c !! i with
       | None => shown c i = []
       | Some t => (length (shown c i) + yields_left t ≤ 2)%nat
                   ∧ (yields_made t ≤ length (shown c i))%nat
       end.
Proof.
  induction 1 as [|c s url depth _ IH|c s _ IH|c s raw _ IH|c j _ IH]; intros i.
  - done.
  - exact (IH i).
  - exact (IH i).
  - specialize (IH i). cbn [tasks]. change (shown (mkConfig _ _ (outputs c)) i)
      with (shown c i).
    destruct (tasks c !! i) as [t|] eqn:Ht.
    + by rewrite (lookup_app_l_Some _ _ _ _ Ht).
    + apply lookup_ge_None in Ht. rewrite lookup_app_r by done.
      rewrite IH. destruct (i - length (tasks c))%nat; [cbn; lia|done].
  - unfold step. destruct (tasks c !! j) as [tj|] eqn:Hj; [|exact (IH i)].
    destruct (task_step E tj (world c)) as [[w' t'] out] eqn:Hstep.
    cbn [tasks]. rewrite shown_app.
    apply task_step_yields in Hstep as [Hleft Hmade].
    destruct (decide (i = j)) as [->|Hne].
    + rewrite list_lookup_insert_eq by (by eapply lookup_lt_Some).
      specialize (IH j). rewrite Hj in IH.
      rewrite shown_own, length_app. lia.
    + rewrite list_lookup_insert_ne by done.
      rewrite shown_other, app_nil_r by done. exact (IH i).
Qed.

End YieldFacts.

(** X18.  However calls and turns of the event loop interleave, a call
    of [chat_fn] shows its requester at most two updates of the chat
    log, and a call that has ended has shown at least one. *)
Theorem question_shows_one_or_two_updates (E : Collaborators) (c : Config E)
    (i : nat) (t : Task) :
  reachable c → tasks c !! i = Some t →
  (length (shown c i) ≤ 2)%nat
  ∧ (t = Finished → 1 ≤ length (shown c i))%nat.
Proof.
  intros Hreach Ht.
  pose proof (reachable_yields E c Hreach i) as H. rewrite Ht in H.
  destruct H as [Hleft Hmade]. split; [lia|]. by intros ->.
Qed.

Lemma question_shows_one_or_two_updates_witness :
  let E := Stub.env Stub.chatty_llm in
  let c0 : Config E := mkConfig (ingest_fn E 0 "a.example" 2 init_world).1 [] [] in
  let c := run E [0; 0; 0; 0; 0]%nat (mkConfig (world c0) [Start 0 "hi"] []) in
  reachable c
  ∧ tasks c !! 0%nat = Some Finished
  ∧ shown c 0 = [[("hi", PENDING)]; [("hi", "re: hi")]]
  ∧ (length (shown c 0) ≤ 2)%nat.
Proof.
  intros E c0 c.
  assert (reachable c) as Hreach.
  { do 5 apply reach_step. apply (reach_ask E c0 0 "hi").
    apply (reach_ingest E (mkConfig init_world [] []) 0 "a.example" 2).
    apply reach_init. }
  assert (tasks c !! 0%nat = Some Finished) as Ht by (vm_compute; reflexivity).
  do 2 (split; [done|]). split; [vm_compute; reflexivity|].
  exact (proj1 (question_shows_one_or_two_updates E c 0 _ Hreach Ht)).
Defined.

(** X19.  When [ingest_fn] reports "✅ Indexed ...": only when the URL
    box is not blank, the crawl returned at least one page, the pages
    gave at least one chunk and the embedding of the chunks returned;
    and always when, on top of that, the embedder returned one vector
    per chunk.  On every other path it returns a warning or raises.  In
    particular, pages that give no chunk at all (pages without text)
    make the vector store raise a [ValueError] out of [ingest_fn], which
    calls [build_vectorstore] outside its [try]: no status is returned,
    and the session gets no chain. *)
Theorem ingest_success_conditions (E : Collaborators) (w : World E)
    (s : nat) (url : string) (depth : Z) :
  let target := with_scheme (PyStr.strip url) in
  let chunks_of := λ docs, splitter_split E SPLITTER (set_source target <$> docs) in
  let r := (ingest_fn E s url depth w).2 in
  let w' := (ingest_fn E s url depth w).1 in
  (indexed r = true →
   PyStr.strip url ≠ ""
   ∧ ∃ docs embs,
       loader_load E (mkLoaderArgs target depth 10) = Return docs
       ∧ docs ≠ []
       ∧ chunks_of docs ≠ []
       ∧ embed_documents E EMBED_MODEL (page_content <$> chunks_of docs)
         = Return embs)
  ∧ (∀ docs embs,
       PyStr.strip url ≠ "" →
       loader_load E (mkLoaderArgs target depth 10) = Return docs →
       docs ≠ [] →
       embed_documents E EMBED_MODEL (page_content <$> chunks_of docs)
       = Return embs →
       (chunks_of docs ≠ [] → length embs = length (chunks_of docs) →
        indexed r = true)
       ∧ (chunks_of docs = [] →
          r = Raise EMPTY_BATCH
          ∧ exn_type EMPTY_BATCH = "ValueError"
          ∧ st_qa_chain (get_state w' s) = st_qa_chain (get_state w s)
          ∧ history w' s = history w s)).
Proof.
  intros target chunks_of r w'. subst r w' chunks_of. split.
  - intros Hok.
    destruct (ingest_fn_cases E w s url depth)
      as [Hurl|(Hurl & [[e Hload]|[Hload|(docs & Hload & Hdocs & [[e He]|(embs & He & Hchunks & Hlen)])]])].
    + by rewrite ingest_fn_blank in Hok.
    + by erewrite ingest_fn_crawl_failed in Hok.
    + by rewrite ingest_fn_no_pages in Hok.
    + by erewrite ingest_fn_store_failed in Hok.
    + split; [done|]. by exists docs, embs.
  - intros docs embs Hurl Hload Hdocs Hembed. split.
    + intros Hchunks Hlen. by erewrite ingest_fn_indexed.
    + intros Hnil.
      assert (add_texts E (splitter_split E SPLITTER (set_source target <$> docs))
                (default [] (chroma w !! collection_name (setdefault_id E s w).1))
              = Raise EMPTY_BATCH) as Hadd.
      { rewrite Hnil in Hembed |- *. by eapply add_texts_empty. }
      erewrite ingest_fn_store_failed by done. cbn [fst snd].
      destruct (setdefault_id_keeps E w s) as (Hq & _ & Hhist & _).
      split_and!; [done..| |].
      * unfold get_state, set_chroma. cbn [sessions].
        fold (get_state (setdefault_id E s w).2 s). exact Hq.
      * rewrite history_set_chroma. exact Hhist.
Qed.

Lemma ingest_success_conditions_witness :
  let E := Stub.with_loader (Stub.env Stub.chatty_llm) Stub.blank_site in
  let docs := [Stub.page "https://blank.example" ""] in
  PyStr.strip "blank.example" ≠ ""
  ∧ loader_load E (mkLoaderArgs "https://blank.example" 2 10) = Return docs
  ∧ splitter_split E SPLITTER (set_source "https://blank.example" <$> docs) = []
  ∧ embed_documents E EMBED_MODEL [] = Return []
  ∧ (ingest_fn E 0 "blank.example" 2 init_world).2 = Raise EMPTY_BATCH
  ∧ st_qa_chain (get_state (ingest_fn E 0 "blank.example" 2 init_world).1 0) = None.
Proof.
  intros E docs.
  assert (PyStr.strip "blank.example" ≠ "") as Hurl by (vm_compute; discriminate).
  assert (loader_load E (mkLoaderArgs (with_scheme (PyStr.strip "blank.example")) 2 10)
          = Return docs) as Hload by (vm_compute; reflexivity).
  assert (splitter_split E SPLITTER
            (set_source (with_scheme (PyStr.strip "blank.example")) <$> docs) = [])
    as Hnil by (vm_compute; reflexivity).
  assert (embed_documents E EMBED_MODEL
            (page_content <$> splitter_split E SPLITTER
               (set_source (with_scheme (PyStr.strip "blank.example")) <$> docs))
          = Return []) as Hembed by (vm_compute; reflexivity).
  assert (docs ≠ []) as Hdocs by done.
  pose proof (ingest_success_conditions E init_world 0 "blank.example" 2) as H.
  cbv zeta in H. destruct H as [_ H].
  destruct (H docs [] Hurl Hload Hdocs Hembed) as [_ Hraise].
  destruct (Hraise Hnil) as (Hr & _ & Hq & _).
  split; [done|]. split; [exact Hload|]. split; [exact Hnil|].
  split; [vm_compute; reflexivity|]. split; [exact Hr|].
  rewrite Hq. vm_compute. reflexivity.
Defined.
